(** * SNSPushAdapter: a shallow embedding of [src/SNSPushAdapter.js]

    The adapter fans a notification out to device installations through
    Amazon SNS.  The embedding follows the source function by function:

    - values and objects of the program are records and inductive types;
    - the synchronous part of every function is a computation in a state and
      exception monad [M] over a [world] that holds the installation objects,
      the [Parse.Promise] objects, the requests handed to the SNS client whose
      callback has not run yet, the callbacks deferred to the next tick, and
      the chronological trace of the requests;
    - the asynchronous part is a step relation: the SNS client completes any
      request in flight, with any error and data, and runs its callback, or
      the first deferred callback runs.

    Functions of other packages (parse-server-push-adapter, JSON, the random
    source) are fields of the class [PushLib]; every theorem holds for all
    instances.  npmlog output is not part of the model. *)

From Stdlib Require Import ZArith Lia Ascii DecimalString.
From stdpp Require Import base option list strings.

Local Open Scope Z_scope.
Local Open Scope stdpp_scope.
Set Warnings "-register-all".

(** ** JavaScript values *)

(** Truthiness of a property that holds a string or is undefined. *)
Definition truthy (o : option string) : bool :=
  match o with
  | Some s => negb (String.eqb s EmptyString)
  | None => false
  end.

(** Truthiness of a property that holds a number or is undefined. *)
Definition truthy_num (o : option Z) : bool :=
  match o with
  | Some n => negb (n =? 0)
  | None => false
  end.

(** [String.prototype.startsWith]. *)
Definition startsWith (s p : string) : bool := String.prefix p s.

(** [haystack] contains [needle] as a contiguous substring. *)
Fixpoint includes (haystack needle : string) : bool :=
  String.prefix needle haystack ||
  match haystack with
  | EmptyString => false
  | String _ rest => includes rest needle
  end.

(** [Array.prototype.toString] on an array of strings: the elements joined
    by commas. *)
Definition array_toString (l : list string) : string := String.concat "," l.

(** JSON-like data: notification bodies, payloads. *)
Inductive json :=
| JNull
| JBool (b : bool)
| JNum (n : Z)
| JStr (s : string)
| JArr (items : list json)
| JObj (fields : list (string * json)).

(** [o[k] = v] on an object kept as its list of own properties in insertion
    order: an existing property keeps its place. *)
Fixpoint obj_set {A} (k : string) (v : A) (o : list (string * A)) : list (string * A) :=
  match o with
  | [] => [(k, v)]
  | (k', v') :: o' =>
      if String.eqb k k' then (k, v) :: o' else (k', v') :: obj_set k v o'
  end.

(** [o[k]]. *)
Fixpoint obj_get {A} (k : string) (o : list (string * A)) : option A :=
  match o with
  | [] => None
  | (k', v') :: o' => if String.eqb k k' then Some v' else obj_get k o'
  end.

(** The notification handed to [send]: [data.data] and [data.expirationTime]. *)
Record push_data := {
  data : json;
  expirationTime : option Z
}.

(** ** Functions of other packages *)

Class PushLib := {
  (** [APNS.generateNotification(d, e).compile()] *)
  APNS_compile : json -> option Z -> json;
  (** [GCM.generateGCMPayload(d, pushId, timeStamp, e)], for a [timeStamp]
      that [Date] can hold: beyond 8.64e15 milliseconds either side of the
      epoch the library throws a RangeError, which is not modelled *)
  GCM_generateGCMPayload : json -> string -> Z -> option Z -> list (string * json);
  (** [utils.randomString(size)], for the n-th call of the process *)
  utils_randomString : nat -> nat -> string;
  (** [utils.randomString] returns as many characters as it is asked for. *)
  utils_randomString_length :
    forall n size, String.length (utils_randomString n size) = size;
  JSON_stringify : json -> string;
  JSON_parse : string -> option json
}.

(** ** Configuration and construction *)

(** One platform entry of [pushConfig.pushTypes]; [production] is the
    truthiness of the property. *)
Record platform_config := {
  production : bool;
  bundleId : option string;
  ARN : option string
}.

(** The value under a platform key: one entry or an array of entries. *)
Inductive push_type_config :=
| OneConfig (c : platform_config)
| ConfigArray (l : list platform_config).

(** [pushConfig]; [pushTypes] lists the own properties in the order of
    [Object.keys]. *)
Record push_config := {
  accessKey : option string;
  secretKey : option string;
  region : option string;
  pushTypes : option (list (string * push_type_config))
}.

Inductive error_code := PUSH_MISCONFIGURED.

(** [Parse.Error]. *)
Record parse_error := {
  code : error_code;
  message : string
}.

(** The two bound methods stored in [senderMap]. *)
Inductive sender := sendToAPNS_bound | sendToGCM_bound.

Definition DEFAULT_REGION : string := "us-east-1".

(** What [AWS.config.update] receives. *)
Record aws_config := {
  accessKeyId : option string;
  secretAccessKey : option string;
  aws_region : string
}.

(** The fields of a constructed adapter. *)
Record adapter := {
  validPushTypes : list string;
  availablePushTypes : list string;
  snsConfig : option (list (string * push_type_config));
  senderMap : list (string * sender);
  aws : aws_config
}.

Inductive construction :=
| Constructed (a : adapter)
| Failed (e : parse_error).

(** [Array.prototype.indexOf(x) < 0]. *)
Definition not_indexed (x : string) (l : list string) : bool :=
  negb (existsb (String.eqb x) l).

(** The body of [for (let pushType of pushTypes)]: [all] is the whole array
    [pushTypes], which the error message concatenates. *)
Fixpoint register_push_types (valid all rest : list string)
    (available : list string) (senders : list (string * sender))
  : (list string * list (string * sender)) + parse_error :=
  match rest with
  | [] => inl (available, senders)
  | pushType :: rest' =>
      if not_indexed pushType valid then
        inr {| code := PUSH_MISCONFIGURED;
               message := "Push to " +:+ array_toString all +:+ " is not supported" |}
      else
        let available := available ++ [pushType] in
        let senders :=
          if String.eqb pushType "ios" then obj_set pushType sendToAPNS_bound senders
          else if String.eqb pushType "android" then obj_set pushType sendToGCM_bound senders
          else senders in
        register_push_types valid all rest' available senders
  end.

(** [function SNSPushAdapter(pushConfig)]. *)
Definition SNSPushAdapter (pushConfig : push_config) : construction :=
  let valid := ["ios"; "android"] in
  if negb (truthy (accessKey pushConfig)) || negb (truthy (secretKey pushConfig)) then
    Failed {| code := PUSH_MISCONFIGURED; message := "Need to provide AWS keys" |}
  else
    let registered :=
      match pushTypes pushConfig with
      | Some pts =>
          let keys := map fst pts in
          register_push_types valid keys keys [] []
      | None => inl ([], [])
      end in
    match registered with
    | inr e => Failed e
    | inl (available, senders) =>
        Constructed
          {| validPushTypes := valid;
             availablePushTypes := available;
             snsConfig := pushTypes pushConfig;
             senderMap := senders;
             aws := {| accessKeyId := accessKey pushConfig;
                       secretAccessKey := secretKey pushConfig;
                       aws_region := if truthy (region pushConfig)
                                     then default DEFAULT_REGION (region pushConfig)
                                     else DEFAULT_REGION |} |}
    end.

(** [SNSPushAdapter.prototype.getValidPushTypes]. *)
Definition getValidPushTypes (a : adapter) : list string := availablePushTypes a.

(** ** Installations *)

(** A device installation object. *)
Record installation := {
  deviceType : option string;
  deviceToken : option string;
  appIdentifier : option string;
  topicArn : option string
}.

(** Modelled from the spec: [utils.classifyInstallations] is imported from
    parse-server-push-adapter and is not part of the sources.  One bucket per
    available platform, in that order; a bucket keeps the installations of
    its platform in input order; an installation of no available platform is
    in no bucket. *)
Definition classifyInstallations (installations : list installation)
    (validTypes : list string) : list (string * list installation) :=
  map (fun t =>
         (t, List.filter (fun i => bool_decide (deviceType i = Some t)) installations))
      validTypes.

(** ** Payload framing *)

(** [SNSPushAdapter.generateiOSPayload]. *)
Definition generateiOSPayload `{PushLib} (d : push_data) (production : bool) : json :=
  let prefix := if production then "APNS" else "APNS_SANDBOX" in
  let notification := APNS_compile (data d) (expirationTime d) in
  let payload := [] in
  let payload := obj_set prefix notification payload in
  let payload := obj_set "default" (JStr "sns") payload in
  JObj payload.

(** The test of the inner loop of [sendToAPNS]:
    [!device.appIdentifier || device.appIdentifier === ''], else
    [device.appIdentifier === iosConfig.bundleId]. *)
Definition bundle_match (iosConfig : platform_config) (device : installation) : bool :=
  if negb (truthy (appIdentifier device))
     || bool_decide (appIdentifier device = Some EmptyString)
  then true
  else if bool_decide (appIdentifier device = bundleId iosConfig) then true
  else false.

(** The array [deviceSends] that [sendToAPNS] builds for one [iosConfig]. *)
Definition deviceSends (iosConfig : platform_config) (devices : list installation)
  : list installation :=
  List.filter (bundle_match iosConfig) devices.

(** ** Requests to the SNS client and what it answers *)

(** The [params] of [sns.publish]. *)
Record publish_params := {
  Message : string;
  MessageStructure : string;
  TargetArn : option string;
  TopicArn : option string
}.

Inductive sns_request :=
| createPlatformEndpoint (PlatformApplicationArn : option string) (Token : string)
| setEndpointAttributes (Enabled : string) (EndpointArn_ : option string)
| publish (object : publish_params).

(** The [err] a callback receives when it is not null. *)
Record sns_error := {
  err_message : string;
  stack : option string
}.

(** The [data] a callback receives when it is not null. *)
Record sns_data := {
  EndpointArn : option string;
  MessageId : option string
}.

(** [response.device]. *)
Record response_device := {
  rd_deviceType : option string;
  rd_deviceToken : string
}.

(** [response.response]: not set, [err.stack], or the [data] of [publish]
    (which may be null). *)
Inductive provider_response :=
| NotSet
| Stack (s : string)
| Data (d : option sns_data).

(** The [response] object that [sendSNSPayload] settles its promise with. *)
Record response := {
  device : response_device;
  transmitted : option bool;
  response_ : provider_response
}.

(** ** Promises *)

(** What the program throws. *)
Inductive exn :=
| TypeError (what : string)
| PromiseError (what : string).

(** The values promises settle with in this program. *)
Inductive value :=
| VUndefined
| VErr (err : option sns_error)
| VExchange (device : installation) (arn : option string)
| VResponse (r : response)
| VPromise (p : nat)
| VArray (l : list value)
| VExn (e : exn).

Inductive pstate :=
| Pending
| Resolved (v : value)
| Rejected (v : value).

(** A promise made with [new Parse.Promise(executor)].  [callbacks] are the
    pairs of callbacks that [chain] of [Parse.Promise.when] pushed on it:
    the aggregate they belong to and the index they write. *)
Record promise := {
  state : pstate;
  callbacks : list (nat * nat)
}.

(** [Parse.Promise.when(objects).then(cb)]: the closure of [when]
    ([arrayArgument], [total], [hadError], [results], [errors]), the promise [when] returns, the payload
    the callback of [then] captured once [then] has registered it, and the
    promise [then] returns. *)
Record aggregate := {
  arrayArgument : bool;
  total : Z;
  hadError : bool;
  results : list value;
  errors : list value;
  when_promise : pstate;
  then_callback : option json;
  then_promise : pstate
}.

(** A reference to a promise object. *)
Inductive promise_ref :=
| Made (p : nat)
| WhenOf (j : nat)
| ThenOf (j : nat).

(** The callbacks handed to the SNS client, with what they captured. *)
Inductive callback :=
| createPlatformEndpoint_cb (p : nat) (device : installation)
| setEndpointAttributes_cb (p : nat) (object : publish_params) (r : response)
| publish_cb (p : nat) (r : response).

(** The callbacks that [then] hands to [process.nextTick] when the promise
    it is called on is already settled, with the state [s] of that promise:
    the pair of callbacks of [chain] in [when], the callback of [then] in
    [sendToSNS], and the rejection of the promise of [then] after its
    callback has thrown. *)
Inductive tick :=
| chain_tick (s : pstate) (target : nat * nat)
| then_tick (j : nat) (payload : json) (s : pstate)
| reject_then_tick (j : nat) (error : value).

(** ** The world *)

Record world := {
  store : list installation;
  promises : list promise;
  aggregates : list aggregate;
  inflight : list (sns_request * callback);
  ticks : list tick;
  trace : list sns_request;
  now : Z;
  randoms : nat
}.

Definition empty_world : world :=
  {| store := []; promises := []; aggregates := []; inflight := [];
     ticks := []; trace := []; now := 0; randoms := 0%nat |}.

Definition with_store (s : list installation) (w : world) : world :=
  {| store := s; promises := promises w; aggregates := aggregates w;
     inflight := inflight w; ticks := ticks w; trace := trace w; now := now w;
     randoms := randoms w |}.

Definition with_promises (ps : list promise) (w : world) : world :=
  {| store := store w; promises := ps; aggregates := aggregates w;
     inflight := inflight w; ticks := ticks w; trace := trace w; now := now w;
     randoms := randoms w |}.

Definition with_aggregates (js : list aggregate) (w : world) : world :=
  {| store := store w; promises := promises w; aggregates := js;
     inflight := inflight w; ticks := ticks w; trace := trace w; now := now w;
     randoms := randoms w |}.

Definition with_inflight (fl : list (sns_request * callback)) (w : world) : world :=
  {| store := store w; promises := promises w; aggregates := aggregates w;
     inflight := fl; ticks := ticks w; trace := trace w; now := now w;
     randoms := randoms w |}.

Definition with_ticks (ts : list tick) (w : world) : world :=
  {| store := store w; promises := promises w; aggregates := aggregates w;
     inflight := inflight w; ticks := ts; trace := trace w; now := now w;
     randoms := randoms w |}.

Definition with_trace (t : list sns_request) (w : world) : world :=
  {| store := store w; promises := promises w; aggregates := aggregates w;
     inflight := inflight w; ticks := ticks w; trace := t; now := now w;
     randoms := randoms w |}.

Definition with_randoms (n : nat) (w : world) : world :=
  {| store := store w; promises := promises w; aggregates := aggregates w;
     inflight := inflight w; ticks := ticks w; trace := trace w; now := now w;
     randoms := n |}.

(** ** The monad of synchronous code *)

Inductive result (A : Type) :=
| Ok (a : A) (w : world)
| Throw (e : exn) (w : world).
Arguments Ok {A} a w.
Arguments Throw {A} e w.

Definition M (A : Type) : Type := world -> result A.

Definition ret {A} (a : A) : M A := fun w => Ok a w.

Definition bind {A B} (m : M A) (k : A -> M B) : M B :=
  fun w => match m w with
           | Ok a w' => k a w'
           | Throw e w' => Throw e w'
           end.

Definition throw {A} (e : exn) : M A := fun w => Throw e w.

(** [try { m } catch (e) { handler }]. *)
Definition try_catch {A} (m : M A) (handler : exn -> M A) : M A :=
  fun w => match m w with
           | Ok a w' => Ok a w'
           | Throw e w' => handler e w'
           end.

Notation "'let*' x ':=' m 'in' k" := (bind m (fun x => k))
  (at level 10, x binder, k at level 200).

Definition get {A} (f : world -> A) : M A := fun w => Ok (f w) w.
Definition modify (f : world -> world) : M unit := fun w => Ok tt (f w).

(** [xs.map(f)], left to right. *)
Fixpoint mapM {A B} (f : A -> M B) (xs : list A) : M (list B) :=
  match xs with
  | [] => ret []
  | x :: xs' => let* y := f x in let* ys := mapM f xs' in ret (y :: ys)
  end.

(** [xs.forEach(f)]: the values [f] returns are dropped. *)
Fixpoint forEach {A B} (f : A -> M B) (xs : list A) : M unit :=
  match xs with
  | [] => ret tt
  | x :: xs' => let* _ := f x in forEach f xs'
  end.

(** [for (let [i, x] of xs.entries())] from index [i]. *)
Fixpoint forEach_from {A B} (f : nat -> A -> M B) (i : nat) (xs : list A) : M unit :=
  match xs with
  | [] => ret tt
  | x :: xs' => let* _ := f i x in forEach_from f (S i) xs'
  end.

(** ** Parse.Promise

    The promise class of the Parse SDK in its default mode, which follows
    Promises/A+: [resolve] and [reject] run the callbacks registered on a
    pending promise before they return; [then] on a promise that is already
    settled hands its callback to [process.nextTick]; an exception that a
    callback of [then] throws is caught and rejects the promise that [then]
    returned; settling a promise twice throws; and [when] settles once
    every object it was given has settled, rejecting with the array of
    errors if one of them was rejected. *)

Definition get_promise (p : nat) : M promise := fun w =>
  match promises w !! p with
  | Some c => Ok c w
  | None => Throw (PromiseError "no such promise") w
  end.

Definition put_promise (p : nat) (c : promise) : M unit :=
  modify (fun w => with_promises (<[p := c]> (promises w)) w).

Definition get_aggregate (j : nat) : M aggregate := fun w =>
  match aggregates w !! j with
  | Some a => Ok a w
  | None => Throw (PromiseError "no such promise") w
  end.

Definition put_aggregate (j : nat) (a : aggregate) : M unit :=
  modify (fun w => with_aggregates (<[j := a]> (aggregates w)) w).

(** [new Parse.Promise()], before the executor runs. *)
Definition new_promise : M nat := fun w =>
  Ok (length (promises w))
     (with_promises (promises w ++ [{| state := Pending; callbacks := [] |}]) w).

(** [process.nextTick(fn)]: the callback joins the queue. *)
Definition defer (t : tick) : M unit :=
  modify (fun w => with_ticks (ticks w ++ [t]) w).

(** A method of [this.sns] called with [params] and a callback: the request
    leaves, the callback runs in a later turn. *)
Definition sns_call (req : sns_request) (cb : callback) : M unit :=
  modify (fun w => with_trace (trace w ++ [req])
                     (with_inflight (inflight w ++ [(req, cb)]) w)).

Definition already_settled : exn :=
  PromiseError "A promise was resolved even though it had already been settled".

(** Assignments to the fields of an aggregate. *)
Definition set_total (n : Z) (a : aggregate) : aggregate :=
  {| arrayArgument := arrayArgument a; total := n; hadError := hadError a;
     results := results a; errors := errors a; when_promise := when_promise a;
     then_callback := then_callback a; then_promise := then_promise a |}.

Definition set_result (index : nat) (v : value) (a : aggregate) : aggregate :=
  {| arrayArgument := arrayArgument a; total := total a; hadError := hadError a;
     results := <[index := v]> (results a); errors := errors a;
     when_promise := when_promise a;
     then_callback := then_callback a; then_promise := then_promise a |}.

Definition set_error (index : nat) (v : value) (a : aggregate) : aggregate :=
  {| arrayArgument := arrayArgument a; total := total a; hadError := true;
     results := results a; errors := <[index := v]> (errors a);
     when_promise := when_promise a;
     then_callback := then_callback a; then_promise := then_promise a |}.

Definition set_when_promise (s : pstate) (a : aggregate) : aggregate :=
  {| arrayArgument := arrayArgument a; total := total a; hadError := hadError a;
     results := results a; errors := errors a; when_promise := s;
     then_callback := then_callback a; then_promise := then_promise a |}.

Definition set_then_callback (payload : json) (a : aggregate) : aggregate :=
  {| arrayArgument := arrayArgument a; total := total a; hadError := hadError a;
     results := results a; errors := errors a; when_promise := when_promise a;
     then_callback := Some payload; then_promise := then_promise a |}.

Definition set_then_promise (s : pstate) (a : aggregate) : aggregate :=
  {| arrayArgument := arrayArgument a; total := total a; hadError := hadError a;
     results := results a; errors := errors a; when_promise := when_promise a;
     then_callback := then_callback a; then_promise := s |}.

(** The promise [then] returned settles; nothing is registered on it. *)
Definition settle_then (j : nat) (s : pstate) : M unit :=
  let* a := get_aggregate j in
  match then_promise a with
  | Pending => put_aggregate j (set_then_promise s a)
  | _ => throw already_settled
  end.

(** ** Publishing *)

Definition token (device : installation) : M string :=
  match deviceToken device with
  | Some t => ret t
  | None => throw (TypeError "Cannot read property 'startsWith' of undefined")
  end.

(** [SNSPushAdapter.prototype.sendSNSPayload]: the synchronous part. *)
Definition sendSNSPayload `{PushLib} (arn : option string) (payload : json)
    (device : installation) : M nat :=
  let object :=
    {| Message := JSON_stringify payload;
       MessageStructure := "json";
       TargetArn := arn;
       TopicArn := None |} in
  let* deviceToken := token device in
  let object :=
    if startsWith deviceToken "arn" then
      {| Message := Message object;
         MessageStructure := MessageStructure object;
         TargetArn := None;
         TopicArn := Some deviceToken |}
    else object in
  let* p := new_promise in
  let response :=
    {| device := {| rd_deviceType := deviceType device;
                    rd_deviceToken := deviceToken |};
       transmitted := None;
       response_ := NotSet |} in
  if truthy (TopicArn object) then
    let* _ := sns_call (publish object) (publish_cb p response) in
    ret p
  else
    let params_Enabled := "true" in
    let params_EndpointArn := arn in
    let* _ := sns_call (setEndpointAttributes params_Enabled params_EndpointArn)
                (setEndpointAttributes_cb p object response) in
    ret p.

(** The callback of [then] in [sendToSNS]:
    [exchangeResponses => { exchangeResponses.map(...) }].  It returns
    undefined: the promises of [sendSNSPayload] stay in the array that [map]
    built and that nobody keeps. *)
Definition publish_all `{PushLib} (payload : json) (exchangeResponses : value) : M unit :=
  match exchangeResponses with
  | VArray l =>
      let* _ := mapM (fun exchangeResponse =>
                        match exchangeResponse with
                        | VExchange device arn => sendSNSPayload arn payload device
                        | _ => throw (TypeError "Cannot read property 'arn'")
                        end) l in
      ret tt
  | _ => throw (TypeError "exchangeResponses.map is not a function")
  end.

(** What [then] wrapped around the callback: on resolution run it and resolve
    the promise of [then] with what it returned, undefined; if it threw, the
    error becomes a rejected promise, and [then] on that promise defers the
    rejection of the promise of [then]; on rejection, no rejected callback
    was given, so reject the promise of [then] with the error. *)
Definition run_then `{PushLib} (j : nat) (payload : json) (s : pstate) : M unit :=
  match s with
  | Resolved v =>
      let* thrown := try_catch (let* _ := publish_all payload v in ret None)
                               (fun e => ret (Some e)) in
      match thrown with
      | None => settle_then j (Resolved VUndefined)
      | Some e => defer (reject_then_tick j (VExn e))
      end
  | Rejected e => settle_then j (Rejected e)
  | Pending => ret tt
  end.

(** The promise [when] returned settles and runs what [then] registered. *)
Definition settle_when `{PushLib} (j : nat) (s : pstate) : M unit :=
  let* a := get_aggregate j in
  match when_promise a with
  | Pending =>
      let* _ := put_aggregate j (set_when_promise s a) in
      match then_callback a with
      | Some payload => run_then j payload s
      | None => ret tt
      end
  | _ => throw already_settled
  end.

(** [promise.resolve.apply(promise, returnValue)]: the array of results when
    [when] was given an array, else the results as separate arguments, of
    which the first is kept. *)
Definition returnValue (a : aggregate) : value :=
  if arrayArgument a then VArray (results a)
  else hd VUndefined (results a).

(** [resolveOne] in [when]. *)
Definition resolveOne `{PushLib} (j : nat) : M unit :=
  let* a := get_aggregate j in
  let a := set_total (total a - 1) a in
  let* _ := put_aggregate j a in
  if total a <=? 0 then
    if hadError a then settle_when j (Rejected (VArray (errors a)))
    else settle_when j (Resolved (returnValue a))
  else ret tt.

(** The two callbacks that [chain] in [when] gives to [object.then], as one
    function of the state the object settled with, as [then] wrapped them:
    an exception is caught, and rejects the promise that [object.then]
    returned, which nobody keeps. *)
Definition notify `{PushLib} (s : pstate) (target : nat * nat) : M unit :=
  let '(j, index) := target in
  match s with
  | Resolved result =>
      try_catch (let* a := get_aggregate j in
                 let* _ := put_aggregate j (set_result index result a) in
                 resolveOne j)
                (fun _ => ret tt)
  | Rejected error =>
      try_catch (let* a := get_aggregate j in
                 let* _ := put_aggregate j (set_error index error a) in
                 resolveOne j)
                (fun _ => ret tt)
  | Pending => ret tt
  end.

(** [resolve] and [reject] of a promise made with [new Parse.Promise]. *)
Definition settle `{PushLib} (p : nat) (s : pstate) : M unit :=
  let* c := get_promise p in
  match state c with
  | Pending =>
      let* _ := put_promise p {| state := s; callbacks := callbacks c |} in
      forEach (notify s) (callbacks c)
  | _ => throw already_settled
  end.

Definition resolve `{PushLib} (p : nat) (v : value) : M unit := settle p (Resolved v).
Definition reject `{PushLib} (p : nat) (v : value) : M unit := settle p (Rejected v).

(** [chain(object, index)] in [when]: [object.then] registers the callbacks
    on a pending promise and defers them on a settled one. *)
Definition chain `{PushLib} (j : nat) (index : nat) (object : value) : M unit :=
  match object with
  | VPromise p =>
      let* c := get_promise p in
      match state c with
      | Pending =>
          put_promise p {| state := Pending; callbacks := callbacks c ++ [(j, index)] |}
      | s => defer (chain_tick s (j, index))
      end
  | _ =>
      let* a := get_aggregate j in
      let* _ := put_aggregate j (set_result index object a) in
      resolveOne j
  end.

(** [Parse.Promise.when(promises)]; the number of the aggregate stands for
    the promise it returns. *)
Definition Parse_Promise_when `{PushLib} (promises : value) : M nat :=
  let arrayArgument := match promises with VArray _ => true | _ => false end in
  let objects := match promises with VArray l => l | v => [v] end in
  let n := length objects in
  let* j := get (fun w => length (aggregates w)) in
  let a :=
    {| arrayArgument := arrayArgument;
       total := Z.of_nat n;
       hadError := false;
       results := replicate n VUndefined;
       errors := replicate n VUndefined;
       when_promise := Pending;
       then_callback := None;
       then_promise := Pending |} in
  if (n =? 0)%nat then
    let* _ := modify (fun w => with_aggregates
                (aggregates w ++ [set_when_promise (Resolved (returnValue a)) a]) w) in
    ret j
  else
    let* _ := modify (fun w => with_aggregates (aggregates w ++ [a]) w) in
    let* _ := forEach_from (chain j) 0 objects in
    ret j.

(** [.then(cb)] on the promise of aggregate [j], with the callback of
    [sendToSNS] that captured [payload]: registered when the promise is
    pending, deferred when it is settled. *)
Definition then_publish_all `{PushLib} (j : nat) (payload : json) : M promise_ref :=
  let* a := get_aggregate j in
  match when_promise a with
  | Pending =>
      let* _ := put_aggregate j (set_then_callback payload a) in
      ret (ThenOf j)
  | s =>
      let* _ := defer (then_tick j payload s) in
      ret (ThenOf j)
  end.

(** The callback of [this.sns.publish], in both places it is written. *)
Definition publish_callback `{PushLib} (p : nat) (r : response)
    (err : option sns_error) (data : option sns_data) : M unit :=
  match err with
  | Some e =>
      let r := {| device := device r; transmitted := Some false;
                  response_ := response_ r |} in
      let r := if truthy (stack e)
               then {| device := device r; transmitted := transmitted r;
                       response_ := Stack (default EmptyString (stack e)) |}
               else r in
      reject p (VResponse r)
  | None =>
      resolve p (VResponse {| device := device r; transmitted := Some true;
                              response_ := Data data |})
  end.

(** The callback of [this.sns.setEndpointAttributes]. *)
Definition setEndpointAttributes_callback `{PushLib} (p : nat)
    (object : publish_params) (r : response)
    (err : option sns_error) (data : option sns_data) : M unit :=
  match err with
  | Some e =>
      let r := {| device := device r; transmitted := Some false;
                  response_ := response_ r |} in
      let r := if truthy (stack e)
               then {| device := device r; transmitted := transmitted r;
                       response_ := Stack (default EmptyString (stack e)) |}
               else r in
      reject p (VResponse r)
  | None =>
      match data with
      | Some _ => sns_call (publish object) (publish_cb p r)
      | None => ret tt
      end
  end.

(** ** Token exchange *)

(** [SNSPushAdapter.prototype.getPlatformArn]. *)
Definition getPlatformArn (device_token : string) (arn : option string)
    (cb : callback) : M unit :=
  sns_call (createPlatformEndpoint arn device_token) cb.

(** [SNSPushAdapter.prototype.exchangeTokenPromise]: the synchronous part. *)
Definition exchangeTokenPromise `{PushLib} (device : installation)
    (platformARN : option string) : M nat :=
  let* p := new_promise in
  let* deviceToken := token device in
  if startsWith deviceToken "arn" then
    let* _ := resolve p (VExchange device (topicArn device)) in
    ret p
  else
    let* _ := getPlatformArn deviceToken platformARN
                (createPlatformEndpoint_cb p device) in
    ret p.

(** The callback that [exchangeTokenPromise] gives to [getPlatformArn]. *)
Definition createPlatformEndpoint_callback `{PushLib} (p : nat)
    (device : installation)
    (err : option sns_error) (data : option sns_data) : M unit :=
  match data with
  | Some d =>
      if truthy (EndpointArn d) then resolve p (VExchange device (EndpointArn d))
      else reject p (VErr err)
  | None => reject p (VErr err)
  end.

(** [SNSPushAdapter.prototype.sendToSNS]. *)
Definition sendToSNS `{PushLib} (payload : json) (devices : list installation)
    (platformArn : option string) : M promise_ref :=
  let* exchangePromises :=
    mapM (fun device => exchangeTokenPromise device platformArn) devices in
  let* j := Parse_Promise_when (VArray (map VPromise exchangePromises)) in
  let* promises := then_publish_all j payload in
  ret promises.

(** ** Senders *)

(** [utils.randomString(size)] and [Date.now()]. *)
Definition randomString `{PushLib} (size : nat) : M string := fun w =>
  Ok (utils_randomString (randoms w) size) (with_randoms (S (randoms w)) w).

Definition Date_now : M Z := get now.

(** [SNSPushAdapter.generateAndroidPayload]. *)
Definition generateAndroidPayload `{PushLib} (d : push_data)
    (pushId : option string) (timeStamp : option Z) : M json :=
  let* pushId := if truthy pushId then ret (default EmptyString pushId) else randomString 10 in
  let* timeStamp := if truthy_num timeStamp then ret (default 0 timeStamp) else Date_now in
  let payload := GCM_generateGCMPayload (data d) pushId timeStamp (expirationTime d) in
  let payload := obj_set "default" (JStr "sns") payload in
  ret (JObj [("GCM", JStr (JSON_stringify (JObj payload)))]).

(** [this.snsConfig[key]]. *)
Definition config_of (a : adapter) (key : string) : M (option push_type_config) :=
  match snsConfig a with
  | Some cfg => ret (obj_get key cfg)
  | None => throw (TypeError "Cannot read property of undefined")
  end.

(** [SNSPushAdapter.prototype.sendToGCM]. *)
Definition sendToGCM `{PushLib} (a : adapter) (d : push_data)
    (devices : list installation) : M promise_ref :=
  let* payload := generateAndroidPayload d None None in
  let* pushConfig := config_of a "android" in
  match pushConfig with
  | Some (OneConfig c) => sendToSNS payload devices (ARN c)
  | Some (ConfigArray _) => sendToSNS payload devices None
  | None => throw (TypeError "Cannot read property 'ARN' of undefined")
  end.

(** The loop [for (let iosConfig of iosConfigs)] of [sendToAPNS]. *)
Fixpoint sendToAPNS_loop `{PushLib} (d : push_data) (devices : list installation)
    (iosConfigs : list (option platform_config)) (promises : list promise_ref)
  : M (list promise_ref) :=
  match iosConfigs with
  | [] => ret promises
  | None :: _ => throw (TypeError "Cannot read property 'production' of undefined")
  | Some iosConfig :: rest =>
      let production := production iosConfig || false in
      let payload := generateiOSPayload d production in
      let deviceSends := deviceSends iosConfig devices in
      let* promises :=
        if (0 <? length deviceSends)%nat then
          let* p := sendToSNS payload deviceSends (ARN iosConfig) in
          ret (promises ++ [p])
        else ret promises in
      sendToAPNS_loop d devices rest promises
  end.

(** [SNSPushAdapter.prototype.sendToAPNS]. *)
Definition sendToAPNS `{PushLib} (a : adapter) (d : push_data)
    (devices : list installation) : M (list promise_ref) :=
  let* iosPushConfig := config_of a "ios" in
  let iosConfigs :=
    match iosPushConfig with
    | Some (ConfigArray l) => map Some l
    | Some (OneConfig c) => [Some c]
    | None => [None]
    end in
  sendToAPNS_loop d devices iosConfigs [].

(** ** send *)

(** The [installations] argument of [send]: references to installation
    objects of the store, and the array under its property [arn] when it has
    one. *)
Record installations_arg := {
  items : list nat;
  arn : option (list nat)
}.

(** [installation.deviceToken = installation.topicArn]. *)
Definition token_from_topic (i : installation) : installation :=
  {| deviceType := deviceType i; deviceToken := topicArn i;
     appIdentifier := appIdentifier i; topicArn := topicArn i |}.

(** The callback of [forEach] in [send]. *)
Definition dispatch `{PushLib} (a : adapter) (d : push_data)
    (entry : string * list installation) : M unit :=
  let '(pushType, devices) := entry in
  match obj_get pushType (senderMap a) with
  | Some sendToAPNS_bound => let* _ := sendToAPNS a d devices in ret tt
  | Some sendToGCM_bound => let* _ := sendToGCM a d devices in ret tt
  | None => throw (TypeError "sender is not a function")
  end.

(** [SNSPushAdapter.prototype.send].  [forEach] returns undefined, and that
    is what [sendPromises] holds. *)
Definition send `{PushLib} (a : adapter) (d : push_data)
    (installations : installations_arg) : M promise_ref :=
  let* installations :=
    match arn installations with
    | Some l =>
        let* _ := forEach (fun loc =>
                    modify (fun w => with_store (alter token_from_topic loc (store w)) w)) l in
        ret l
    | None => ret (items installations)
    end in
  let* objects := get (fun w => omap (fun loc => store w !! loc) installations) in
  let deviceMap := classifyInstallations objects (availablePushTypes a) in
  let* _ := forEach (dispatch a d) deviceMap in
  let sendPromises := VUndefined in
  let* j := Parse_Promise_when sendPromises in
  ret (WhenOf j).

(** ** The SNS client answers *)

Definition run_callback `{PushLib} (cb : callback)
    (err : option sns_error) (data : option sns_data) : M unit :=
  match cb with
  | createPlatformEndpoint_cb p device => createPlatformEndpoint_callback p device err data
  | setEndpointAttributes_cb p object r => setEndpointAttributes_callback p object r err data
  | publish_cb p r => publish_callback p r err data
  end.

(** The request at position [n] of those in flight completes with [err] and
    [data]. *)
Definition deliver `{PushLib} (n : nat) (err : option sns_error)
    (data : option sns_data) : M unit := fun w =>
  match inflight w !! n with
  | Some (_, cb) => run_callback cb err data (with_inflight (delete n (inflight w)) w)
  | None => Throw (PromiseError "no such request") w
  end.

(** The aggregate a deferred callback works on. *)
Definition tick_target (t : tick) : nat :=
  match t with
  | chain_tick _ target => target.1
  | then_tick j _ _ => j
  | reject_then_tick j _ => j
  end.

(** What a deferred callback does when its turn comes. *)
Definition run_tick `{PushLib} (t : tick) : M unit :=
  match t with
  | chain_tick s target => notify s target
  | then_tick j payload s => run_then j payload s
  | reject_then_tick j error => settle_then j (Rejected error)
  end.

(** The first callback of the [process.nextTick] queue runs. *)
Definition next_tick `{PushLib} : M unit := fun w =>
  match ticks w with
  | t :: rest => run_tick t (with_ticks rest w)
  | [] => Throw (PromiseError "no deferred callback") w
  end.

(** One turn of the event loop: a request in flight completes and its
    callback returns, or the first deferred callback runs and returns. *)
Inductive step `{PushLib} : world -> world -> Prop :=
| step_deliver n err data w w' :
    deliver n err data w = Ok tt w' -> step w w'
| step_tick w w' :
    next_tick w = Ok tt w' -> step w w'.

(** Any number of turns. *)
Inductive steps `{PushLib} : world -> world -> Prop :=
| steps_refl w : steps w w
| steps_step w1 w2 w3 : steps w1 w2 -> step w2 w3 -> steps w1 w3.

(** The state of the promise behind a reference. *)
Definition promise_state (w : world) (r : promise_ref) : option pstate :=
  match r with
  | Made p => state <$> promises w !! p
  | WhenOf j => when_promise <$> aggregates w !! j
  | ThenOf j => then_promise <$> aggregates w !! j
  end.

(** ** A reference instance of the library

    A small JSON printer and parser, a GCM and an APNS payload builder and a
    deterministic source of random strings, to run the adapter on examples. *)

Module Reference.

Definition dquote : ascii := "034"%char.
Definition backslash : ascii := "092"%char.

Fixpoint quote_body (s : string) : string :=
  match s with
  | EmptyString => String dquote EmptyString
  | String c rest =>
      if (Ascii.eqb c dquote || Ascii.eqb c backslash)%bool
      then String backslash (String c (quote_body rest))
      else String c (quote_body rest)
  end.

Definition quote (s : string) : string := String dquote (quote_body s).

Fixpoint stringify (j : json) : string :=
  match j with
  | JNull => "null"
  | JBool true => "true"
  | JBool false => "false"
  | JNum n => NilZero.string_of_int (Z.to_int n)
  | JStr s => quote s
  | JArr l => "[" +:+ String.concat "," (map stringify l) +:+ "]"
  | JObj fs =>
      "{" +:+ String.concat ","
                (map (fun kv => quote (fst kv) +:+ ":" +:+ stringify (snd kv)) fs)
          +:+ "}"
  end.

(** The text after an opening quote: the string it holds and what follows
    the closing quote. *)
Fixpoint unquote_body (s : string) : option (string * string) :=
  match s with
  | EmptyString => None
  | String c rest =>
      if Ascii.eqb c dquote then Some (EmptyString, rest)
      else if Ascii.eqb c backslash then
        match rest with
        | String c' rest' =>
            match unquote_body rest' with
            | Some (body, tl) => Some (String c' body, tl)
            | None => None
            end
        | EmptyString => None
        end
      else
        match unquote_body rest with
        | Some (body, tl) => Some (String c body, tl)
        | None => None
        end
  end.

Definition is_digit (c : ascii) : bool :=
  Ascii.eqb c "-" || ((48 <=? nat_of_ascii c)%nat && (nat_of_ascii c <=? 57)%nat).

Fixpoint span_digits (s : string) : string * string :=
  match s with
  | String c rest =>
      if is_digit c then let '(d, tl) := span_digits rest in (String c d, tl)
      else (EmptyString, s)
  | EmptyString => (EmptyString, EmptyString)
  end.

Definition parse_number (s : string) : option (json * string) :=
  let '(d, tl) := span_digits s in
  match NilZero.int_of_string d with
  | Some n => Some (JNum (Z.of_int n), tl)
  | None => None
  end.

Fixpoint parse_value (fuel : nat) (s : string) : option (json * string) :=
  match fuel with
  | O => None
  | S fuel =>
      let parse_items :=
        fix parse_items (n : nat) (s : string) : option (list json * string) :=
          match n with
          | O => None
          | S n =>
              match parse_value fuel s with
              | Some (v, String "," tl) =>
                  match parse_items n tl with
                  | Some (vs, tl') => Some (v :: vs, tl')
                  | None => None
                  end
              | Some (v, String "]" tl) => Some ([v], tl)
              | _ => None
              end
          end in
      let parse_fields :=
        fix parse_fields (n : nat) (s : string)
          : option (list (string * json) * string) :=
          match n with
          | O => None
          | S n =>
              match s with
              | String q tl =>
                  if Ascii.eqb q dquote then
                    match unquote_body tl with
                    | Some (k, String ":" tl) =>
                        match parse_value fuel tl with
                        | Some (v, String "," tl) =>
                            match parse_fields n tl with
                            | Some (fs, tl') => Some ((k, v) :: fs, tl')
                            | None => None
                            end
                        | Some (v, String "}" tl) => Some ([(k, v)], tl)
                        | _ => None
                        end
                    | _ => None
                    end
                  else None
              | EmptyString => None
              end
          end in
      match s with
      | String "n" (String "u" (String "l" (String "l" tl))) => Some (JNull, tl)
      | String "t" (String "r" (String "u" (String "e" tl))) => Some (JBool true, tl)
      | String "f" (String "a" (String "l" (String "s" (String "e" tl)))) =>
          Some (JBool false, tl)
      | String "[" (String "]" tl) => Some (JArr [], tl)
      | String "[" tl =>
          match parse_items (String.length s) tl with
          | Some (vs, tl') => Some (JArr vs, tl')
          | None => None
          end
      | String "{" (String "}" tl) => Some (JObj [], tl)
      | String "{" tl =>
          match parse_fields (String.length s) tl with
          | Some (fs, tl') => Some (JObj fs, tl')
          | None => None
          end
      | String c tl =>
          if Ascii.eqb c dquote then
            match unquote_body tl with
            | Some (body, tl') => Some (JStr body, tl')
            | None => None
            end
          else parse_number s
      | EmptyString => None
      end
  end.

Definition parse (s : string) : option json :=
  match parse_value (S (String.length s)) s with
  | Some (j, EmptyString) => Some j
  | _ => None
  end.

(** The [i]-th character of the [n]-th random string: a lower-case letter. *)
Definition random_char (n i : nat) : ascii :=
  ascii_of_nat (97 + (7 * n + 3 * i) mod 26).

Definition random_string (n size : nat) : string :=
  String.string_of_list_ascii (map (random_char n) (seq 0 size)).

Definition gcm_payload (d : json) (pushId : string) (timeStamp : Z)
    (expirationTime : option Z) : list (string * json) :=
  let payload :=
    [("priority", JStr "normal");
     ("data", JObj [("time", JNum timeStamp); ("push_id", JStr pushId); ("data", d)])] in
  if truthy_num expirationTime then
    obj_set "time_to_live"
      (JNum (Z.max 0 ((default 0 expirationTime - timeStamp) / 1000))) payload
  else payload.

Definition apns_compile (d : json) (expirationTime : option Z) : json :=
  JObj [("aps", d);
        ("expiry", match expirationTime with Some e => JNum (e / 1000) | None => JNum 0 end)].

Lemma random_string_length (n size : nat) :
  String.length (random_string n size) = size.
Proof.
  unfold random_string.
  assert (L : forall l, String.length (String.string_of_list_ascii l) = length l).
  { induction l as [|c l IH]; simpl; [reflexivity | now rewrite IH]. }
  rewrite L, length_map, length_seq. reflexivity.
Qed.

Definition lib : PushLib :=
  {| APNS_compile := apns_compile;
     GCM_generateGCMPayload := gcm_payload;
     utils_randomString := random_string;
     utils_randomString_length := random_string_length;
     JSON_stringify := stringify;
     JSON_parse := parse |}.

End Reference.

(** * Notions used in the statements *)

(** ** Example inputs *)

(** The iOS bundle configuration and the Android configuration of the
    end-to-end scenario. *)
Definition com_a : platform_config :=
  {| production := true; bundleId := Some "com.a";
     ARN := Some "arn:aws:sns:us-east-1:1:app/APNS/a" |}.

Definition gcm_a : platform_config :=
  {| production := false; bundleId := None;
     ARN := Some "arn:aws:sns:us-east-1:1:app/GCM/a" |}.

Definition scenario_config : push_config :=
  {| accessKey := Some "key"; secretKey := Some "secret"; region := None;
     pushTypes := Some [("ios", OneConfig com_a); ("android", OneConfig gcm_a)] |}.

(** The adapter that [SNSPushAdapter scenario_config] constructs. *)
Definition scenario_adapter : adapter :=
  {| validPushTypes := ["ios"; "android"];
     availablePushTypes := ["ios"; "android"];
     snsConfig := pushTypes scenario_config;
     senderMap := [("ios", sendToAPNS_bound); ("android", sendToGCM_bound)];
     aws := {| accessKeyId := Some "key"; secretAccessKey := Some "secret";
               aws_region := "us-east-1" |} |}.

(** A configuration without AWS keys that asks for a platform the adapter
    does not know, and one with keys. *)
Definition keyless_config : push_config :=
  {| accessKey := None; secretKey := None; region := None;
     pushTypes := Some [("windows",
                         OneConfig {| production := false; bundleId := None;
                                      ARN := None |})] |}.

Definition windows_config : push_config :=
  {| accessKey := Some "key"; secretKey := Some "secret"; region := None;
     pushTypes := Some [("ios", OneConfig com_a);
                        ("windows",
                         OneConfig {| production := false; bundleId := None;
                                      ARN := None |})] |}.

(** The devices of the scenario: two iOS devices, one of the bundle com.a
    and one without appIdentifier, and an Android device. *)
Definition ios_with_bundle : installation :=
  {| deviceType := Some "ios"; deviceToken := Some "a1b2c3";
     appIdentifier := Some "com.a"; topicArn := None |}.

Definition ios_without_bundle : installation :=
  {| deviceType := Some "ios"; deviceToken := Some "d4e5f6";
     appIdentifier := None; topicArn := None |}.

Definition android_tablet : installation :=
  {| deviceType := Some "android"; deviceToken := Some "j0k1l2";
     appIdentifier := None; topicArn := None |}.

Definition android_device : installation :=
  {| deviceType := Some "android"; deviceToken := Some "g7h8i9";
     appIdentifier := None; topicArn := None |}.

(** A device whose deviceToken is a topic handle, and a device that has
    a raw token and a topic handle. *)
Definition topic_device : installation :=
  {| deviceType := Some "ios"; deviceToken := Some "arn:aws:sns:us-east-1:1:news";
     appIdentifier := None; topicArn := Some "arn:aws:sns:us-east-1:1:news" |}.

Definition subscriber : installation :=
  {| deviceType := Some "ios"; deviceToken := Some "a1b2c3";
     appIdentifier := None; topicArn := Some "arn:aws:sns:us-east-1:1:news" |}.

Definition greeting : push_data :=
  {| data := JObj [("alert", JStr "hello")]; expirationTime := Some 5000 |}.

Definition endpoint_1 : option string :=
  Some "arn:aws:sns:us-east-1:1:endpoint/APNS/a/1".

(** What the SNS client answers to a request it accepts. *)
Definition accepted : sns_data :=
  {| EndpointArn := Some "arn:aws:sns:us-east-1:1:endpoint/a/1";
     MessageId := Some "m-1" |}.

Definition scenario_world : world :=
  with_store [ios_with_bundle; ios_without_bundle; android_device] empty_world.

Definition scenario_installations : installations_arg :=
  {| items := [0; 1; 2]%nat; arn := None |}.

(** The first request in flight completes without error, [n] times. *)
Fixpoint answer_first `{PushLib} (n : nat) (data : sns_data) (w : world) : result unit :=
  match n with
  | O => Ok tt w
  | S n =>
      match deliver 0 None (Some data) w with
      | Ok _ w' => answer_first n data w'
      | Throw e w' => Throw e w'
      end
  end.

(** ** Observations *)

(** The world a computation ends in. *)
Definition world_of {A} (r : result A) : world :=
  match r with
  | Ok _ w => w
  | Throw _ w => w
  end.

(** The promise a callback settles. *)
Definition cb_promise (cb : callback) : nat :=
  match cb with
  | createPlatformEndpoint_cb p _ => p
  | setEndpointAttributes_cb p _ _ => p
  | publish_cb p _ => p
  end.

(** The responses that the settled promises of [sendSNSPayload] hold. *)
Definition outcomes (w : world) : list response :=
  omap (fun c => match state c with
                 | Resolved (VResponse r) => Some r
                 | Rejected (VResponse r) => Some r
                 | _ => None
                 end) (promises w).

Definition is_pending (s : pstate) : bool :=
  match s with Pending => true | _ => false end.

Definition is_rejected (s : pstate) : bool :=
  match s with Rejected _ => true | _ => false end.

(** The error the loop of the constructor throws. *)
Definition unsupported_message (all : list string) : parse_error :=
  {| code := PUSH_MISCONFIGURED;
     message := "Push to " +:+ array_toString all +:+ " is not supported" |}.

(** ** Example answers and worlds *)

(** An error of the SNS client. *)
Definition refused : sns_error :=
  {| err_message := "InvalidParameter"; stack := None |}.

(** The world in which the exchange requests of the two iOS devices are in
    flight. *)
Definition busy_world : world :=
  world_of (@sendToSNS Reference.lib (JObj []) [ios_with_bundle; ios_without_bundle]
              (Some "arn:aws:sns:us-east-1:1:app/APNS/a") empty_world).

(** ** Computations that keep a property *)

(** [m] keeps the property [Inv] of the world, whether it returns or throws. *)
Definition maintains {A} (Inv : world -> Prop) (m : M A) : Prop :=
  forall w, Inv w -> Inv (world_of (m w)).

(** The same, with a property [Q] of the value returned. *)
Definition maintains_with {A} (Inv : world -> Prop) (Q : A -> Prop) (m : M A) : Prop :=
  forall w, Inv w ->
    match m w with
    | Ok a w' => Inv w' /\ Q a
    | Throw _ w' => Inv w'
    end.

(** ** One send *)

(** A promise as [new Parse.Promise] makes it. *)
Definition pending_cell : promise := {| state := Pending; callbacks := [] |}.

(** The request object of [sendSNSPayload] for an endpoint and for a topic. *)
Definition endpoint_object `{PushLib} (payload : json) (arn : option string)
  : publish_params :=
  {| Message := JSON_stringify payload; MessageStructure := "json";
     TargetArn := arn; TopicArn := None |}.

Definition topic_object `{PushLib} (payload : json) (tok : string) : publish_params :=
  {| Message := JSON_stringify payload; MessageStructure := "json";
     TargetArn := None; TopicArn := Some tok |}.

(** The [response] object as [sendSNSPayload] creates it. *)
Definition fresh_response (device : installation) (tok : string) : response :=
  {| device := {| rd_deviceType := deviceType device; rd_deviceToken := tok |};
     transmitted := None;
     response_ := NotSet |}.

(** The world once [req] has been handed to the SNS client with a callback
    on a promise that was just made. *)
Definition requested (req : sns_request) (cb : callback) (w : world) : world :=
  with_trace (trace w ++ [req])
    (with_inflight (inflight w ++ [(req, cb)])
       (with_promises (promises w ++ [pending_cell]) w)).

(** Promise [p] is pending and no request in flight carries a callback on it. *)
Definition unanswered (p : nat) (w : world) : Prop :=
  state <$> promises w !! p = Some Pending
  /\ Forall (fun e => cb_promise e.2 <> p) (inflight w).

(** Promise [p] is pending and the one request in flight with a callback on
    it is the setEndpointAttributes request of its send. *)
Definition awaiting_enable (p : nat) (w : world) : Prop :=
  state <$> promises w !! p = Some Pending
  /\ exists before after req object r,
       inflight w = before ++ (req, setEndpointAttributes_cb p object r) :: after
       /\ Forall (fun e => cb_promise e.2 <> p) before
       /\ Forall (fun e => cb_promise e.2 <> p) after.

(** Turns of the event loop that complete requests of other promises, or
    run a deferred callback. *)
Inductive steps_elsewhere `{PushLib} (p : nat) : world -> world -> Prop :=
| elsewhere_refl w : steps_elsewhere p w w
| elsewhere_step w1 w2 w3 n err data req cb :
    steps_elsewhere p w1 w2 ->
    inflight w2 !! n = Some (req, cb) ->
    cb_promise cb <> p ->
    deliver n err data w2 = Ok tt w3 ->
    steps_elsewhere p w1 w3
| elsewhere_tick w1 w2 w3 :
    steps_elsewhere p w1 w2 ->
    next_tick w2 = Ok tt w3 ->
    steps_elsewhere p w1 w3.

(** Promise [q] is settled with [s]. *)
Definition settled_at (q : nat) (s : pstate) (w : world) : Prop :=
  is_pending s = false /\ state <$> promises w !! q = Some s.

(** What [Parse.Promise.when(undefined)] leaves in its closure. *)
Definition resolved_with_undefined : aggregate :=
  {| arrayArgument := false; total := 0; hadError := false;
     results := [VUndefined]; errors := [VUndefined];
     when_promise := Resolved VUndefined;
     then_callback := None; then_promise := Pending |}.

(** ** One group *)

(** A device with a deviceToken that is not a provider handle. *)
Definition raw (device : installation) : Prop :=
  exists tok, deviceToken device = Some tok /\ startsWith tok "arn" = false.

(** The request that [exchangeTokenPromise] makes for a raw device. *)
Definition exchange_request (platformArn : option string) (device : installation)
  : sns_request :=
  createPlatformEndpoint platformArn (default EmptyString (deviceToken device)).

(** The requests in flight once [exchangeTokenPromise] has run for each of
    the raw [devices], the first promise being [P]. *)
Definition exchanges_in_flight (platformArn : option string) (P : nat)
    (devices : list installation) : list (sns_request * callback) :=
  imap (fun i d => (exchange_request platformArn d,
                    createPlatformEndpoint_cb (P + i) d)) devices.

(** What the callback of createPlatformEndpoint settles the exchange promise
    with. *)
Definition exchange_outcome (device : installation)
    (err : option sns_error) (data : option sns_data) : pstate :=
  match data with
  | Some d =>
      if truthy (EndpointArn d) then Resolved (VExchange device (EndpointArn d))
      else Rejected (VErr err)
  | None => Rejected (VErr err)
  end.

(** The assignment of [chain]'s callbacks: [results[index] = result], or
    [errors[index] = error; hadError = true]. *)
Definition record_outcome (index : nat) (s : pstate) (a : aggregate) : aggregate :=
  match s with
  | Resolved v => set_result index v a
  | Rejected e => set_error index e a
  | Pending => a
  end.

(** The closure of [when] over [n] objects, before any of them settles. *)
Definition fresh_aggregate (n : nat) : aggregate :=
  {| arrayArgument := true;
     total := Z.of_nat n;
     hadError := false;
     results := replicate n VUndefined;
     errors := replicate n VUndefined;
     when_promise := Pending;
     then_callback := None;
     then_promise := Pending |}.

(** How many of the exchange promises are still pending. *)
Definition count_pending (states : list pstate) : nat :=
  length (List.filter is_pending states).

(** The requests in flight are createPlatformEndpoint requests of the [n]
    exchange promises that start at [P]. *)
Definition exchange_requests (P n : nat) (w : world) : Prop :=
  Forall (fun e => exists i dev, (i < n)%nat
                                 /\ e.2 = createPlatformEndpoint_cb (P + i) dev)
         (inflight w).

(** Promise [q] is one of the [n] exchange promises that start at [P]. *)
Definition exchange_promise (P n q : nat) : Prop := (P <= q < P + n)%nat.

(** The group is exchanging tokens: the exchange promises are in [states],
    [when] counts the pending ones and [then] has registered its callback. *)
Record exchanging (P n j : nat) (payload : json) (states : list pstate)
    (w : world) : Prop := {
  ex_length : length states = n;
  ex_promises : forall i s, states !! i = Some s ->
    promises w !! (P + i)%nat = Some {| state := s; callbacks := [(j, i)] |};
  ex_aggregate : exists a,
    aggregates w !! j = Some a
    /\ arrayArgument a = true
    /\ when_promise a = Pending
    /\ then_promise a = Pending
    /\ then_callback a = Some payload
    /\ total a = Z.of_nat (count_pending states)
    /\ hadError a = existsb is_rejected states;
  ex_some_pending : (0 < count_pending states)%nat
}.

(** The exchange failed: every exchange promise is settled and the promise
    of [then] is rejected with the errors. *)
Record failed (P n j : nat) (w : world) : Prop := {
  fl_promises : forall i, (i < n)%nat ->
    exists c, promises w !! (P + i)%nat = Some c /\ is_pending (state c) = false;
  fl_then : exists errs,
    then_promise <$> aggregates w !! j = Some (Rejected (VArray errs))
}.

(** The exchange succeeded: every exchange promise is resolved. *)
Definition succeeded (P n : nat) (w : world) : Prop :=
  forall i, (i < n)%nat ->
    exists v, state <$> promises w !! (P + i)%nat = Some (Resolved v).

(** The rest of the world stays away from the group: no other promise has a
    callback into the aggregate [j] of the group, a request in flight whose
    callback settles an exchange promise of the group is a
    createPlatformEndpoint request of the group, and no deferred callback
    works on the aggregate of the group. *)
Record apart (P n j : nat) (w : world) : Prop := {
  ap_bound : (P + n <= length (promises w))%nat;
  ap_callbacks : forall q c,
    promises w !! q = Some c -> ~ exchange_promise P n q ->
    Forall (fun target => target.1 <> j) (callbacks c);
  ap_inflight :
    Forall (fun e => exchange_promise P n (cb_promise e.2) ->
                     exists i dev, (i < n)%nat
                                   /\ e.2 = createPlatformEndpoint_cb (P + i) dev)
           (inflight w);
  ap_ticks : Forall (fun t => tick_target t <> j) (ticks w)
}.

(** The exchange promises and the aggregate of the group are in [w'] what
    they are in [w]. *)
Definition same_group (P n j : nat) (w w' : world) : Prop :=
  (forall i, (i < n)%nat -> promises w' !! (P + i)%nat = promises w !! (P + i)%nat)
  /\ aggregates w' !! j = aggregates w !! j.

(** The references of a world point into it: the callback of a request in
    flight settles a promise that exists, and the callbacks of a promise and
    the deferred callbacks report to aggregates that exist. *)
Record well_formed (w : world) : Prop := {
  wf_inflight :
    Forall (fun e => (cb_promise e.2 < length (promises w))%nat) (inflight w);
  wf_callbacks :
    Forall (fun c => Forall (fun target => (target.1 < length (aggregates w))%nat)
                            (callbacks c))
           (promises w);
  wf_ticks :
    Forall (fun t => (tick_target t < length (aggregates w))%nat) (ticks w)
}.

(** Turns of the event loop from one world to another, with the requests
    made during the turns of the group: the turns that complete a request
    whose callback settles one of the [n] exchange promises that start at
    [P], and the turns that run a deferred callback of the aggregate [j] of
    the group.  The callback of the [then] of the group runs in such a
    turn, so these are the requests that the group makes after its
    exchange requests. *)
Inductive requests_of `{PushLib} (P n j : nat)
  : world -> world -> list sns_request -> Prop :=
| requests_none w : requests_of P n j w w []
| requests_own w1 w2 w3 l k err data req cb :
    requests_of P n j w1 w2 l ->
    inflight w2 !! k = Some (req, cb) ->
    exchange_promise P n (cb_promise cb) ->
    deliver k err data w2 = Ok tt w3 ->
    requests_of P n j w1 w3 (l ++ drop (length (trace w2)) (trace w3))
| requests_other w1 w2 w3 l k err data req cb :
    requests_of P n j w1 w2 l ->
    inflight w2 !! k = Some (req, cb) ->
    ~ exchange_promise P n (cb_promise cb) ->
    deliver k err data w2 = Ok tt w3 ->
    requests_of P n j w1 w3 l
| requests_own_tick w1 w2 w3 l t rest :
    requests_of P n j w1 w2 l ->
    ticks w2 = t :: rest ->
    tick_target t = j ->
    next_tick w2 = Ok tt w3 ->
    requests_of P n j w1 w3 (l ++ drop (length (trace w2)) (trace w3))
| requests_other_tick w1 w2 w3 l t rest :
    requests_of P n j w1 w2 l ->
    ticks w2 = t :: rest ->
    tick_target t <> j ->
    next_tick w2 = Ok tt w3 ->
    requests_of P n j w1 w3 l.

(** Nothing but the exchange requests of the group is under way: no other
    request in flight, no deferred callback. *)
Definition alone (P n : nat) (w : world) : Prop :=
  exchange_requests P n w /\ ticks w = [].

(** A group, [l] being the requests it made after its exchange requests
    since the world [w1]: either every exchange was resolved, or the group
    is exchanging or has failed, it has made no request, and, when it was
    alone in [w1], no request at all was made. *)
Definition group_invariant (P n j : nat) (payload : json) (w1 : world)
    (l : list sns_request) (w : world) : Prop :=
  succeeded P n w
  \/ (apart P n j w
      /\ ((exists states, exchanging P n j payload states w) \/ failed P n j w)
      /\ l = []
      /\ (alone P n w1 -> alone P n w /\ trace w = trace w1)).

(** ** Construction, in full *)

(** The platform keys of a configuration, in the order of [Object.keys]. *)
Definition platform_keys (pushConfig : push_config) : list string :=
  match pushTypes pushConfig with
  | Some pts => map fst pts
  | None => []
  end.

(** A platform the constructor has a sender for. *)
Definition supported (pushType : string) : Prop :=
  pushType = "ios" \/ pushType = "android".

(** The sender that the [switch] of the constructor stores for a supported
    platform. *)
Definition sender_of (pushType : string) : sender :=
  if String.eqb pushType "ios" then sendToAPNS_bound else sendToGCM_bound.

(** ** The senders *)

Definition com_b : platform_config :=
  {| production := false; bundleId := Some "com.b";
     ARN := Some "arn:aws:sns:us-east-1:1:app/APNS/b" |}.

(** An adapter with two iOS bundle configurations. *)
Definition two_bundle_adapter : adapter :=
  {| validPushTypes := ["ios"; "android"];
     availablePushTypes := ["ios"];
     snsConfig := Some [("ios", ConfigArray [com_a; com_b])];
     senderMap := [("ios", sendToAPNS_bound)];
     aws := {| accessKeyId := Some "key"; secretAccessKey := Some "secret";
               aws_region := "us-east-1" |} |}.

(** An iOS device of a bundle that is not configured, and one without
    deviceToken. *)
Definition ios_other_bundle : installation :=
  {| deviceType := Some "ios"; deviceToken := Some "a1b2c3";
     appIdentifier := Some "com.c"; topicArn := None |}.

Definition ios_without_token : installation :=
  {| deviceType := Some "ios"; deviceToken := None;
     appIdentifier := None; topicArn := None |}.

Definition endpoint_2 : option string :=
  Some "arn:aws:sns:us-east-1:1:endpoint/APNS/a/2".

(** The entries of a platform configuration, as [sendToAPNS] lists them. *)
Definition entries (c : push_type_config) : list platform_config :=
  match c with
  | OneConfig x => [x]
  | ConfigArray l => l
  end.

(** The bundle keeps at least one of the devices. *)
Definition serves (devices : list installation) (iosConfig : platform_config) : bool :=
  (0 <? length (deviceSends iosConfig devices))%nat.

(** The createPlatformEndpoint requests of [sendToAPNS]: bundle by bundle,
    for the devices the bundle keeps. *)
Definition bundle_requests (iosConfigs : list platform_config)
    (devices : list installation) : list sns_request :=
  flat_map (fun c => map (exchange_request (ARN c)) (deviceSends c devices)) iosConfigs.

(** The ARN that [sendToGCM] reads: [pushConfig.ARN], which an array of
    entries does not have. *)
Definition android_ARN (c : push_type_config) : option string :=
  match c with
  | OneConfig x => ARN x
  | ConfigArray _ => None
  end.

(** What [device.deviceToken.startsWith] throws when the device has no
    deviceToken. *)
Definition no_token : exn := TypeError "Cannot read property 'startsWith' of undefined".

(** A device whose deviceToken is a provider handle. *)
Definition handle (device : installation) : Prop :=
  exists tok, deviceToken device = Some tok /\ startsWith tok "arn" = true.

(** What [exchangeTokenPromise] resolves to for a device with a handle. *)
Definition known_exchange (device : installation) : value :=
  VExchange device (topicArn device).

(** The publish request of [sendSNSPayload] for a device with a handle. *)
Definition topic_publish `{PushLib} (payload : json) (device : installation)
  : sns_request :=
  publish (topic_object payload (default EmptyString (deviceToken device))).

(** ** The publish phase of a group *)

(** [exchangeResponse.arn]. *)
Definition arn_of (exchangeResponse : value) : option string :=
  match exchangeResponse with
  | VExchange _ arn => arn
  | _ => None
  end.

(** The request that opens the send to an endpoint. *)
Definition enable_request (arn : option string) : sns_request :=
  setEndpointAttributes "true" arn.

(** The requests in flight whose callback settles an exchange promise of
    the group are the createPlatformEndpoint requests of its devices. *)
Record owned (P n : nat) (devices : list installation) (w : world) : Prop := {
  ow_devices : length devices = n;
  ow_inflight :
    Forall (fun e => exchange_promise P n (cb_promise e.2) ->
                     exists i dev, devices !! i = Some dev
                                   /\ e.2 = createPlatformEndpoint_cb (P + i) dev)
           (inflight w)
}.

(** The group is exchanging tokens and [when] holds the answers received so
    far, each at the index of its device. *)
Record collecting (P n j : nat) (payload : json) (devices : list installation)
    (states : list pstate) (w : world) : Prop := {
  co_exchanging : exchanging P n j payload states w;
  co_results : forall a, aggregates w !! j = Some a ->
    length (results a) = n
    /\ forall i v, states !! i = Some (Resolved v) -> results a !! i = Some v;
  co_values : forall i v, states !! i = Some (Resolved v) ->
    exists dev arn, devices !! i = Some dev /\ v = VExchange dev arn
}.

(** The exchange failed and an exchange promise is rejected. *)
Record lost (P n j : nat) (w : world) : Prop := {
  lo_failed : failed P n j w;
  lo_rejected : exists i e,
    (i < n)%nat /\ state <$> promises w !! (P + i)%nat = Some (Rejected e)
}.

(** Every exchange was resolved, device [i] to the endpoint [arns !! i], and
    the callback of [then] has run. *)
Record published (P n j : nat) (devices : list installation)
    (arns : list (option string)) (w : world) : Prop := {
  pb_length : length arns = n;
  pb_promises : forall i dev arn,
    devices !! i = Some dev -> arns !! i = Some arn ->
    state <$> promises w !! (P + i)%nat = Some (Resolved (VExchange dev arn));
  pb_then : then_promise <$> aggregates w !! j = Some (Resolved VUndefined)
}.

(** A group, [l] being the requests it made after its exchange requests:
    none while it is exchanging or when it has failed, one
    setEndpointAttributes request per device, in the order of the devices,
    once every exchange was resolved. *)
Definition group_progress (P n j : nat) (payload : json)
    (devices : list installation) (l : list sns_request) (w : world) : Prop :=
  apart P n j w /\ owned P n devices w
  /\ ((exists states, collecting P n j payload devices states w) /\ l = []
      \/ lost P n j w /\ l = []
      \/ exists arns, published P n j devices arns w /\ l = map enable_request arns).

(** ** One call of send *)

(** The installation objects that the argument of [send] refers to. *)
Definition referred (installations : installations_arg) (w : world)
  : list installation :=
  omap (fun loc => store w !! loc) (items installations).

(** The installations of one platform. *)
Definition of_type (pushType : string) (objects : list installation)
  : list installation :=
  List.filter (fun i => bool_decide (deviceType i = Some pushType)) objects.

(** The createPlatformEndpoint requests that the sender of one platform
    makes for the installations of that platform. *)
Definition platform_requests (cfg : list (string * push_type_config))
    (objects : list installation) (pushType : string) : list sns_request :=
  match obj_get pushType cfg with
  | Some c =>
      if String.eqb pushType "ios"
      then bundle_requests (entries c) (of_type pushType objects)
      else map (exchange_request (android_ARN c)) (of_type pushType objects)
  | None => []
  end.

(** The publish requests of [sendToAPNS] for devices with handles: bundle
    by bundle, each with the payload of the bundle. *)
Definition bundle_publishes `{PushLib} (d : push_data)
    (iosConfigs : list platform_config) (devices : list installation)
  : list sns_request :=
  flat_map (fun c => map (topic_publish (generateiOSPayload d (production c)))
                         (deviceSends c devices)) iosConfigs.

(** ** Deferred callbacks *)

(** The deferred callbacks run, one after another, [n] of them. *)
Fixpoint run_ticks `{PushLib} (n : nat) : M unit :=
  match n with
  | O => ret tt
  | S n => let* _ := next_tick in run_ticks n
  end.

(** The callbacks that [when] defers for objects that are promises already
    resolved with [vs], the first of them being object [k]. *)
Definition chain_ticks (j k : nat) (vs : list value) : list tick :=
  imap (fun i v => chain_tick (Resolved v) (j, (k + i)%nat)) vs.

(** What [sendToSNS] defers for a group of devices with handles: for each
    device the callback of [when] on its exchange promise; for no device,
    the callback of [then]. *)
Definition group_ticks (j : nat) (payload : json) (devices : list installation)
  : list tick :=
  match devices with
  | [] => [then_tick j payload (Resolved (VArray []))]
  | _ => chain_ticks j 0 (map known_exchange devices)
  end.

(** What [sendToAPNS] defers for devices with handles, bundle by bundle,
    [j] being the aggregate of the first bundle that keeps a device. *)
Fixpoint bundle_ticks (j : nat) (iosConfigs : list platform_config)
    (devices : list installation) : list tick :=
  match iosConfigs with
  | [] => []
  | c :: rest =>
      if serves devices c
      then chain_ticks j 0 (map known_exchange (deviceSends c devices))
           ++ bundle_ticks (S j) rest devices
      else bundle_ticks j rest devices
  end.

(** The aggregates that [sendToAPNS] creates for devices with handles: one
    per bundle that keeps a device, with the callback of [then]
    registered. *)
Definition bundle_aggregates `{PushLib} (d : push_data)
    (iosConfigs : list platform_config) (devices : list installation)
  : list aggregate :=
  map (fun c => set_then_callback (generateiOSPayload d (production c))
                  (fresh_aggregate (length (deviceSends c devices))))
      (List.filter (serves devices) iosConfigs).

(** * Properties *)

(** ** Strings and objects *)

Lemma append_assoc (a b c : string) : (a +:+ b) +:+ c = a +:+ (b +:+ c).
Proof.
  induction a as [|x a IH]; [reflexivity|].
  change (String x ((a +:+ b) +:+ c) = String x (a +:+ b +:+ c)).
  rewrite IH. reflexivity.
Qed.

Lemma append_empty_r (a : string) : a +:+ EmptyString = a.
Proof.
  induction a as [|x a IH]; [reflexivity|].
  change (String x (a +:+ EmptyString) = String x a). rewrite IH. reflexivity.
Qed.

Lemma prefix_app (t b : string) : String.prefix t (t +:+ b) = true.
Proof.
  induction t as [|c t IH]; simpl.
  - destruct b; reflexivity.
  - destruct (ascii_dec c c); [exact IH | congruence].
Qed.

Lemma includes_prefix (h t : string) : String.prefix t h = true -> includes h t = true.
Proof. intros E. destruct h; cbn [includes]; rewrite E; reflexivity. Qed.

Lemma includes_app (a t b : string) : includes (a +:+ t +:+ b) t = true.
Proof.
  induction a as [|c a IH].
  - apply includes_prefix. exact (prefix_app t b).
  - change (String c a +:+ t +:+ b) with (String c (a +:+ t +:+ b)).
    cbn [includes]. rewrite IH. apply orb_true_r.
Qed.

Lemma concat_member (sep t : string) (l : list string) :
  In t l -> exists a b, String.concat sep l = a +:+ t +:+ b.
Proof.
  induction l as [|x l IH]; simpl; [tauto|].
  intros [-> | Hin].
  - destruct l as [|y l].
    + exists EmptyString, EmptyString. symmetry. apply append_empty_r.
    + exists EmptyString, (sep +:+ String.concat sep (y :: l)). reflexivity.
  - destruct l as [|y l]; [destruct Hin|].
    destruct (IH Hin) as (a & b & E).
    exists (x +:+ sep +:+ a), b. rewrite E.
    rewrite !append_assoc. reflexivity.
Qed.

Lemma startsWith_truthy (s p : string) :
  startsWith s p = true -> p <> EmptyString -> truthy (Some s) = true.
Proof.
  unfold startsWith, truthy. intros Hp Hne.
  destruct s; [|reflexivity]. destruct p; [congruence|discriminate].
Qed.

Lemma obj_get_set {A} (k : string) (v : A) (o : list (string * A)) :
  obj_get k (obj_set k v o) = Some v.
Proof.
  induction o as [|[k' v'] o IH]; simpl.
  - now rewrite String.eqb_refl.
  - destruct (String.eqb k k') eqn:E; simpl; rewrite ?String.eqb_refl, ?E; auto.
Qed.

Lemma obj_get_set_other {A} (k k' : string) (v : A) (o : list (string * A)) :
  k' <> k -> obj_get k' (obj_set k v o) = obj_get k' o.
Proof.
  intros Hne. induction o as [|[k0 v0] o IH]; simpl.
  - apply String.eqb_neq in Hne. now rewrite Hne.
  - destruct (String.eqb k k0) eqn:E; simpl.
    + apply String.eqb_eq in E. subst k0.
      apply String.eqb_neq in Hne. now rewrite Hne.
    + destruct (String.eqb k' k0); auto.
Qed.

(** ** Construction *)

Lemma register_push_types_unsupported (valid all rest available : list string)
    (senders : list (string * sender)) (t : string) :
  In t rest -> not_indexed t valid = true ->
  register_push_types valid all rest available senders = inr (unsupported_message all).
Proof.
  revert available senders.
  induction rest as [|x rest IH]; intros available senders Hin Hbad; [destruct Hin|].
  simpl. destruct (not_indexed x valid) eqn:Hx; [reflexivity|].
  destruct Hin as [-> | Hin]; [congruence|].
  apply IH; assumption.
Qed.

Lemma unsupported_message_names (all : list string) (t : string) :
  In t all -> includes (message (unsupported_message all)) t = true.
Proof.
  intros Hin. destruct (concat_member "," t _ Hin) as (a & b & E).
  unfold unsupported_message, array_toString, message. rewrite E.
  rewrite !append_assoc. rewrite <- (append_assoc "Push to " a).
  apply includes_app.
Qed.

Lemma SNSPushAdapter_unsupported (pushConfig : push_config)
    (pts : list (string * push_type_config)) (t : string) :
  truthy (accessKey pushConfig) = true ->
  truthy (secretKey pushConfig) = true ->
  pushTypes pushConfig = Some pts ->
  In t (map fst pts) ->
  t <> "ios" -> t <> "android" ->
  SNSPushAdapter pushConfig = Failed (unsupported_message (map fst pts)).
Proof.
  intros Ha Hs Hp Hin Hios Hand.
  unfold SNSPushAdapter. rewrite Ha, Hs, Hp. cbn [negb orb].
  rewrite (register_push_types_unsupported _ _ _ _ _ t Hin); [reflexivity|].
  unfold not_indexed. cbn [existsb].
  apply String.eqb_neq in Hios, Hand. rewrite Hios, Hand. reflexivity.
Qed.

(** C8, as stated, fails: [keyless_config] names the platform "windows",
    which is outside ios and android, and construction fails with the error
    about the AWS keys, whose message does not name "windows". *)
Lemma keyless_config_error_names_no_platform :
  pushTypes keyless_config <> None
  /\ In "windows" (map fst (default [] (pushTypes keyless_config)))
  /\ SNSPushAdapter keyless_config =
       Failed {| code := PUSH_MISCONFIGURED; message := "Need to provide AWS keys" |}
  /\ ~ (exists e, SNSPushAdapter keyless_config = Failed e
                  /\ includes (message e) "windows" = true).
Proof.
  split; [discriminate|]. split; [left; reflexivity|]. split; [reflexivity|].
  intros (e & He & Hm). vm_compute in He. injection He as <-.
  vm_compute in Hm. discriminate.
Qed.

(** C8 (amended): for every configuration that provides both AWS keys and
    whose platform set contains a platform outside ios and android,
    construction fails with a PUSH_MISCONFIGURED error whose message, "Push
    to <the configured platforms, comma separated> is not supported",
    contains the name of that platform. *)
Theorem unsupported_platform_rejected (pushConfig : push_config)
    (pts : list (string * push_type_config)) (t : string) :
  truthy (accessKey pushConfig) = true ->
  truthy (secretKey pushConfig) = true ->
  pushTypes pushConfig = Some pts ->
  In t (map fst pts) ->
  t <> "ios" -> t <> "android" ->
  exists e, SNSPushAdapter pushConfig = Failed e
            /\ code e = PUSH_MISCONFIGURED
            /\ message e =
                 "Push to " +:+ array_toString (map fst pts) +:+ " is not supported"
            /\ includes (message e) t = true.
Proof.
  intros Ha Hs Hp Hin Hios Hand.
  exists (unsupported_message (map fst pts)).
  split; [eapply SNSPushAdapter_unsupported; eassumption|].
  split; [reflexivity|]. split; [reflexivity|].
  apply unsupported_message_names, Hin.
Qed.

Lemma unsupported_platform_rejected_witness :
  exists e, SNSPushAdapter windows_config = Failed e
            /\ code e = PUSH_MISCONFIGURED
            /\ message e = "Push to ios,windows is not supported"
            /\ includes (message e) "windows" = true.
Proof.
  apply (unsupported_platform_rejected windows_config
           (default [] (pushTypes windows_config)) "windows");
    first [ reflexivity | discriminate | (right; left; reflexivity) ].
Defined.

(** ** Payload framing *)

(** C6: for every notification body and production flag, the iOS framer
    returns an object with two keys: the platform key, "APNS" when
    production is true and "APNS_SANDBOX" when it is false, holding the
    compiled notification, and "default" holding "sns". *)
Theorem generateiOSPayload_envelope `{PushLib} (d : push_data) (production : bool) :
  let key := if production then "APNS" else "APNS_SANDBOX" in
  exists fields,
    generateiOSPayload d production = JObj fields
    /\ map fst fields = [key; "default"]
    /\ obj_get key fields = Some (APNS_compile (data d) (expirationTime d))
    /\ obj_get "default" fields = Some (JStr "sns").
Proof.
  destruct production; eexists; (split; [reflexivity|]); repeat split.
Qed.

(** ** iOS bundle filtering *)

(** C5: for every iOS bundle configuration and every installation of the
    device list, an installation whose appIdentifier is absent or empty is
    in the send subset of the configuration, and an installation whose
    appIdentifier is X is in the subset exactly when the bundle identifier of
    the configuration is X. *)
Theorem bundle_filter_membership (iosConfig : platform_config)
    (devices : list installation) (device : installation) :
  In device devices ->
  (truthy (appIdentifier device) = false ->
     In device (deviceSends iosConfig devices))
  /\ (forall X, appIdentifier device = Some X -> X <> EmptyString ->
        (In device (deviceSends iosConfig devices) <-> bundleId iosConfig = Some X)).
Proof.
  intros Hin. unfold deviceSends. split.
  - intros Hno. apply List.filter_In. split; [assumption|].
    unfold bundle_match. rewrite Hno. reflexivity.
  - intros X HX Hne. rewrite List.filter_In. unfold bundle_match.
    rewrite HX. cbn [truthy].
    apply String.eqb_neq in Hne. rewrite Hne. cbn [negb orb].
    rewrite bool_decide_eq_false_2 by (apply String.eqb_neq in Hne; congruence).
    destruct (bool_decide (Some X = bundleId iosConfig)) eqn:E.
    + apply bool_decide_eq_true_1 in E. split; [intros _; congruence | tauto].
    + apply bool_decide_eq_false_1 in E. split; [intros [_ ?]; discriminate | congruence].
Qed.

Lemma bundle_filter_membership_witness :
  In ios_with_bundle [ios_with_bundle; ios_without_bundle]
  /\ In ios_without_bundle (deviceSends com_a [ios_with_bundle; ios_without_bundle])
  /\ (In ios_with_bundle (deviceSends com_a [ios_with_bundle; ios_without_bundle])
        <-> bundleId com_a = Some "com.a").
Proof.
  split; [left; reflexivity|]. split.
  - apply (bundle_filter_membership com_a [ios_with_bundle; ios_without_bundle]
             ios_without_bundle); [right; left; reflexivity | reflexivity].
  - apply (bundle_filter_membership com_a [ios_with_bundle; ios_without_bundle]
             ios_with_bundle); [left; reflexivity | reflexivity | discriminate].
Defined.

(** ** Reasoning about computations *)

Lemma maintains_ret {A} (Inv : world -> Prop) (a : A) : maintains Inv (ret a).
Proof. intros w Hw. exact Hw. Qed.

Lemma maintains_throw {A} (Inv : world -> Prop) (e : exn) : maintains Inv (@throw A e).
Proof. intros w Hw. exact Hw. Qed.

Lemma maintains_get {A} (Inv : world -> Prop) (f : world -> A) : maintains Inv (get f).
Proof. intros w Hw. exact Hw. Qed.

Lemma maintains_modify (Inv : world -> Prop) (f : world -> world) :
  (forall w, Inv w -> Inv (f w)) -> maintains Inv (modify f).
Proof. intros Hf w Hw. exact (Hf w Hw). Qed.

Lemma maintains_bind {A B} (Inv : world -> Prop) (m : M A) (k : A -> M B) :
  maintains Inv m -> (forall a, maintains Inv (k a)) -> maintains Inv (bind m k).
Proof.
  intros Hm Hk w Hw. unfold bind. specialize (Hm w Hw).
  destruct (m w) as [a w'|e w']; [apply Hk, Hm | exact Hm].
Qed.

Lemma maintains_mapM {A B} (Inv : world -> Prop) (f : A -> M B) (xs : list A) :
  (forall x, maintains Inv (f x)) -> maintains Inv (mapM f xs).
Proof.
  intros Hf. induction xs as [|x xs IH]; cbn [mapM].
  - apply maintains_ret.
  - apply maintains_bind; [apply Hf|]. intros y.
    apply maintains_bind; [apply IH|]. intros ys. apply maintains_ret.
Qed.

Lemma maintains_forEach {A B} (Inv : world -> Prop) (f : A -> M B) (xs : list A) :
  (forall x, maintains Inv (f x)) -> maintains Inv (forEach f xs).
Proof.
  intros Hf. induction xs as [|x xs IH]; cbn [forEach].
  - apply maintains_ret.
  - apply maintains_bind; [apply Hf|]. intros _. apply IH.
Qed.

Lemma maintains_forEach_from {A B} (Inv : world -> Prop) (f : nat -> A -> M B)
    (i : nat) (xs : list A) :
  (forall i x, maintains Inv (f i x)) -> maintains Inv (forEach_from f i xs).
Proof.
  intros Hf. revert i. induction xs as [|x xs IH]; intros i; cbn [forEach_from].
  - apply maintains_ret.
  - apply maintains_bind; [apply Hf|]. intros _. apply IH.
Qed.

Lemma maintains_get_promise (Inv : world -> Prop) (p : nat) : maintains Inv (get_promise p).
Proof. intros w Hw. unfold get_promise. destruct (promises w !! p); exact Hw. Qed.

Lemma maintains_get_aggregate (Inv : world -> Prop) (j : nat) :
  maintains Inv (get_aggregate j).
Proof. intros w Hw. unfold get_aggregate. destruct (aggregates w !! j); exact Hw. Qed.

Lemma maintains_bind_with {A B} (Inv : world -> Prop) (Q : A -> Prop)
    (m : M A) (k : A -> M B) :
  maintains_with Inv Q m -> (forall a, Q a -> maintains Inv (k a)) ->
  maintains Inv (bind m k).
Proof.
  intros Hm Hk w Hw. unfold bind. specialize (Hm w Hw).
  destruct (m w) as [a w'|e w']; [apply Hk; tauto | exact Hm].
Qed.

Lemma maintains_try_catch {A} (Inv : world -> Prop) (m : M A) (handler : exn -> M A) :
  maintains Inv m -> (forall e, maintains Inv (handler e)) ->
  maintains Inv (try_catch m handler).
Proof.
  intros Hm Hh w Hw. unfold try_catch. specialize (Hm w Hw).
  destruct (m w) as [a w'|e w']; [exact Hm | apply Hh, Hm].
Qed.

Lemma maintains_ok {A} (Inv : world -> Prop) (m : M A) (w w' : world) (a : A) :
  maintains Inv m -> Inv w -> m w = Ok a w' -> Inv w'.
Proof. intros Hm Hw E. specialize (Hm w Hw). rewrite E in Hm. exact Hm. Qed.

(** Takes a computation apart along its binds, loops and case analyses. *)
Ltac maintain_step :=
  first
    [ apply maintains_ret | apply maintains_throw | apply maintains_get
    | apply maintains_get_promise | apply maintains_get_aggregate
    | apply maintains_bind; [|intros ?]
    | apply maintains_try_catch; [|intros ?]
    | apply maintains_mapM; intros ?
    | apply maintains_forEach; intros ?
    | apply maintains_forEach_from; intros ? ?
    | match goal with
      | |- maintains _ (match ?x with _ => _ end) => destruct x
      end ].

Tactic Notation "maintain" "using" tactic(known) :=
  repeat first [ solve [known] | maintain_step ].
Ltac maintain := repeat maintain_step.

(** Closes the side conditions of a property that the updates of the world
    do not touch. *)
Ltac frame_trivial :=
  intros; try split;
  solve [trivial | assumption | congruence | (apply Forall_true; intros; exact Logic.I)].

(** Reads the fields of an updated world. *)
Ltac world_simpl :=
  cbn [store promises aggregates inflight ticks trace now randoms
       with_store with_promises with_aggregates with_inflight with_ticks with_trace
       with_randoms] in *.

Section Frame.
Context `{PushLib}.

(** A property [Inv] of the world, the promises [touch] that the code may
    settle or hand to the SNS client without breaking it, and the aggregates
    [touch_agg] that it may update without breaking it. *)
Variable Inv : world -> Prop.
Variable touch : nat -> Prop.
Variable touch_agg : nat -> Prop.

Hypothesis Inv_new_promise : forall w,
  Inv w -> Inv (with_promises (promises w ++ [pending_cell]) w)
           /\ touch (length (promises w)).
Hypothesis Inv_settle : forall w q c s,
  Inv w -> touch q -> promises w !! q = Some c -> state c = Pending ->
  Inv (with_promises (<[q := {| state := s; callbacks := callbacks c |}]> (promises w)) w).
Hypothesis Inv_callbacks : forall w q c,
  Inv w -> touch q -> promises w !! q = Some c ->
  Forall (fun target => touch_agg target.1) (callbacks c).
Hypothesis Inv_register : forall w q c x,
  Inv w -> touch_agg x.1 -> promises w !! q = Some c -> state c = Pending ->
  Inv (with_promises
         (<[q := {| state := Pending; callbacks := callbacks c ++ [x] |}]>
            (promises w)) w).
Hypothesis Inv_put_aggregate : forall w j a,
  Inv w -> touch_agg j -> Inv (with_aggregates (<[j := a]> (aggregates w)) w).
Hypothesis Inv_new_aggregate : forall w a,
  Inv w -> Inv (with_aggregates (aggregates w ++ [a]) w)
           /\ touch_agg (length (aggregates w)).
Hypothesis Inv_randoms : forall w n, Inv w -> Inv (with_randoms n w).
Hypothesis Inv_sns_call : forall w req cb,
  Inv w -> touch (cb_promise cb) ->
  Inv (with_trace (trace w ++ [req]) (with_inflight (inflight w ++ [(req, cb)]) w)).
Hypothesis Inv_answered : forall w n req cb,
  Inv w -> inflight w !! n = Some (req, cb) ->
  Inv (with_inflight (delete n (inflight w)) w) /\ touch (cb_promise cb).
Hypothesis Inv_defer : forall w t,
  Inv w -> touch_agg (tick_target t) -> Inv (with_ticks (ticks w ++ [t]) w).
Hypothesis Inv_ticked : forall w t rest,
  Inv w -> ticks w = t :: rest ->
  Inv (with_ticks rest w) /\ touch_agg (tick_target t).

Lemma frame_defer t : touch_agg (tick_target t) -> maintains Inv (defer t).
Proof. intros Ht. apply maintains_modify. intros w Hw. apply Inv_defer; assumption. Qed.

Lemma frame_put_aggregate j a : touch_agg j -> maintains Inv (put_aggregate j a).
Proof.
  intros Hj. apply maintains_modify. intros w Hw. apply Inv_put_aggregate; assumption.
Qed.

Lemma frame_sns_call req cb : touch (cb_promise cb) -> maintains Inv (sns_call req cb).
Proof. intros Ht. apply maintains_modify. intros w Hw. apply Inv_sns_call; assumption. Qed.

Lemma frame_settle_then j s : touch_agg j -> maintains Inv (settle_then j s).
Proof.
  intros Hj. unfold settle_then. maintain using (apply frame_put_aggregate, Hj).
Qed.

Lemma frame_new_promise : maintains_with Inv touch new_promise.
Proof. intros w Hw. exact (Inv_new_promise w Hw). Qed.

Lemma frame_token device : maintains Inv (token device).
Proof. unfold token. maintain. Qed.

Lemma frame_sendSNSPayload arn payload device :
  maintains Inv (sendSNSPayload arn payload device).
Proof.
  unfold sendSNSPayload.
  apply maintains_bind; [apply frame_token|]. intros tok.
  apply (maintains_bind_with Inv touch); [apply frame_new_promise|]. intros p Hp.
  maintain using (apply frame_sns_call, Hp).
Qed.

Lemma frame_publish_all payload v : maintains Inv (publish_all payload v).
Proof. unfold publish_all. maintain using (apply frame_sendSNSPayload). Qed.

Lemma frame_run_then j payload s : touch_agg j -> maintains Inv (run_then j payload s).
Proof.
  intros Hj. unfold run_then.
  maintain using (first [ apply frame_publish_all | apply frame_settle_then, Hj
                        | apply frame_defer, Hj ]).
Qed.

Lemma frame_settle_when j s : touch_agg j -> maintains Inv (settle_when j s).
Proof.
  intros Hj. unfold settle_when.
  maintain using (first [apply frame_put_aggregate, Hj | apply frame_run_then, Hj]).
Qed.

Lemma frame_resolveOne j : touch_agg j -> maintains Inv (resolveOne j).
Proof.
  intros Hj. unfold resolveOne.
  maintain using (first [apply frame_put_aggregate, Hj | apply frame_settle_when, Hj]).
Qed.

Lemma frame_notify s target : touch_agg target.1 -> maintains Inv (notify s target).
Proof.
  destruct target as [j index]. cbn [fst]. intros Hj. unfold notify.
  maintain using (first [apply frame_put_aggregate, Hj | apply frame_resolveOne, Hj]).
Qed.

Lemma maintains_forEach_Forall {A B} (f : A -> M B) (xs : list A) :
  Forall (fun x => maintains Inv (f x)) xs -> maintains Inv (forEach f xs).
Proof.
  induction xs as [|x xs IH]; intros Hxs; cbn [forEach].
  - apply maintains_ret.
  - apply Forall_cons in Hxs as [Hx Hxs].
    apply maintains_bind; [exact Hx|]. intros _. apply IH, Hxs.
Qed.

Lemma frame_settle q s : touch q -> maintains Inv (settle q s).
Proof.
  intros Ht w Hw. unfold settle, get_promise, bind.
  destruct (promises w !! q) as [c|] eqn:Hq; [|exact Hw].
  destruct (state c) eqn:Hc; try exact Hw.
  unfold put_promise, modify.
  apply (maintains_forEach_Forall (notify s) (callbacks c)).
  - eapply Forall_impl; [exact (Inv_callbacks w q c Hw Ht Hq)|].
    intros target Htarget. apply frame_notify, Htarget.
  - apply Inv_settle; assumption.
Qed.

Lemma frame_run_callback cb err data :
  touch (cb_promise cb) -> maintains Inv (run_callback cb err data).
Proof.
  intros Ht. destruct cb as [p device|p object r|p r]; cbn in Ht; cbn [run_callback].
  - unfold createPlatformEndpoint_callback, resolve, reject.
    maintain using (apply frame_settle, Ht).
  - unfold setEndpointAttributes_callback, reject.
    maintain using (first [apply frame_settle, Ht | apply frame_sns_call, Ht]).
  - unfold publish_callback, resolve, reject.
    maintain using (apply frame_settle, Ht).
Qed.

Lemma frame_deliver n err data : maintains Inv (deliver n err data).
Proof.
  intros w Hw. unfold deliver.
  destruct (inflight w !! n) as [[req cb]|] eqn:Hn; [|exact Hw].
  destruct (Inv_answered w n req cb Hw Hn) as [Hw' Ht].
  apply frame_run_callback; assumption.
Qed.

Lemma frame_run_tick t : touch_agg (tick_target t) -> maintains Inv (run_tick t).
Proof.
  intros Ht. destruct t as [s target|j payload s|j error]; cbn in Ht; cbn [run_tick].
  - apply frame_notify, Ht.
  - apply frame_run_then, Ht.
  - apply frame_settle_then, Ht.
Qed.

Lemma frame_next_tick : maintains Inv next_tick.
Proof.
  intros w Hw. unfold next_tick.
  destruct (ticks w) as [|t rest] eqn:Ht; [exact Hw|].
  destruct (Inv_ticked w t rest Hw Ht) as [Hw' Ht'].
  apply frame_run_tick; assumption.
Qed.

Lemma frame_step w w' : Inv w -> step w w' -> Inv w'.
Proof.
  intros Hw Hs. destruct Hs as [n err data w w' E|w w' E].
  - exact (maintains_ok Inv _ _ _ _ (frame_deliver n err data) Hw E).
  - exact (maintains_ok Inv _ _ _ _ frame_next_tick Hw E).
Qed.

Lemma frame_steps w w' : Inv w -> steps w w' -> Inv w'.
Proof.
  intros Hw Hs. induction Hs as [w|w1 w2 w3 _ IH Hs]; [exact Hw|].
  eapply frame_step; [apply IH, Hw | exact Hs].
Qed.

Lemma frame_exchangeTokenPromise device platformARN :
  maintains Inv (exchangeTokenPromise device platformARN).
Proof.
  unfold exchangeTokenPromise, resolve, getPlatformArn.
  apply (maintains_bind_with Inv touch); [apply frame_new_promise|]. intros p Hp.
  maintain using (first [apply frame_token | apply frame_settle, Hp
                        | apply frame_sns_call, Hp]).
Qed.

Lemma frame_chain j index object :
  touch_agg j -> maintains Inv (chain j index object).
Proof.
  intros Hj.
  destruct object as [| | | |p| |]; cbn [chain];
    try solve [maintain using (first [ apply frame_put_aggregate, Hj
                                     | apply frame_resolveOne, Hj ])].
  intros w Hw. unfold bind, get_promise.
  destruct (promises w !! p) as [c|] eqn:Hp; [|exact Hw].
  destruct (state c) eqn:Hc.
  - apply Inv_register; assumption.
  - apply (frame_defer (chain_tick _ (j, index))); assumption.
  - apply (frame_defer (chain_tick _ (j, index))); assumption.
Qed.

Lemma frame_Parse_Promise_when promises :
  maintains_with Inv touch_agg (Parse_Promise_when promises).
Proof.
  intros w Hw. unfold Parse_Promise_when, get. unfold bind at 1.
  set (objects := match promises with VArray l => l | v => [v] end).
  set (a := {| arrayArgument := _ |}).
  destruct (length objects =? 0)%nat.
  - unfold bind, modify, ret.
    exact (Inv_new_aggregate w (set_when_promise (Resolved (returnValue a)) a) Hw).
  - unfold bind at 1. unfold modify at 1.
    destruct (Inv_new_aggregate w a Hw) as [Hw' Hj].
    pose proof (maintains_forEach_from Inv (chain (length (aggregates w))) 0 objects
                  (fun i x => frame_chain _ i x Hj) _ Hw') as Hloop.
    unfold bind.
    destruct (forEach_from _ 0%nat objects _) as [u w''|e w'']; cbn [ret];
      [split; [exact Hloop | exact Hj] | exact Hloop].
Qed.

Lemma frame_then_publish_all j payload :
  touch_agg j -> maintains Inv (then_publish_all j payload).
Proof.
  intros Hj. unfold then_publish_all.
  maintain using (first [apply frame_put_aggregate, Hj | apply frame_defer, Hj]).
Qed.

Lemma frame_sendToSNS payload devices platformArn :
  maintains Inv (sendToSNS payload devices platformArn).
Proof.
  unfold sendToSNS.
  apply maintains_bind;
    [apply maintains_mapM; intros device; apply frame_exchangeTokenPromise|].
  intros exchangePromises.
  apply (maintains_bind_with Inv touch_agg); [apply frame_Parse_Promise_when|].
  intros j Hj.
  maintain using (apply frame_then_publish_all, Hj).
Qed.

Lemma frame_generateAndroidPayload d pushId timeStamp :
  maintains Inv (generateAndroidPayload d pushId timeStamp).
Proof.
  unfold generateAndroidPayload, Date_now.
  maintain using (intros w Hw; apply Inv_randoms, Hw).
Qed.

Lemma frame_sendToGCM a d devices : maintains Inv (sendToGCM a d devices).
Proof.
  unfold sendToGCM, config_of.
  maintain using (first [apply frame_generateAndroidPayload | apply frame_sendToSNS]).
Qed.

Lemma frame_sendToAPNS_loop d devices iosConfigs promises :
  maintains Inv (sendToAPNS_loop d devices iosConfigs promises).
Proof.
  revert promises.
  induction iosConfigs as [|[iosConfig|] rest IH]; intros promises;
    cbn [sendToAPNS_loop].
  - apply maintains_ret.
  - maintain using (first [apply frame_sendToSNS | apply IH]).
  - apply maintains_throw.
Qed.

Lemma frame_sendToAPNS a d devices : maintains Inv (sendToAPNS a d devices).
Proof.
  unfold sendToAPNS, config_of.
  maintain using (apply frame_sendToAPNS_loop).
Qed.

Lemma frame_dispatch a d entry : maintains Inv (dispatch a d entry).
Proof.
  unfold dispatch. destruct entry as [pushType devices].
  maintain using (first [apply frame_sendToAPNS | apply frame_sendToGCM]).
Qed.

Lemma frame_when_returned promises :
  maintains Inv (let* j := Parse_Promise_when promises in ret (WhenOf j)).
Proof.
  apply (maintains_bind_with Inv touch_agg); [apply frame_Parse_Promise_when|].
  intros j _. apply maintains_ret.
Qed.

(** [send] once its argument has been read: classification, dispatch and
    the promise it returns. *)
Lemma frame_send_plain a d installations :
  arn installations = None -> maintains Inv (send a d installations).
Proof.
  intros Harn. unfold send. rewrite Harn.
  maintain using (first [apply frame_dispatch | apply frame_when_returned]).
Qed.

End Frame.

(** ** One device *)

Lemma lookup_fresh {A} (l : list A) (x : A) : (l ++ [x]) !! length l = Some x.
Proof. by apply list_lookup_middle. Qed.

Lemma insert_fresh {A} (l : list A) (x y : A) :
  <[length l := y]> (l ++ [x]) = l ++ [y].
Proof.
  rewrite insert_app_r_alt by lia. by rewrite Nat.sub_diag.
Qed.

Lemma delete_fresh {A} (l : list A) (x : A) : delete (length l) (l ++ [x]) = l.
Proof.
  induction l as [|y l IH]; [reflexivity|]. cbn. f_equal. exact IH.
Qed.

Section OneDevice.
Context `{PushLib}.

Lemma exchangeTokenPromise_handle (device : installation) (tok : string)
    (platformARN : option string) (w : world) :
  deviceToken device = Some tok -> startsWith tok "arn" = true ->
  exchangeTokenPromise device platformARN w =
    Ok (length (promises w))
       (with_promises
          (promises w ++ [{| state := Resolved (VExchange device (topicArn device));
                             callbacks := [] |}]) w).
Proof.
  intros Htok Harn.
  unfold exchangeTokenPromise, token, resolve, settle, bind, ret, new_promise,
    get_promise, put_promise, modify.
  cbn. rewrite Htok. cbn. rewrite Harn. cbn.
  rewrite lookup_fresh. cbn. rewrite insert_fresh. reflexivity.
Qed.

Lemma exchangeTokenPromise_raw (device : installation) (tok : string)
    (platformARN : option string) (w : world) :
  deviceToken device = Some tok -> startsWith tok "arn" = false ->
  exchangeTokenPromise device platformARN w =
    Ok (length (promises w))
       (requested (createPlatformEndpoint platformARN tok)
          (createPlatformEndpoint_cb (length (promises w)) device) w).
Proof.
  intros Htok Harn.
  unfold exchangeTokenPromise, token, getPlatformArn, sns_call, bind, ret,
    new_promise, modify.
  cbn. rewrite Htok. cbn. rewrite Harn. reflexivity.
Qed.

Lemma sendSNSPayload_topic (arn : option string) (payload : json)
    (device : installation) (tok : string) (w : world) :
  deviceToken device = Some tok -> startsWith tok "arn" = true ->
  sendSNSPayload arn payload device w =
    Ok (length (promises w))
       (requested (publish (topic_object payload tok))
          (publish_cb (length (promises w)) (fresh_response device tok)) w).
Proof.
  intros Htok Harn.
  unfold sendSNSPayload, token, sns_call, bind, ret, new_promise, modify.
  rewrite Htok. cbn. rewrite Harn. cbn.
  assert (Ht : negb (String.eqb tok EmptyString) = true).
  { apply (startsWith_truthy tok "arn" Harn). discriminate. }
  rewrite Ht. reflexivity.
Qed.

Lemma sendSNSPayload_endpoint (arn : option string) (payload : json)
    (device : installation) (tok : string) (w : world) :
  deviceToken device = Some tok -> startsWith tok "arn" = false ->
  sendSNSPayload arn payload device w =
    Ok (length (promises w))
       (requested (setEndpointAttributes "true" arn)
          (setEndpointAttributes_cb (length (promises w))
             (endpoint_object payload arn) (fresh_response device tok)) w).
Proof.
  intros Htok Harn.
  unfold sendSNSPayload, token, sns_call, bind, ret, new_promise, modify.
  rewrite Htok. cbn. rewrite Harn. reflexivity.
Qed.

(** Settling a promise nobody registered on. *)
Lemma settle_unobserved (p : nat) (s : pstate) (w : world) :
  promises w !! p = Some pending_cell ->
  settle p s w =
    Ok tt (with_promises (<[p := {| state := s; callbacks := [] |}]> (promises w)) w).
Proof.
  intros Hp. unfold settle, bind, get_promise, put_promise, modify.
  rewrite Hp. reflexivity.
Qed.

Lemma deliver_at_end (l : list (sns_request * callback)) (req : sns_request)
    (cb : callback) (w : world) (err : option sns_error) (data : option sns_data) :
  inflight w = l ++ [(req, cb)] ->
  deliver (length l) err data w = run_callback cb err data (with_inflight l w).
Proof.
  intros E. unfold deliver. rewrite E, lookup_fresh, delete_fresh. reflexivity.
Qed.

Lemma deliver_last (req : sns_request) (cb : callback) (w : world)
    (err : option sns_error) (data : option sns_data) :
  deliver (length (inflight w)) err data (requested req cb w) =
    run_callback cb err data
      (with_trace (trace w ++ [req])
         (with_promises (promises w ++ [pending_cell]) w)).
Proof.
  unfold deliver, requested. cbn. rewrite lookup_fresh, delete_fresh. reflexivity.
Qed.

End OneDevice.

(** C3: for every device whose deviceToken starts with "arn", token
    resolution makes no request to the SNS client and resolves at once to the
    device with its topicArn; the send for that device makes one request, a
    publish whose TopicArn is the deviceToken and whose TargetArn is not set,
    and no setEndpointAttributes request. *)
Theorem handle_token_goes_to_topic `{PushLib} (device : installation) (tok : string)
    (platformARN arn : option string) (payload : json) (w : world) :
  deviceToken device = Some tok -> startsWith tok "arn" = true ->
  let p := length (promises w) in
  let object := {| Message := JSON_stringify payload; MessageStructure := "json";
                   TargetArn := None; TopicArn := Some tok |} in
  (exists w1,
     exchangeTokenPromise device platformARN w = Ok p w1
     /\ promise_state w1 (Made p) = Some (Resolved (VExchange device (topicArn device)))
     /\ trace w1 = trace w
     /\ inflight w1 = inflight w)
  /\ (exists w2 r,
     sendSNSPayload arn payload device w = Ok p w2
     /\ trace w2 = trace w ++ [publish object]
     /\ inflight w2 = inflight w ++ [(publish object, publish_cb p r)]
     /\ promise_state w2 (Made p) = Some Pending).
Proof.
  intros Htok Harn p object. subst p object. split.
  - eexists. split; [apply (exchangeTokenPromise_handle _ tok); assumption|].
    cbn. rewrite lookup_fresh. repeat split.
  - eexists. eexists. split; [apply (sendSNSPayload_topic _ _ _ tok); assumption|].
    cbn. rewrite lookup_fresh. repeat split.
Qed.

Lemma handle_token_goes_to_topic_witness :
  (exists w1,
     @exchangeTokenPromise Reference.lib topic_device endpoint_1 empty_world = Ok 0%nat w1
     /\ trace w1 = [] /\ inflight w1 = [])
  /\ (exists w2,
     @sendSNSPayload Reference.lib (topicArn topic_device) (JObj []) topic_device
        empty_world = Ok 0%nat w2
     /\ trace w2 = [publish {| Message := "{}"; MessageStructure := "json";
                               TargetArn := None;
                               TopicArn := Some "arn:aws:sns:us-east-1:1:news" |}]).
Proof.
  destruct (@handle_token_goes_to_topic Reference.lib topic_device
              "arn:aws:sns:us-east-1:1:news" endpoint_1 (topicArn topic_device)
              (JObj []) empty_world eq_refl eq_refl)
    as [(w1 & E1 & _ & T1 & I1) (w2 & r & E2 & T2 & _)].
  split; [exists w1 | exists w2]; auto.
Defined.

(** C2 (amended): for every send to a device whose deviceToken does not
    start with "arn", the first request is setEndpointAttributes with Enabled
    "true" and no publish has been made; if that request fails, the promise
    of the device is rejected with transmitted false and no publish is made;
    if it succeeds with data that is not null, publish is requested for the
    TargetArn, and the promise is rejected with transmitted false (and the
    stack of the error, when it has one) or resolved with transmitted true
    and the data of publish, as publish fails or succeeds. *)
Theorem endpoint_send_enables_before_publish `{PushLib} (arn : option string)
    (payload : json) (device : installation) (tok : string) (w : world) :
  deviceToken device = Some tok -> startsWith tok "arn" = false ->
  let p := length (promises w) in
  let n := length (inflight w) in
  let enable := setEndpointAttributes "true" arn in
  let object := {| Message := JSON_stringify payload; MessageStructure := "json";
                   TargetArn := arn; TopicArn := None |} in
  exists w1,
    sendSNSPayload arn payload device w = Ok p w1
    /\ trace w1 = trace w ++ [enable]
    /\ (exists cb, inflight w1 = inflight w ++ [(enable, cb)])
    /\ promise_state w1 (Made p) = Some Pending
    /\ (forall e data, exists w2 out,
          deliver n (Some e) data w1 = Ok tt w2
          /\ promise_state w2 (Made p) = Some (Rejected (VResponse out))
          /\ transmitted out = Some false
          /\ trace w2 = trace w1
          /\ inflight w2 = inflight w)
    /\ (forall d, exists w2,
          deliver n None (Some d) w1 = Ok tt w2
          /\ trace w2 = trace w1 ++ [publish object]
          /\ promise_state w2 (Made p) = Some Pending
          /\ (forall e data, exists w3 out,
                deliver n (Some e) data w2 = Ok tt w3
                /\ promise_state w3 (Made p) = Some (Rejected (VResponse out))
                /\ transmitted out = Some false
                /\ response_ out = (if truthy (stack e)
                                    then Stack (default EmptyString (stack e))
                                    else NotSet))
          /\ (forall data, exists w3 out,
                deliver n None data w2 = Ok tt w3
                /\ promise_state w3 (Made p) = Some (Resolved (VResponse out))
                /\ transmitted out = Some true
                /\ response_ out = Data data)).
Proof.
  intros Htok Harn p n enable object. subst p n enable object.
  eexists. split; [apply (sendSNSPayload_endpoint _ _ _ tok); assumption|].
  split; [reflexivity|]. split; [eexists; reflexivity|].
  split; [cbn; rewrite lookup_fresh; reflexivity|].
  split.
  - intros e data. rewrite deliver_last. cbn [run_callback].
    unfold setEndpointAttributes_callback, reject.
    rewrite settle_unobserved by (cbn; apply lookup_fresh).
    eexists. eexists. split; [reflexivity|].
    cbn. rewrite insert_fresh, lookup_fresh. cbn.
    split; [reflexivity|]. split; [destruct (truthy (stack e)); reflexivity|].
    split; reflexivity.
  - intros d. rewrite deliver_last. cbn [run_callback].
    unfold setEndpointAttributes_callback, sns_call, modify.
    eexists. split; [reflexivity|]. split; [reflexivity|].
    split; [cbn; rewrite lookup_fresh; reflexivity|].
    split.
    + intros e data. erewrite deliver_at_end by reflexivity. cbn [run_callback].
      unfold publish_callback, reject.
      rewrite settle_unobserved by (cbn; apply lookup_fresh).
      eexists. eexists. split; [reflexivity|].
      cbn. rewrite insert_fresh, lookup_fresh. cbn.
      split; [reflexivity|]. destruct (truthy (stack e)); split; reflexivity.
    + intros data. erewrite deliver_at_end by reflexivity. cbn [run_callback].
      unfold publish_callback, resolve.
      rewrite settle_unobserved by (cbn; apply lookup_fresh).
      eexists. eexists. split; [reflexivity|].
      cbn. rewrite insert_fresh, lookup_fresh. cbn.
      split; [reflexivity|]. split; reflexivity.
Qed.

Lemma endpoint_send_enables_before_publish_witness :
  exists w1 w2 d,
    @sendSNSPayload Reference.lib endpoint_1 (JObj []) ios_with_bundle empty_world
      = Ok 0%nat w1
    /\ @deliver Reference.lib 0 None (Some d) w1 = Ok tt w2
    /\ trace w2 = [setEndpointAttributes "true" endpoint_1;
                   publish {| Message := "{}"; MessageStructure := "json";
                              TargetArn := endpoint_1; TopicArn := None |}].
Proof.
  destruct (@endpoint_send_enables_before_publish Reference.lib endpoint_1 (JObj [])
              ios_with_bundle "a1b2c3" empty_world eq_refl eq_refl)
    as (w1 & E1 & T1 & _ & _ & _ & Hok).
  destruct (Hok {| EndpointArn := None; MessageId := None |}) as (w2 & E2 & T2 & _).
  exists w1, w2, {| EndpointArn := None; MessageId := None |}.
  split; [exact E1|]. split; [exact E2|]. rewrite T2, T1. reflexivity.
Defined.

(** C2, as stated, fails: setEndpointAttributes succeeds (no error) with null
    data, and no publish is attempted; the promise of the device stays
    pending. *)
Lemma enable_without_data_publishes_nothing :
  exists w1 w2,
    @sendSNSPayload Reference.lib endpoint_1 (JObj []) ios_with_bundle empty_world
      = Ok 0%nat w1
    /\ inflight w1 = [(setEndpointAttributes "true" endpoint_1,
                       setEndpointAttributes_cb 0
                         {| Message := "{}"; MessageStructure := "json";
                            TargetArn := endpoint_1; TopicArn := None |}
                         (fresh_response ios_with_bundle "a1b2c3"))]
    /\ @deliver Reference.lib 0 None None w1 = Ok tt w2
    /\ trace w2 = [setEndpointAttributes "true" endpoint_1]
    /\ inflight w2 = []
    /\ promise_state w2 (Made 0) = Some Pending.
Proof.
  do 2 eexists.
  split; [vm_compute; reflexivity|]. split; [reflexivity|].
  split; [vm_compute; reflexivity|]. repeat split.
Qed.

(** ** Android framing *)

(** C7: for every notification body, the Android framer returns an object
    with the single key "GCM" holding a string; whenever the JSON text of the
    framed object parses back to it, that string parses to the object made of
    the fields of the GCM payload and a "default" key holding "sns"; when no
    pushId is supplied, the token is the random string of 10 characters; and
    a second run on the same input returns the same object if it draws the
    same token and reads the same clock. *)
Theorem generateAndroidPayload_envelope `{PushLib} (d : push_data)
    (pushId : option string) (timeStamp : option Z) (w : world) :
  let id := if truthy pushId then default EmptyString pushId
            else utils_randomString (randoms w) 10 in
  let ts := if truthy_num timeStamp then default 0 timeStamp else now w in
  let native := GCM_generateGCMPayload (data d) id ts (expirationTime d) in
  let object := obj_set "default" (JStr "sns") native in
  JSON_parse (JSON_stringify (JObj object)) = Some (JObj object) ->
  exists s w',
    generateAndroidPayload d pushId timeStamp w = Ok (JObj [("GCM", JStr s)]) w'
    /\ JSON_parse s = Some (JObj object)
    /\ obj_get "default" object = Some (JStr "sns")
    /\ (forall k, k <> "default" -> obj_get k object = obj_get k native)
    /\ (truthy pushId = false -> String.length id = 10%nat)
    /\ (forall w2,
          utils_randomString (randoms w2) 10 = utils_randomString (randoms w) 10 ->
          now w2 = now w ->
          exists w2', generateAndroidPayload d pushId timeStamp w2
                      = Ok (JObj [("GCM", JStr s)]) w2').
Proof.
  intros id ts native object Hparse.
  exists (JSON_stringify (JObj object)).
  assert (Hrun : forall w2,
    utils_randomString (randoms w2) 10 = utils_randomString (randoms w) 10 ->
    now w2 = now w ->
    exists w2', generateAndroidPayload d pushId timeStamp w2
                = Ok (JObj [("GCM", JStr (JSON_stringify (JObj object)))]) w2').
  { intros w2 Hr Hn. subst object native id ts.
    unfold generateAndroidPayload, randomString, Date_now, bind, ret, get.
    destruct (truthy pushId), (truthy_num timeStamp); cbn;
      rewrite ?Hr, ?Hn; eexists; reflexivity. }
  destruct (Hrun w eq_refl eq_refl) as [w' Hw'].
  exists w'. split; [exact Hw'|]. split; [exact Hparse|].
  split; [apply obj_get_set|].
  split; [intros k Hk; apply obj_get_set_other, Hk|].
  split; [|exact Hrun].
  intros Hno. subst id. rewrite Hno. apply utils_randomString_length.
Qed.

Lemma generateAndroidPayload_envelope_witness :
  exists s w',
    @generateAndroidPayload Reference.lib greeting None None empty_world
      = Ok (JObj [("GCM", JStr s)]) w'
    /\ Reference.parse s =
         Some (JObj [("priority", JStr "normal");
                     ("data", JObj [("time", JNum 0); ("push_id", JStr "adgjmpsvyb");
                                    ("data", JObj [("alert", JStr "hello")])]);
                     ("time_to_live", JNum 5);
                     ("default", JStr "sns")]).
Proof.
  destruct (@generateAndroidPayload_envelope Reference.lib greeting None None empty_world)
    as (s & w' & Hrun & Hparse & _).
  - vm_compute. reflexivity.
  - exists s, w'. split; [exact Hrun | exact Hparse].
Defined.

(** ** The installation objects *)

Lemma scenario_adapter_constructed :
  SNSPushAdapter scenario_config = Constructed scenario_adapter.
Proof. reflexivity. Qed.

Lemma rewrite_tokens_eq (l : list nat) (w : world) :
  forEach (fun loc =>
             modify (fun w => with_store (alter token_from_topic loc (store w)) w)) l w
  = Ok tt (with_store (foldl (fun s loc => alter token_from_topic loc s) (store w) l) w).
Proof.
  revert w. induction l as [|loc l IH]; intros w.
  - destruct w; reflexivity.
  - cbn [forEach foldl]. unfold bind at 1. unfold modify at 1.
    rewrite IH. reflexivity.
Qed.

Lemma lookup_rewritten (l : list nat) (s : list installation) (loc : nat) :
  foldl (fun s loc => alter token_from_topic loc s) s l !! loc
  = if bool_decide (loc ∈ l) then token_from_topic <$> s !! loc else s !! loc.
Proof.
  revert s. induction l as [|a l IH]; intros s; [reflexivity|].
  cbn [foldl]. rewrite IH.
  destruct (decide (loc = a)) as [->|Hne].
  - rewrite list_lookup_alter_eq. rewrite (bool_decide_eq_true_2 (a ∈ a :: l)) by left.
    destruct (bool_decide (a ∈ l)); [|reflexivity].
    destruct (s !! a); reflexivity.
  - rewrite list_lookup_alter_ne by congruence.
    destruct (bool_decide (loc ∈ l)) eqn:E.
    + apply bool_decide_eq_true_1 in E.
      rewrite bool_decide_eq_true_2 by (right; exact E). reflexivity.
    + apply bool_decide_eq_false_1 in E.
      rewrite bool_decide_eq_false_2; [reflexivity|].
      intros Hin. apply elem_of_cons in Hin. tauto.
Qed.

Section Store.
Context `{PushLib}.

Lemma send_plain_keeps_store a d installations w :
  arn installations = None ->
  store (world_of (send a d installations w)) = store w.
Proof.
  intros Harn.
  apply (frame_send_plain (fun w' => store w' = store w) (fun _ => True) (fun _ => True));
    try frame_trivial.
Qed.

Lemma send_rest_keeps_store a d (l : list nat) (s : list installation) :
  maintains (fun w' => store w' = s)
    (let* objects := get (fun w => omap (fun loc => store w !! loc) l) in
     let deviceMap := classifyInstallations objects (availablePushTypes a) in
     let* _ := forEach (dispatch a d) deviceMap in
     let sendPromises := VUndefined in
     let* j := Parse_Promise_when sendPromises in
     ret (WhenOf j)).
Proof.
  maintain using
    (first [ apply (frame_dispatch _ (fun _ => True) (fun _ => True)); frame_trivial
           | apply (frame_when_returned _ (fun _ => True) (fun _ => True)); frame_trivial ]).
Qed.

(** C9 (amended): when the installations argument carries no arn property,
    send leaves every installation object unchanged; when it carries one,
    send sets the deviceToken of each installation of that array to its
    topicArn, changes no other field, and leaves every other installation
    unchanged. *)
Theorem send_rewrites_only_topic_tokens a d installations w :
  (arn installations = None ->
     store (world_of (send a d installations w)) = store w)
  /\ (forall l, arn installations = Some l ->
        forall loc,
          store (world_of (send a d installations w)) !! loc =
            if bool_decide (loc ∈ l)
            then (fun i => {| deviceType := deviceType i;
                              deviceToken := topicArn i;
                              appIdentifier := appIdentifier i;
                              topicArn := topicArn i |}) <$> store w !! loc
            else store w !! loc).
Proof.
  split; [apply send_plain_keeps_store|].
  intros l Harn loc.
  rewrite <- lookup_rewritten.
  f_equal. unfold send. rewrite Harn.
  unfold bind at 1. unfold bind at 1. rewrite rewrite_tokens_eq. cbn [ret].
  apply (send_rest_keeps_store a d l _ (with_store _ w)). reflexivity.
Qed.

End Store.

Lemma send_rewrites_only_topic_tokens_witness :
  store (world_of (@send Reference.lib scenario_adapter greeting
                     {| items := [0%nat]; arn := None |}
                     (with_store [subscriber] empty_world)))
  = [subscriber]
  /\ store (world_of (@send Reference.lib scenario_adapter greeting
                        {| items := []; arn := Some [0%nat] |}
                        (with_store [subscriber; android_device] empty_world))) !! 0%nat
     = Some {| deviceType := Some "ios";
               deviceToken := Some "arn:aws:sns:us-east-1:1:news";
               appIdentifier := None;
               topicArn := Some "arn:aws:sns:us-east-1:1:news" |}
  /\ store (world_of (@send Reference.lib scenario_adapter greeting
                        {| items := []; arn := Some [0%nat] |}
                        (with_store [subscriber; android_device] empty_world))) !! 1%nat
     = Some android_device.
Proof.
  split; [|split].
  - apply (proj1 (@send_rewrites_only_topic_tokens Reference.lib scenario_adapter greeting
                    {| items := [0%nat]; arn := None |}
                    (with_store [subscriber] empty_world))).
    reflexivity.
  - rewrite (proj2 (@send_rewrites_only_topic_tokens Reference.lib scenario_adapter greeting
                      {| items := []; arn := Some [0%nat] |}
                      (with_store [subscriber; android_device] empty_world))
               [0%nat] eq_refl 0%nat).
    reflexivity.
  - rewrite (proj2 (@send_rewrites_only_topic_tokens Reference.lib scenario_adapter greeting
                      {| items := []; arn := Some [0%nat] |}
                      (with_store [subscriber; android_device] empty_world))
               [0%nat] eq_refl 1%nat).
    reflexivity.
Defined.

(** C9, as stated, fails: handed an argument with an arn array, send
    overwrites the deviceToken of the installation in it. *)
Lemma send_overwrites_deviceToken :
  arn {| items := []; arn := Some [0%nat] |} <> None
  /\ store (with_store [subscriber] empty_world) = [subscriber]
  /\ store (world_of (@send Reference.lib scenario_adapter greeting
                        {| items := []; arn := Some [0%nat] |}
                        (with_store [subscriber] empty_world)))
     = [ {| deviceType := Some "ios";
            deviceToken := Some "arn:aws:sns:us-east-1:1:news";
            appIdentifier := None;
            topicArn := Some "arn:aws:sns:us-east-1:1:news" |} ]
  /\ store (world_of (@send Reference.lib scenario_adapter greeting
                        {| items := []; arn := Some [0%nat] |}
                        (with_store [subscriber] empty_world)))
     <> store (with_store [subscriber] empty_world).
Proof.
  split; [discriminate|]. split; [reflexivity|].
  split; [vm_compute; reflexivity|]. vm_compute. discriminate.
Qed.

(** ** A promise nobody will settle *)

Lemma delete_app_l {A} (l1 l2 : list A) (n : nat) :
  (n < length l1)%nat -> delete n (l1 ++ l2) = delete n l1 ++ l2.
Proof.
  revert n. induction l1 as [|x l1 IH]; intros n Hn; cbn in *; [lia|].
  destruct n as [|n]; [reflexivity|]. cbn. f_equal. apply IH. lia.
Qed.

Lemma delete_app_r {A} (l1 l2 : list A) (n : nat) :
  (length l1 <= n)%nat -> delete n (l1 ++ l2) = l1 ++ delete (n - length l1)%nat l2.
Proof.
  revert n. induction l1 as [|x l1 IH]; intros n Hn; cbn in *.
  - f_equal. lia.
  - destruct n as [|n]; [lia|]. cbn. f_equal. apply IH. lia.
Qed.

Lemma Forall_delete {A} (P : A -> Prop) (l : list A) (n : nat) :
  Forall P l -> Forall P (delete n l).
Proof.
  rewrite !Forall_forall. intros Hl x Hx.
  apply Hl. eapply list_elem_of_delete_inv, Hx.
Qed.

Lemma pending_lookup_app (ps : list promise) (c : promise) (p : nat) (s : pstate) :
  state <$> ps !! p = Some s -> state <$> (ps ++ [c]) !! p = Some s.
Proof.
  intros Hp. destruct (ps !! p) as [c'|] eqn:E; [|discriminate].
  rewrite (lookup_app_l_Some _ _ _ _ E). exact Hp.
Qed.

Lemma pending_lookup_lt (ps : list promise) (p : nat) (s : pstate) :
  state <$> ps !! p = Some s -> (p < length ps)%nat.
Proof.
  intros Hp. destruct (ps !! p) as [c'|] eqn:E; [|discriminate].
  exact (lookup_lt_Some _ _ _ E).
Qed.

Lemma pending_lookup_insert (ps : list promise) (p q : nat) (c c' : promise) :
  state <$> ps !! p = Some Pending -> ps !! q = Some c ->
  (q = p -> state c' = Pending) ->
  state <$> <[q := c']> ps !! p = Some Pending.
Proof.
  intros Hp Hq Hc. destruct (decide (q = p)) as [->|Hne].
  - rewrite list_lookup_insert_eq by exact (lookup_lt_Some _ _ _ Hq).
    cbn. f_equal. auto.
  - rewrite list_lookup_insert_ne by exact Hne. exact Hp.
Qed.

Section Unanswered.
Context `{PushLib}.

Lemma unanswered_steps (p : nat) (w w' : world) :
  unanswered p w -> steps w w' -> unanswered p w'.
Proof.
  apply (frame_steps (unanswered p) (fun q => q <> p) (fun _ => True)).
  - intros w0 [Hp Hf]. split; [split|]; cbn.
    + apply pending_lookup_app, Hp.
    + exact Hf.
    + apply pending_lookup_lt in Hp. lia.
  - intros w0 q c s [Hp Hf] Hq Hc Hs. split; cbn; [|exact Hf].
    eapply pending_lookup_insert; [exact Hp | exact Hc | congruence].
  - intros; apply Forall_true; intros; exact Logic.I.
  - intros w0 j a Hw _. exact Hw.
  - intros w0 req cb [Hp Hf] Hcb. split; cbn; [exact Hp|].
    apply Forall_app. split; [exact Hf|]. constructor; [exact Hcb | constructor].
  - intros w0 n req cb [Hp Hf] Hn. split; [split; cbn|].
    + exact Hp.
    + apply Forall_delete, Hf.
    + rewrite Forall_lookup in Hf. exact (Hf n _ Hn).
  - intros w0 t Hw _. exact Hw.
  - intros w0 t rest Hw _. split; [exact Hw | exact Logic.I].
Qed.

Lemma awaiting_enable_callback (p : nat) (cb : callback)
    (err : option sns_error) (data : option sns_data) :
  cb_promise cb <> p -> maintains (awaiting_enable p) (run_callback cb err data).
Proof.
  apply (frame_run_callback (awaiting_enable p) (fun q => q <> p) (fun _ => True)).
  - intros w0 [Hp Hf]. split; [split|]; cbn.
    + apply pending_lookup_app, Hp.
    + exact Hf.
    + apply pending_lookup_lt in Hp. lia.
  - intros w0 q c s [Hp Hf] Hq Hc Hs. split; cbn; [|exact Hf].
    eapply pending_lookup_insert; [exact Hp | exact Hc | congruence].
  - intros; apply Forall_true; intros; exact Logic.I.
  - intros w0 j a Hw _. exact Hw.
  - intros w0 req cb' [Hp (before & after & req0 & object & r & E & Hb & Ha)] Hcb.
    split; cbn; [exact Hp|].
    exists before, (after ++ [(req, cb')]), req0, object, r.
    split; [rewrite E, <- app_assoc; reflexivity|].
    split; [exact Hb|].
    apply Forall_app. split; [exact Ha|]. constructor; [exact Hcb | constructor].
  - intros w0 t Hw _. exact Hw.
Qed.

Lemma awaiting_enable_tick (p : nat) (t : tick) :
  maintains (awaiting_enable p) (run_tick t).
Proof.
  apply (frame_run_tick (awaiting_enable p) (fun q => q <> p) (fun _ => True)).
  - intros w0 [Hp Hf]. split; [split|]; cbn.
    + apply pending_lookup_app, Hp.
    + exact Hf.
    + apply pending_lookup_lt in Hp. lia.
  - intros w0 j a Hw _. exact Hw.
  - intros w0 req cb' [Hp (before & after & req0 & object & r & E & Hb & Ha)] Hcb.
    split; cbn; [exact Hp|].
    exists before, (after ++ [(req, cb')]), req0, object, r.
    split; [rewrite E, <- app_assoc; reflexivity|].
    split; [exact Hb|].
    apply Forall_app. split; [exact Ha|]. constructor; [exact Hcb | constructor].
  - intros w0 t0 Hw _. exact Hw.
  - exact Logic.I.
Qed.

Lemma awaiting_enable_elsewhere (p : nat) (w w' : world) :
  awaiting_enable p w -> steps_elsewhere p w w' -> awaiting_enable p w'.
Proof.
  intros Hw Hs.
  induction Hs as [w|w1 w2 w3 n err data req cb _ IH Hn Hcb E|w1 w2 w3 _ IH E];
    [exact Hw| |].
  2:{ specialize (IH Hw). unfold next_tick in E.
      destruct (ticks w2) as [|t rest] eqn:Ht; [discriminate|].
      exact (maintains_ok _ _ (with_ticks rest w2) _ _ (awaiting_enable_tick p t) IH E). }
  specialize (IH Hw). unfold deliver in E. rewrite Hn in E.
  refine (maintains_ok _ _ _ _ _ (awaiting_enable_callback p cb err data Hcb) _ E).
  destruct IH as [Hp (before & after & req0 & object & r & Ein & Hb & Ha)].
  split; [exact Hp|]. cbn. rewrite Ein in Hn |- *.
  destruct (lt_eq_lt_dec n (length before)) as [[Hlt|Heq]|Hgt].
  - exists (delete n before), after, req0, object, r.
    split; [apply delete_app_l, Hlt|]. split; [apply Forall_delete, Hb | exact Ha].
  - subst n. rewrite list_lookup_middle in Hn by reflexivity.
    injection Hn as _ <-. cbn in Hcb. congruence.
  - exists before, (delete (n - length before - 1)%nat after), req0, object, r.
    split; [|split; [exact Hb | apply Forall_delete, Ha]].
    rewrite delete_app_r by lia.
    destruct (n - length before)%nat as [|k] eqn:En; [lia|].
    replace (S k - 1)%nat with k by lia. reflexivity.
Qed.

Lemma awaiting_enable_null_data (p : nat) (w : world) :
  awaiting_enable p w ->
  exists n w2,
    (exists req object r,
       inflight w !! n = Some (req, setEndpointAttributes_cb p object r))
    /\ deliver n None None w = Ok tt w2
    /\ trace w2 = trace w
    /\ unanswered p w2.
Proof.
  intros [Hp (before & after & req & object & r & E & Hb & Ha)].
  exists (length before), (with_inflight (before ++ after) w).
  assert (Hn : inflight w !! length before
               = Some (req, setEndpointAttributes_cb p object r)).
  { rewrite E. apply list_lookup_middle. reflexivity. }
  split; [eauto|].
  split; [unfold deliver; rewrite Hn, E, delete_middle; reflexivity|].
  split; [reflexivity|].
  split; [exact Hp|]. cbn. apply Forall_app. split; assumption.
Qed.

End Unanswered.

(** C10: for every send to a device whose deviceToken does not start with
    "arn", made in a world whose requests in flight refer to existing
    promises: once other requests have completed in any number, the
    setEndpointAttributes request of the send is still in flight; when it
    completes without error and with null data, no request is made, and in
    every later world the promise of the send is pending and no request in
    flight carries a callback on it: no publish, and no outcome. *)
Theorem null_data_leaves_send_pending `{PushLib} (arn : option string)
    (payload : json) (device : installation) (tok : string) (w : world) :
  deviceToken device = Some tok -> startsWith tok "arn" = false ->
  Forall (fun e => (cb_promise e.2 < length (promises w))%nat) (inflight w) ->
  let p := length (promises w) in
  exists w1,
    sendSNSPayload arn payload device w = Ok p w1
    /\ forall w1', steps_elsewhere p w1 w1' ->
       exists n w2,
         (exists req object r,
            inflight w1' !! n = Some (req, setEndpointAttributes_cb p object r))
         /\ deliver n None None w1' = Ok tt w2
         /\ trace w2 = trace w1'
         /\ forall w3, steps w2 w3 ->
              promise_state w3 (Made p) = Some Pending
              /\ Forall (fun e => cb_promise e.2 <> p) (inflight w3).
Proof.
  intros Htok Harn Hwf p. subst p.
  eexists. split; [apply (sendSNSPayload_endpoint _ _ _ tok); assumption|].
  intros w1' Hsteps.
  assert (Hstart : awaiting_enable (length (promises w))
                     (requested (setEndpointAttributes "true" arn)
                        (setEndpointAttributes_cb (length (promises w))
                           (endpoint_object payload arn) (fresh_response device tok)) w)).
  { split; [cbn; rewrite lookup_fresh; reflexivity|].
    exists (inflight w), [], (setEndpointAttributes "true" arn),
      (endpoint_object payload arn), (fresh_response device tok).
    split; [reflexivity|]. split; [|constructor].
    eapply Forall_impl; [exact Hwf|]. cbn. intros e He. lia. }
  destruct (awaiting_enable_null_data _ _
              (awaiting_enable_elsewhere _ _ _ Hstart Hsteps))
    as (n & w2 & Hn & Hd & Ht & Hu).
  exists n, w2. split; [exact Hn|]. split; [exact Hd|]. split; [exact Ht|].
  intros w3 Hs3. exact (unanswered_steps _ _ _ Hu Hs3).
Qed.

Lemma null_data_leaves_send_pending_witness :
  exists w1 n w2,
    @sendSNSPayload Reference.lib endpoint_1 (JObj []) ios_with_bundle empty_world
      = Ok 0%nat w1
    /\ @deliver Reference.lib n None None w1 = Ok tt w2
    /\ trace w2 = trace w1
    /\ forall w3, @steps Reference.lib w2 w3 ->
         promise_state w3 (Made 0) = Some Pending.
Proof.
  destruct (@null_data_leaves_send_pending Reference.lib endpoint_1 (JObj [])
              ios_with_bundle "a1b2c3" empty_world eq_refl eq_refl
              (List.Forall_nil _))
    as (w1 & E1 & Hrest).
  destruct (Hrest w1 (elsewhere_refl _ _)) as (n & w2 & _ & Hd & Ht & Hever).
  exists w1, n, w2. split; [exact E1|]. split; [exact Hd|]. split; [exact Ht|].
  intros w3 Hs. exact (proj1 (Hever w3 Hs)).
Defined.

(** ** The exchange phase of a group *)

Lemma count_pending_insert (states : list pstate) (i : nat) (s : pstate) :
  states !! i = Some Pending -> is_pending s = false ->
  count_pending states = S (count_pending (<[i := s]> states)).
Proof.
  unfold count_pending. revert i.
  induction states as [|x states IH]; intros i Hi Hs; [discriminate|].
  destruct i as [|i]; cbn in Hi |- *.
  - injection Hi as ->. cbn. rewrite Hs. reflexivity.
  - destruct (is_pending x); cbn; rewrite (IH i Hi Hs); reflexivity.
Qed.

Lemma count_pending_positive (states : list pstate) :
  (0 < count_pending states)%nat -> exists i, states !! i = Some Pending.
Proof.
  unfold count_pending. induction states as [|x states IH]; cbn; [lia|].
  destruct x; cbn; intros Hc.
  - exists 0%nat. reflexivity.
  - destruct (IH Hc) as [i Hi]. exists (S i). exact Hi.
  - destruct (IH Hc) as [i Hi]. exists (S i). exact Hi.
Qed.

Lemma count_pending_zero (states : list pstate) (i : nat) (s : pstate) :
  count_pending states = 0%nat -> states !! i = Some s -> is_pending s = false.
Proof.
  unfold count_pending. revert i.
  induction states as [|x states IH]; intros i Hc Hi; [discriminate|].
  cbn in Hc. destruct i as [|i]; cbn in Hi.
  - injection Hi as ->. destruct (is_pending s); [discriminate | reflexivity].
  - destruct (is_pending x); [discriminate|]. exact (IH i Hc Hi).
Qed.

Lemma has_rejected_insert (states : list pstate) (i : nat) (s : pstate) :
  states !! i = Some Pending ->
  existsb is_rejected (<[i := s]> states) = is_rejected s || existsb is_rejected states.
Proof.
  revert i. induction states as [|x states IH]; intros i Hi; [discriminate|].
  destruct i as [|i]; cbn in Hi.
  - injection Hi as ->. reflexivity.
  - change (<[S i := s]> (x :: states)) with (x :: <[i := s]> states).
    cbn [existsb]. rewrite (IH i Hi).
    destruct (is_rejected x), (is_rejected s); reflexivity.
Qed.

Lemma has_rejected_false (states : list pstate) (i : nat) (s : pstate) :
  existsb is_rejected states = false -> states !! i = Some s -> is_rejected s = false.
Proof.
  revert i. induction states as [|x states IH]; intros i Hc Hi; [discriminate|].
  cbn in Hc. apply orb_false_iff in Hc as [Hx Hc].
  destruct i as [|i]; cbn in Hi.
  - injection Hi as ->. exact Hx.
  - exact (IH i Hc Hi).
Qed.

Lemma settled_resolved (s : pstate) :
  is_pending s = false -> is_rejected s = false -> exists v, s = Resolved v.
Proof. destruct s; try discriminate. eauto. Qed.

Section Exchange.
Context `{PushLib}.

Lemma createPlatformEndpoint_callback_settles (p : nat) (device : installation)
    (err : option sns_error) (data : option sns_data) :
  createPlatformEndpoint_callback p device err data
  = settle p (exchange_outcome device err data).
Proof.
  unfold createPlatformEndpoint_callback, exchange_outcome, resolve, reject.
  destruct data as [d|]; [destruct (truthy (EndpointArn d))|]; reflexivity.
Qed.

Lemma exchange_outcome_settled device err data :
  is_pending (exchange_outcome device err data) = false.
Proof.
  unfold exchange_outcome.
  destruct data as [d|]; [destruct (truthy (EndpointArn d))|]; reflexivity.
Qed.

Lemma settle_settled (p : nat) (s : pstate) (c : promise) (w : world) :
  promises w !! p = Some c -> is_pending (state c) = false ->
  settle p s w = Throw already_settled w.
Proof.
  intros Hp Hc. unfold settle, bind, get_promise. rewrite Hp.
  destruct (state c); [discriminate | reflexivity | reflexivity].
Qed.

Lemma settle_pending (p : nat) (s : pstate) (c : promise) (w : world) :
  promises w !! p = Some c -> state c = Pending ->
  settle p s w =
    forEach (notify s) (callbacks c)
      (with_promises (<[p := {| state := s; callbacks := callbacks c |}]> (promises w)) w).
Proof.
  intros Hp Hc. unfold settle, bind, get_promise, put_promise, modify.
  rewrite Hp, Hc. reflexivity.
Qed.

Lemma notify_settled (s : pstate) (j index : nat) (a : aggregate) (w : world) :
  aggregates w !! j = Some a -> is_pending s = false ->
  notify s (j, index) w =
    try_catch (resolveOne j) (fun _ => ret tt)
      (with_aggregates (<[j := record_outcome index s a]> (aggregates w)) w).
Proof.
  intros Hj Hs. destruct s; [discriminate| |];
    unfold notify, try_catch, bind, get_aggregate, put_aggregate, modify;
    rewrite Hj; reflexivity.
Qed.

Lemma resolveOne_eq (j : nat) (a : aggregate) (w : world) :
  aggregates w !! j = Some a ->
  resolveOne j w =
    let a' := set_total (total a - 1) a in
    let w' := with_aggregates (<[j := a']> (aggregates w)) w in
    if total a' <=? 0 then
      if hadError a' then settle_when j (Rejected (VArray (errors a'))) w'
      else settle_when j (Resolved (returnValue a')) w'
    else Ok tt w'.
Proof.
  intros Hj. unfold resolveOne, bind, get_aggregate, put_aggregate, modify, ret.
  rewrite Hj. cbv zeta.
  destruct (total (set_total (total a - 1) a) <=? 0); [|reflexivity].
  destruct (hadError (set_total (total a - 1) a)); reflexivity.
Qed.

Lemma settle_when_rejected (j : nat) (a : aggregate) (e : value) (payload : json)
    (w : world) :
  aggregates w !! j = Some a ->
  when_promise a = Pending -> then_promise a = Pending ->
  then_callback a = Some payload ->
  settle_when j (Rejected e) w =
    Ok tt (with_aggregates
             (<[j := set_then_promise (Rejected e) (set_when_promise (Rejected e) a)]>
                (aggregates w)) w).
Proof.
  intros Hj Hw Ht Hc.
  unfold settle_when, run_then, settle_then, bind, get_aggregate, put_aggregate, modify.
  rewrite Hj, Hw. world_simpl. rewrite Hc. world_simpl.
  rewrite list_lookup_insert_eq by exact (lookup_lt_Some _ _ _ Hj).
  cbn [then_promise set_when_promise]. rewrite Ht.
  world_simpl. rewrite list_insert_insert_eq. reflexivity.
Qed.


Lemma settled_at_new q s w :
  settled_at q s w ->
  settled_at q s (with_promises (promises w ++ [pending_cell]) w) /\ True.
Proof.
  intros [Hs Hw]. split; [|exact Logic.I]. split; [exact Hs|].
  apply pending_lookup_app, Hw.
Qed.

Lemma settled_at_settle q s w p c s' :
  settled_at q s w -> True -> promises w !! p = Some c -> state c = Pending ->
  settled_at q s
    (with_promises (<[p := {| state := s'; callbacks := callbacks c |}]> (promises w)) w).
Proof.
  unfold settled_at. intros [Hs Hw] _ Hp Hc. split; [exact Hs|]. world_simpl.
  rewrite list_lookup_insert_ne; [exact Hw|].
  intros ->. rewrite Hp in Hw. cbn in Hw. injection Hw as <-.
  rewrite Hc in Hs. discriminate.
Qed.

Ltac settled_at_facts :=
  first [ apply settled_at_new
        | apply settled_at_settle
        | (intros; apply Forall_true; intros; exact Logic.I)
        | exact Logic.I
        | (intros; split; [assumption | exact Logic.I])
        | (intros; assumption) ].

Lemma settled_at_settle_when (q : nat) (s : pstate) (j : nat) (s' : pstate) :
  maintains (settled_at q s) (settle_when j s').
Proof.
  apply (frame_settle_when (settled_at q s) (fun _ => True) (fun _ => True));
    settled_at_facts.
Qed.

Lemma settled_at_notify (q : nat) (s s' : pstate) (target : nat * nat) :
  maintains (settled_at q s) (notify s' target).
Proof.
  apply (frame_notify (settled_at q s) (fun _ => True) (fun _ => True));
    settled_at_facts.
Qed.

Lemma settled_at_step (q : nat) (s : pstate) (w w' : world) :
  settled_at q s w -> step w w' -> settled_at q s w'.
Proof.
  apply (frame_step (settled_at q s) (fun _ => True) (fun _ => True));
    settled_at_facts.
Qed.

(** A createPlatformEndpoint request that completes without an EndpointArn
    rejects its exchange promise with the error it was given. *)
Lemma failed_exchange_rejects (k : nat) (req : sns_request) (p : nat)
    (dev : installation) (err : option sns_error) (data : option sns_data)
    (w w' : world) :
  inflight w !! k = Some (req, createPlatformEndpoint_cb p dev) ->
  (data = None \/ exists d, data = Some d /\ truthy (EndpointArn d) = false) ->
  deliver k err data w = Ok tt w' ->
  promise_state w' (Made p) = Some (Rejected (VErr err)).
Proof.
  intros Hk Hdata E. unfold deliver in E. rewrite Hk in E.
  cbn [run_callback] in E. rewrite createPlatformEndpoint_callback_settles in E.
  assert (Hout : exchange_outcome dev err data = Rejected (VErr err)).
  { unfold exchange_outcome. destruct Hdata as [->|(d & -> & ->)]; reflexivity. }
  rewrite Hout in E.
  set (w0 := with_inflight (delete k (inflight w)) w) in E.
  destruct (promises w0 !! p) as [c|] eqn:Hp.
  2: { unfold settle, bind, get_promise in E. rewrite Hp in E. discriminate. }
  destruct (is_pending (state c)) eqn:Hc.
  2: { rewrite (settle_settled _ _ _ _ Hp Hc) in E. discriminate. }
  assert (Hc' : state c = Pending) by (destruct (state c); try discriminate; reflexivity).
  rewrite (settle_pending _ _ _ _ Hp Hc') in E.
  refine (proj2 (maintains_ok (settled_at p (Rejected (VErr err))) _ _ _ _
                   (maintains_forEach _ _ _ (settled_at_notify _ _ _)) _ E)).
  split; [reflexivity|]. world_simpl.
  rewrite list_lookup_insert_eq by exact (lookup_lt_Some _ _ _ Hp). reflexivity.
Qed.

Lemma record_outcome_fields (index : nat) (s : pstate) (a : aggregate) :
  arrayArgument (record_outcome index s a) = arrayArgument a
  /\ total (record_outcome index s a) = total a
  /\ when_promise (record_outcome index s a) = when_promise a
  /\ then_promise (record_outcome index s a) = then_promise a
  /\ then_callback (record_outcome index s a) = then_callback a
  /\ hadError (record_outcome index s a) = is_rejected s || hadError a.
Proof. destruct s; cbn; repeat split. Qed.

Lemma forEach_one_ok {A} (f : A -> M unit) (x : A) (w w' : world) :
  forEach f [x] w = Ok tt w' -> f x w = Ok tt w'.
Proof.
  cbn [forEach]. unfold bind, ret.
  destruct (f x w) as [[] w''|e w'']; [intros [= <-]; reflexivity | discriminate].
Qed.

Lemma exchanging_settle P n j payload states w i s w' :
  exchanging P n j payload states w -> (i < n)%nat -> is_pending s = false ->
  settle (P + i) s w = Ok tt w' ->
  succeeded P n w'
  \/ (((exists states', exchanging P n j payload states' w') \/ failed P n j w')
      /\ trace w' = trace w
      /\ inflight w' = inflight w
      /\ ticks w' = ticks w
      /\ length (promises w') = length (promises w)
      /\ forall q, q <> (P + i)%nat -> promises w' !! q = promises w !! q).
Proof.
  intros Hex Hi Hs E.
  destruct Hex as [Hlen Hprom (a & Hj & Harr & Hwhen & Hthen & Hcb & Htot & Herr) Hpos].
  destruct (lookup_lt_is_Some_2 states i) as [si Hsi]; [lia|].
  pose proof (Hprom i si Hsi) as Hpi.
  destruct (is_pending si) eqn:Hpend.
  2: { rewrite (settle_settled _ _ _ _ Hpi Hpend) in E. discriminate. }
  assert (si = Pending) by (destruct si; try discriminate; reflexivity). subst si.
  rewrite (settle_pending _ _ _ _ Hpi eq_refl) in E.
  cbn [callbacks] in E. apply forEach_one_ok in E.
  rewrite (notify_settled s j i a) in E by (world_simpl; assumption).
  pose proof (lookup_lt_Some _ _ _ Hj) as Hjlt.
  unfold try_catch in E.
  rewrite (resolveOne_eq j (record_outcome i s a)) in E
    by (world_simpl; apply list_lookup_insert_eq; exact Hjlt).
  cbv zeta in E. world_simpl. rewrite list_insert_insert_eq in E.
  destruct (record_outcome_fields i s a) as (Ra & Rt & Rw & Rth & Rcb & Rerr).
  set (a' := set_total (total (record_outcome i s a) - 1) (record_outcome i s a)) in E.
  assert (Htot' : total a' = Z.of_nat (count_pending (<[i := s]> states))).
  { cbn. rewrite Rt, Htot. rewrite (count_pending_insert states i s Hsi Hs). lia. }
  assert (Herr' : hadError a' = existsb is_rejected (<[i := s]> states)).
  { cbn. rewrite Rerr, Herr. symmetry. apply has_rejected_insert, Hsi. }
  assert (Hprom' : forall i' s', <[i := s]> states !! i' = Some s' ->
            <[(P + i)%nat := {| state := s; callbacks := [(j, i)] |}]> (promises w)
              !! (P + i')%nat = Some {| state := s'; callbacks := [(j, i')] |}).
  { intros i' s' Hi'. destruct (decide (i' = i)) as [->|Hne].
    - rewrite list_lookup_insert_eq in Hi' by lia. injection Hi' as <-.
      apply list_lookup_insert_eq. exact (lookup_lt_Some _ _ _ Hpi).
    - rewrite list_lookup_insert_ne in Hi' by congruence.
      rewrite list_lookup_insert_ne by lia. exact (Hprom i' s' Hi'). }
  assert (Hrest : forall (A : list aggregate) (w0 : world),
            w0 = with_aggregates A
                   (with_promises
                      (<[(P + i)%nat := {| state := s; callbacks := [(j, i)] |}]>
                         (promises w)) w) ->
            trace w0 = trace w
            /\ inflight w0 = inflight w
            /\ ticks w0 = ticks w
            /\ length (promises w0) = length (promises w)
            /\ forall q, q <> (P + i)%nat -> promises w0 !! q = promises w !! q).
  { intros A w0 ->. world_simpl. split; [reflexivity|]. split; [reflexivity|].
    split; [reflexivity|]. split; [apply length_insert|].
    intros q Hq. apply list_lookup_insert_ne. congruence. }
  destruct (total a' <=? 0) eqn:Hzero.
  - apply Z.leb_le in Hzero.
    assert (Hnone : count_pending (<[i := s]> states) = 0%nat) by lia.
    rewrite Herr' in E.
    destruct (existsb is_rejected (<[i := s]> states)) eqn:Hbad.
    + (* some exchange was rejected *)
      rewrite (settle_when_rejected j a' _ payload) in E;
        [ | world_simpl; apply list_lookup_insert_eq; exact Hjlt
          | cbn; congruence | cbn; congruence | cbn; congruence ].
      injection E as <-. right. split; [|eapply Hrest; reflexivity].
      right. split.
      * intros i' Hi'.
        destruct (lookup_lt_is_Some_2 (<[i := s]> states) i') as [s' Hs'];
          [rewrite length_insert; lia|].
        eexists. split; [apply (Hprom' i' s' Hs')|].
        cbn. exact (count_pending_zero _ _ _ Hnone Hs').
      * eexists. world_simpl.
        rewrite list_lookup_insert_eq by (rewrite length_insert; exact Hjlt).
        reflexivity.
    + (* every exchange was resolved *)
      left. intros i' Hi'.
      destruct (lookup_lt_is_Some_2 (<[i := s]> states) i') as [s' Hs'];
        [rewrite length_insert; lia|].
      destruct (settled_resolved s') as [v ->].
      { exact (count_pending_zero _ _ _ Hnone Hs'). }
      { exact (has_rejected_false _ _ _ Hbad Hs'). }
      exists v.
      refine (proj2 (maintains_ok _ (try_catch _ _) _ _ _
                (maintains_try_catch _ _ _
                   (settled_at_settle_when (P + i') (Resolved v) j _)
                   (fun _ => maintains_ret _ _)) _ E)).
      split; [reflexivity|]. world_simpl. rewrite (Hprom' i' _ Hs'). reflexivity.
  - apply Z.leb_gt in Hzero. injection E as <-.
    right. split; [|eapply Hrest; reflexivity].
    left. exists (<[i := s]> states). split.
    + rewrite length_insert. exact Hlen.
    + exact Hprom'.
    + exists a'. world_simpl.
      split; [apply list_lookup_insert_eq; exact Hjlt|].
      split; [cbn; congruence|]. split; [cbn; congruence|].
      split; [cbn; congruence|]. split; [cbn; congruence|].
      split; [exact Htot' | exact Herr'].
    + lia.
Qed.

(** *** The rest of the world *)

Lemma exchanging_same P n j payload states w w' :
  exchanging P n j payload states w -> same_group P n j w w' ->
  exchanging P n j payload states w'.
Proof.
  intros [Hlen Hprom Hagg Hpos] [Hp Ha]. split; [exact Hlen | | | exact Hpos].
  - intros i s Hi. rewrite Hp; [apply Hprom, Hi|].
    rewrite <- Hlen. exact (lookup_lt_Some _ _ _ Hi).
  - rewrite Ha. exact Hagg.
Qed.

Lemma failed_same P n j w w' :
  failed P n j w -> same_group P n j w w' -> failed P n j w'.
Proof.
  intros [Hprom Hthen] [Hp Ha]. split.
  - intros i Hi. rewrite Hp by exact Hi. apply Hprom, Hi.
  - rewrite Ha. exact Hthen.
Qed.

Lemma apart_new_promise P n j w0 w :
  apart P n j w /\ same_group P n j w0 w ->
  (apart P n j (with_promises (promises w ++ [pending_cell]) w)
   /\ same_group P n j w0 (with_promises (promises w ++ [pending_cell]) w))
  /\ ~ exchange_promise P n (length (promises w)).
Proof.
  intros [[Hb Hc Hf Htk] [Hp Ha]]. split; [split|].
  - split; world_simpl.
    + rewrite length_app. lia.
    + intros q c Hq Hout. apply lookup_app_Some in Hq as [Hq|[_ Hq]].
      * exact (Hc q c Hq Hout).
      * apply list_lookup_singleton_Some in Hq as [_ <-]. constructor.
    + exact Hf.
    + exact Htk.
  - split; world_simpl; [|exact Ha].
    intros i Hi. rewrite lookup_app_l by lia. apply Hp, Hi.
  - unfold exchange_promise. lia.
Qed.

Lemma apart_settle P n j w0 w q c s :
  apart P n j w /\ same_group P n j w0 w -> ~ exchange_promise P n q ->
  promises w !! q = Some c -> state c = Pending ->
  apart P n j
    (with_promises (<[q := {| state := s; callbacks := callbacks c |}]> (promises w)) w)
  /\ same_group P n j w0
       (with_promises (<[q := {| state := s; callbacks := callbacks c |}]> (promises w)) w).
Proof.
  intros [[Hb Hc Hf Htk] [Hp Ha]] Hout Hq _. split.
  - split; world_simpl.
    + rewrite length_insert. exact Hb.
    + intros q' c' Hq' Hout'. destruct (decide (q' = q)) as [->|Hne].
      * rewrite list_lookup_insert_eq in Hq' by exact (lookup_lt_Some _ _ _ Hq).
        injection Hq' as <-. exact (Hc q c Hq Hout).
      * rewrite list_lookup_insert_ne in Hq' by congruence. exact (Hc q' c' Hq' Hout').
    + exact Hf.
    + exact Htk.
  - split; world_simpl; [|exact Ha].
    intros i Hi. rewrite list_lookup_insert_ne; [apply Hp, Hi|].
    intros ->. apply Hout. unfold exchange_promise. lia.
Qed.

Lemma apart_callbacks P n j w0 w q c :
  apart P n j w /\ same_group P n j w0 w -> ~ exchange_promise P n q ->
  promises w !! q = Some c -> Forall (fun target => target.1 <> j) (callbacks c).
Proof. intros [Hap _] Hout Hq. exact (ap_callbacks _ _ _ _ Hap q c Hq Hout). Qed.

Lemma apart_put_aggregate P n j w0 w j' a :
  apart P n j w /\ same_group P n j w0 w -> j' <> j ->
  apart P n j (with_aggregates (<[j' := a]> (aggregates w)) w)
  /\ same_group P n j w0 (with_aggregates (<[j' := a]> (aggregates w)) w).
Proof.
  intros [[Hb Hc Hf Htk] [Hp Ha]] Hne. split.
  - split; world_simpl; assumption.
  - split; world_simpl; [exact Hp|].
    rewrite list_lookup_insert_ne by exact Hne. exact Ha.
Qed.

Lemma apart_sns_call P n j w0 w req cb :
  apart P n j w /\ same_group P n j w0 w -> ~ exchange_promise P n (cb_promise cb) ->
  apart P n j
    (with_trace (trace w ++ [req]) (with_inflight (inflight w ++ [(req, cb)]) w))
  /\ same_group P n j w0
       (with_trace (trace w ++ [req]) (with_inflight (inflight w ++ [(req, cb)]) w)).
Proof.
  intros [[Hb Hc Hf Htk] [Hp Ha]] Hout. split.
  - split; world_simpl; [exact Hb | exact Hc | | exact Htk].
    apply Forall_app. split; [exact Hf|].
    constructor; [|constructor]. intros Hin. contradiction.
  - split; world_simpl; assumption.
Qed.

Lemma apart_defer P n j w0 w t :
  apart P n j w /\ same_group P n j w0 w -> tick_target t <> j ->
  apart P n j (with_ticks (ticks w ++ [t]) w)
  /\ same_group P n j w0 (with_ticks (ticks w ++ [t]) w).
Proof.
  intros [[Hb Hc Hf Htk] [Hp Ha]] Hne. split.
  - split; world_simpl; [exact Hb | exact Hc | exact Hf |].
    apply Forall_app. split; [exact Htk|]. constructor; [exact Hne | constructor].
  - split; world_simpl; assumption.
Qed.

(** A turn that completes a request of another group leaves the group as
    it is. *)
Lemma other_callback_apart P n j w cb err data w' :
  apart P n j w -> ~ exchange_promise P n (cb_promise cb) ->
  run_callback cb err data w = Ok tt w' ->
  apart P n j w' /\ same_group P n j w w'.
Proof.
  intros Hap Hout E.
  refine (maintains_ok (fun w' => apart P n j w' /\ same_group P n j w w') _ _ _ _
            (frame_run_callback _ (fun q => ~ exchange_promise P n q)
               (fun j' => j' <> j) _ _ _ _ _ _ cb err data Hout) _ E).
  - apply apart_new_promise.
  - intros w1 q c s. apply apart_settle.
  - intros w1 q c. apply apart_callbacks.
  - intros w1 j' a. apply apart_put_aggregate.
  - intros w1 req cb'. apply apart_sns_call.
  - intros w1 t. apply apart_defer.
  - split; [exact Hap|]. split; reflexivity.
Qed.

Lemma apart_answered P n j w k :
  apart P n j w -> apart P n j (with_inflight (delete k (inflight w)) w).
Proof.
  intros [Hb Hc Hf Htk]. split; world_simpl; [exact Hb | exact Hc | | exact Htk].
  apply Forall_delete, Hf.
Qed.

Lemma apart_ticked P n j w t rest :
  apart P n j w -> ticks w = t :: rest ->
  apart P n j (with_ticks rest w) /\ tick_target t <> j.
Proof.
  intros [Hb Hc Hf Htk] Ht. rewrite Ht in Htk. apply Forall_cons in Htk as [Hne Htk].
  split; [|exact Hne]. split; world_simpl; assumption.
Qed.

(** A turn that runs a deferred callback of another aggregate leaves the
    group as it is. *)
Lemma other_tick_apart P n j w t w' :
  apart P n j w -> tick_target t <> j ->
  run_tick t w = Ok tt w' ->
  apart P n j w' /\ same_group P n j w w'.
Proof.
  intros Hap Hne E.
  refine (maintains_ok (fun w' => apart P n j w' /\ same_group P n j w w') _ _ _ _
            (frame_run_tick _ (fun q => ~ exchange_promise P n q)
               (fun j' => j' <> j) _ _ _ _ t Hne) _ E).
  - apply apart_new_promise.
  - intros w1 j' a. apply apart_put_aggregate.
  - intros w1 req cb'. apply apart_sns_call.
  - intros w1 t'. apply apart_defer.
  - split; [exact Hap|]. split; reflexivity.
Qed.

Lemma succeeded_step P n w w' : succeeded P n w -> step w w' -> succeeded P n w'.
Proof.
  intros Hok Hstep i Hi. destruct (Hok i Hi) as [v Hv]. exists v.
  refine (proj2 (settled_at_step _ (Resolved v) _ _ _ Hstep)).
  split; [reflexivity | exact Hv].
Qed.

Lemma requests_of_steps P n j w w' l : requests_of P n j w w' l -> steps w w'.
Proof.
  intros Hr. induction Hr as [w|w1 w2 w3 l k err data req cb _ IH _ _ E
                               |w1 w2 w3 l k err data req cb _ IH _ _ E
                               |w1 w2 w3 l t rest _ IH _ _ E
                               |w1 w2 w3 l t rest _ IH _ _ E].
  - apply steps_refl.
  - eapply steps_step; [exact IH | exact (step_deliver _ _ _ _ _ E)].
  - eapply steps_step; [exact IH | exact (step_deliver _ _ _ _ _ E)].
  - eapply steps_step; [exact IH | exact (step_tick _ _ E)].
  - eapply steps_step; [exact IH | exact (step_tick _ _ E)].
Qed.

(** A turn adds to the trace the requests it makes; [requests_of] reads
    them off the end of the trace. *)
Lemma step_trace w w' :
  step w w' -> trace w' = trace w ++ drop (length (trace w)) (trace w').
Proof.
  intros Hstep.
  assert (Hgrow : exists l, trace w' = trace w ++ l).
  { refine (frame_step (fun w0 => exists l, trace w0 = trace w ++ l)
              (fun _ => True) (fun _ => True) _ _ _ _ _ _ _ _ w w' _ Hstep).
    - intros w0 Hw0. split; [exact Hw0 | exact Logic.I].
    - intros w0 q c s Hw0 _ _ _. exact Hw0.
    - intros. apply Forall_true. intros. exact Logic.I.
    - intros w0 j a Hw0 _. exact Hw0.
    - intros w0 req cb [l Hl] _. world_simpl. exists (l ++ [req]).
      rewrite Hl, <- app_assoc. reflexivity.
    - intros w0 k req cb Hw0 _. split; [exact Hw0 | exact Logic.I].
    - intros w0 t Hw0 _. exact Hw0.
    - intros w0 t rest Hw0 _. split; [exact Hw0 | exact Logic.I].
    - exists []. rewrite app_nil_r. reflexivity. }
  destruct Hgrow as [l Hl]. rewrite Hl at 1. f_equal.
  rewrite Hl, drop_app_length. reflexivity.
Qed.

Lemma exchange_promise_dec (P n q : nat) :
  exchange_promise P n q \/ ~ exchange_promise P n q.
Proof. unfold exchange_promise. lia. Qed.

(** Every run of the event loop is accounted for. *)
Lemma steps_requests_of P n j w w' :
  steps w w' -> exists l, requests_of P n j w w' l.
Proof.
  intros Hs. induction Hs as [w|w1 w2 w3 _ [l IH] Hstep].
  - exists []. apply requests_none.
  - destruct Hstep as [k err data w2 w3 E|w2 w3 E].
    + destruct (inflight w2 !! k) as [[req cb]|] eqn:Hk.
      * destruct (exchange_promise_dec P n (cb_promise cb)) as [Hin|Hout].
        -- eexists. exact (requests_own P n j _ _ _ _ k err data req cb IH Hk Hin E).
        -- exists l. exact (requests_other P n j _ _ _ _ k err data req cb IH Hk Hout E).
      * unfold deliver in E. rewrite Hk in E. discriminate.
    + destruct (ticks w2) as [|t rest] eqn:Ht.
      * unfold next_tick in E. rewrite Ht in E. discriminate.
      * destruct (decide (tick_target t = j)) as [Hin|Hout].
        -- eexists. exact (requests_own_tick P n j _ _ _ _ t rest IH Ht Hin E).
        -- exists l. exact (requests_other_tick P n j _ _ _ _ t rest IH Ht Hout E).
Qed.

(** *** The turns of a group *)

Lemma group_invariant_own P n j payload w1 l w2 w3 k err data req cb :
  group_invariant P n j payload w1 l w2 ->
  inflight w2 !! k = Some (req, cb) ->
  exchange_promise P n (cb_promise cb) ->
  deliver k err data w2 = Ok tt w3 ->
  group_invariant P n j payload w1 (l ++ drop (length (trace w2)) (trace w3)) w3.
Proof.
  intros [Hok|(Hap & Hphase & Hl & Halone)] Hk Hin E.
  { left. exact (succeeded_step _ _ _ _ Hok (step_deliver _ _ _ _ _ E)). }
  pose proof (ap_inflight _ _ _ _ Hap) as Hf. rewrite Forall_lookup in Hf.
  destruct (Hf k _ Hk Hin) as (i & dev & Hi & Hcb). cbn [snd] in Hcb. subst cb.
  unfold deliver in E. rewrite Hk in E. cbn [run_callback] in E.
  rewrite createPlatformEndpoint_callback_settles in E.
  set (w0 := with_inflight (delete k (inflight w2)) w2) in E.
  assert (Hsame : same_group P n j w2 w0) by (split; reflexivity).
  destruct Hphase as [[states Hex]|Hfail].
  - destruct (exchanging_settle P n j payload states w0 i _ w3
                (exchanging_same _ _ _ _ _ _ _ Hex Hsame) Hi
                (exchange_outcome_settled dev err data) E)
      as [Hok|(Hphase & Ht & Hfl & Htks & Hlen & Hrest)].
    { left. exact Hok. }
    right. subst w0. world_simpl.
    split; [|split; [exact Hphase|split]].
    + destruct (apart_answered P n j w2 k Hap) as [Hb Hc Hf0 Htk0]. world_simpl.
      split.
      * rewrite Hlen. exact Hb.
      * intros q c Hq Hout. rewrite Hrest in Hq; [exact (Hc q c Hq Hout)|].
        intros ->. apply Hout. unfold exchange_promise. lia.
      * rewrite Hfl. exact Hf0.
      * rewrite Htks. exact Htk0.
    + rewrite Hl, Ht, drop_all. reflexivity.
    + intros Hreq. destruct (Halone Hreq) as [[Hreq2 Hnone] Ht2]. split; [split|].
      * unfold exchange_requests. rewrite Hfl. apply Forall_delete, Hreq2.
      * rewrite Htks. exact Hnone.
      * rewrite Ht. exact Ht2.
  - exfalso.
    destruct (fl_promises _ _ _ _ (failed_same _ _ _ _ _ Hfail Hsame) i Hi)
      as (c & Hc & Hset).
    rewrite (settle_settled _ _ c) in E; [discriminate | exact Hc | exact Hset].
Qed.

Lemma group_invariant_other P n j payload w1 l w2 w3 k err data req cb :
  group_invariant P n j payload w1 l w2 ->
  inflight w2 !! k = Some (req, cb) ->
  ~ exchange_promise P n (cb_promise cb) ->
  deliver k err data w2 = Ok tt w3 ->
  group_invariant P n j payload w1 l w3.
Proof.
  intros [Hok|(Hap & Hphase & Hl & Halone)] Hk Hout E.
  { left. exact (succeeded_step _ _ _ _ Hok (step_deliver _ _ _ _ _ E)). }
  unfold deliver in E. rewrite Hk in E.
  destruct (other_callback_apart P n j _ cb err data w3
              (apart_answered P n j w2 k Hap) Hout E) as [Hap3 Hsame].
  right. split; [exact Hap3|]. split; [|split; [exact Hl|]].
  - destruct Hphase as [[states Hex]|Hfail].
    + left. exists states. exact (exchanging_same _ _ _ _ _ _ _ Hex Hsame).
    + right. exact (failed_same _ _ _ _ _ Hfail Hsame).
  - intros Hreq. exfalso. destruct (Halone Hreq) as [[Hreq2 _] _].
    unfold exchange_requests in Hreq2. rewrite Forall_lookup in Hreq2.
    destruct (Hreq2 k _ Hk) as (i & dev & Hi & Hcb). cbn [snd] in Hcb. subst cb.
    apply Hout. unfold exchange_promise. cbn. lia.
Qed.

(** While the group is exchanging or has failed, no deferred callback is
    one of its own, and a deferred callback of another aggregate leaves it
    as it is. *)
Lemma group_invariant_tick P n j payload w1 l l' w2 w3 t rest :
  group_invariant P n j payload w1 l w2 ->
  ticks w2 = t :: rest ->
  (tick_target t <> j -> l' = l) ->
  next_tick w2 = Ok tt w3 ->
  group_invariant P n j payload w1 l' w3.
Proof.
  intros [Hok|(Hap & Hphase & Hl & Halone)] Ht Hl' E.
  { left. exact (succeeded_step _ _ _ _ Hok (step_tick _ _ E)). }
  destruct (apart_ticked P n j w2 t rest Hap Ht) as [Hap' Hne].
  unfold next_tick in E. rewrite Ht in E.
  destruct (other_tick_apart P n j _ t w3 Hap' Hne E) as [Hap3 Hsame].
  right. split; [exact Hap3|]. split; [|split; [rewrite (Hl' Hne); exact Hl|]].
  - destruct Hphase as [[states Hex]|Hfail].
    + left. exists states. exact (exchanging_same _ _ _ _ _ _ _ Hex Hsame).
    + right. exact (failed_same _ _ _ _ _ Hfail Hsame).
  - intros Hreq. exfalso. destruct (Halone Hreq) as [[_ Hnone] _].
    rewrite Hnone in Ht. discriminate.
Qed.

Lemma group_invariant_requests P n j payload w1 w2 l :
  group_invariant P n j payload w1 [] w1 -> requests_of P n j w1 w2 l ->
  group_invariant P n j payload w1 l w2.
Proof.
  intros Hinv Hr.
  induction Hr as [w|w1 w2 w3 l k err data req cb _ IH Hk Hin E
                    |w1 w2 w3 l k err data req cb _ IH Hk Hout E
                    |w1 w2 w3 l t rest _ IH Ht Hin E
                    |w1 w2 w3 l t rest _ IH Ht Hout E].
  - exact Hinv.
  - exact (group_invariant_own _ _ _ _ _ _ _ _ _ _ _ _ _ (IH Hinv) Hk Hin E).
  - exact (group_invariant_other _ _ _ _ _ _ _ _ _ _ _ _ _ (IH Hinv) Hk Hout E).
  - refine (group_invariant_tick _ _ _ _ _ _ _ _ _ _ _ (IH Hinv) Ht _ E).
    intros Hne. contradiction.
  - refine (group_invariant_tick _ _ _ _ _ _ _ _ _ _ _ (IH Hinv) Ht _ E).
    intros _. reflexivity.
Qed.

Lemma mapM_exchange_raw (devices : list installation) (platformArn : option string)
    (w : world) :
  Forall raw devices ->
  exists w',
    mapM (fun d => exchangeTokenPromise d platformArn) devices w
      = Ok (seq (length (promises w)) (length devices)) w'
    /\ promises w' = promises w ++ replicate (length devices) pending_cell
    /\ trace w' = trace w ++ map (exchange_request platformArn) devices
    /\ inflight w' = inflight w ++ exchanges_in_flight platformArn (length (promises w)) devices
    /\ aggregates w' = aggregates w
    /\ ticks w' = ticks w.
Proof.
  revert w. induction devices as [|d devices IH]; intros w Hraw.
  - exists w. cbn. rewrite !app_nil_r. repeat split.
  - apply Forall_cons in Hraw as [(tok & Htok & Harn) Hraw].
    cbn [mapM]. unfold bind at 1.
    rewrite (exchangeTokenPromise_raw d tok platformArn w Htok Harn).
    destruct (IH (requested (createPlatformEndpoint platformArn tok)
                    (createPlatformEndpoint_cb (length (promises w)) d) w) Hraw)
      as (w' & E & Hp & Ht & Hf & Ha & Htk).
    assert (Hlen : forall req cb,
              length (promises (requested req cb w)) = S (length (promises w))).
    { intros req cb. unfold requested. world_simpl. rewrite length_app. cbn. lia. }
    rewrite Hlen in E, Hf.
    unfold bind at 1. rewrite E. cbn [ret].
    unfold requested in Hp, Ht, Hf, Ha, Htk. world_simpl.
    exists w'.
    split; [reflexivity|].
    split; [rewrite Hp, <- app_assoc; reflexivity|].
    assert (Hreq : exchange_request platformArn d
                   = createPlatformEndpoint platformArn tok)
      by (unfold exchange_request; rewrite Htok; reflexivity).
    split; [rewrite Ht, <- app_assoc; cbn [map]; rewrite Hreq; reflexivity|].
    split; [|split; [exact Ha | exact Htk]].
    rewrite Hf, <- app_assoc. f_equal. unfold exchanges_in_flight.
    rewrite imap_cons. cbn [app]. rewrite Hreq, Nat.add_0_r. f_equal.
    apply imap_ext. intros i x _. cbn. do 2 f_equal. lia.
Qed.

Lemma chain_register_all (j P m : nat) : forall (k : nat) (w : world),
  (forall i, (k <= i < k + m)%nat -> promises w !! (P + i)%nat = Some pending_cell) ->
  exists w',
    forEach_from (chain j) k (map VPromise (seq (P + k) m)) w = Ok tt w'
    /\ (forall i, (k <= i < k + m)%nat ->
          promises w' !! (P + i)%nat
          = Some {| state := Pending; callbacks := [(j, i)] |})
    /\ (forall q, (q < P + k)%nat -> promises w' !! q = promises w !! q)
    /\ length (promises w') = length (promises w)
    /\ aggregates w' = aggregates w
    /\ inflight w' = inflight w
    /\ trace w' = trace w
    /\ ticks w' = ticks w.
Proof.
  induction m as [|m IH]; intros k w Hpending.
  - exists w. cbn. split; [reflexivity|]. split; [intros i Hi; lia|].
    repeat split.
  - cbn [seq map forEach_from]. unfold bind at 1.
    assert (Hk : promises w !! (P + k)%nat = Some pending_cell)
      by (apply Hpending; lia).
    unfold chain at 1. unfold bind at 1, get_promise. rewrite Hk.
    cbn [state pending_cell callbacks app]. unfold put_promise, modify.
    set (w1 := with_promises
                 (<[(P + k)%nat := {| state := Pending; callbacks := [(j, k)] |}]>
                    (promises w)) w).
    destruct (IH (S k) w1) as (w' & E & Hreg & Hold & Hlen & Ha & Hf & Ht & Htk).
    { intros i Hi. subst w1. world_simpl.
      rewrite list_lookup_insert_ne by lia. apply Hpending. lia. }
    replace (S (P + k)) with (P + S k)%nat by lia.
    exists w'. split; [exact E|].
    split; [|split; [|split; [|split; [exact Ha | split; [exact Hf
                                      | split; [exact Ht | exact Htk]]]]]].
    + intros i Hi. destruct (decide (i = k)) as [->|Hne].
      * rewrite Hold by lia. subst w1. world_simpl.
        apply list_lookup_insert_eq. exact (lookup_lt_Some _ _ _ Hk).
      * apply Hreg. lia.
    + intros q Hq. rewrite Hold by lia. subst w1. world_simpl.
      apply list_lookup_insert_ne. lia.
    + rewrite Hlen. subst w1. world_simpl. apply length_insert.
Qed.

Lemma count_pending_replicate (n : nat) :
  count_pending (replicate n Pending) = n.
Proof.
  unfold count_pending. induction n as [|n IH]; [reflexivity|].
  cbn. rewrite IH. reflexivity.
Qed.

Lemma has_rejected_replicate (n : nat) :
  existsb is_rejected (replicate n Pending) = false.
Proof. induction n as [|n IH]; [reflexivity | exact IH]. Qed.


Lemma when_then_pending (P n : nat) (payload : json) (w : world) :
  (forall i, (i < S n)%nat -> promises w !! (P + i)%nat = Some pending_cell) ->
  exists w',
    (let* j := Parse_Promise_when (VArray (map VPromise (seq P (S n)))) in
     then_publish_all j payload) w = Ok (ThenOf (length (aggregates w))) w'
    /\ (forall i, (i < S n)%nat ->
          promises w' !! (P + i)%nat
          = Some {| state := Pending; callbacks := [(length (aggregates w), i)] |})
    /\ (forall q, (q < P)%nat -> promises w' !! q = promises w !! q)
    /\ length (promises w') = length (promises w)
    /\ aggregates w' = aggregates w ++ [set_then_callback payload (fresh_aggregate (S n))]
    /\ inflight w' = inflight w
    /\ trace w' = trace w
    /\ ticks w' = ticks w.
Proof.
  intros Hpending.
  unfold Parse_Promise_when, get. unfold bind at 1. unfold bind at 1.
  rewrite length_map, length_seq. cbn [Nat.eqb].
  unfold bind at 1. unfold modify at 1.
  set (j := length (aggregates w)).
  set (w0 := with_aggregates _ w).
  destruct (chain_register_all j P (S n) 0 w0)
    as (w1 & E & Hreg & Hold & Hlen & Ha & Hf & Ht & Htk).
  { intros i Hi. subst w0. world_simpl. apply Hpending. lia. }
  replace (P + 0)%nat with P in E, Hold by lia.
  unfold bind at 1. rewrite E. cbn [ret].
  unfold then_publish_all, bind, get_aggregate.
  assert (Hj : aggregates w1 !! j = Some (fresh_aggregate (S n))).
  { rewrite Ha. subst w0 j. world_simpl. apply lookup_fresh. }
  rewrite Hj. cbn [when_promise fresh_aggregate]. unfold put_aggregate, modify, ret.
  eexists. split; [reflexivity|]. world_simpl.
  split; [intros i Hi; apply Hreg; lia|].
  split; [exact Hold|]. split; [exact Hlen|].
  split; [rewrite Ha; subst w0 j; world_simpl; apply insert_fresh|].
  split; [exact Hf | split; [exact Ht | exact Htk]].
Qed.

Lemma exchanges_in_flight_own platformArn P devices :
  Forall (fun e => exists i dev, (i < length devices)%nat
                                 /\ e.2 = createPlatformEndpoint_cb (P + i) dev)
         (exchanges_in_flight platformArn P devices).
Proof.
  apply Forall_lookup. intros k e Hk. unfold exchanges_in_flight in Hk.
  rewrite list_lookup_imap in Hk.
  destruct (devices !! k) as [d|] eqn:Hd; [|discriminate].
  injection Hk as <-. exists k, d. split; [|reflexivity].
  exact (lookup_lt_Some _ _ _ Hd).
Qed.

Lemma sendToSNS_raw (payload : json) (devices : list installation)
    (platformArn : option string) (w : world) :
  Forall raw devices -> well_formed w ->
  exists w1,
    sendToSNS payload devices platformArn w = Ok (ThenOf (length (aggregates w))) w1
    /\ trace w1 = trace w ++ map (exchange_request platformArn) devices
    /\ inflight w1
       = inflight w ++ exchanges_in_flight platformArn (length (promises w)) devices
    /\ ((0 < length devices)%nat -> ticks w1 = ticks w)
    /\ group_invariant (length (promises w)) (length devices) (length (aggregates w))
         payload w1 [] w1.
Proof.
  intros Hraw [Hwf_f Hwf_c Hwf_t].
  destruct (mapM_exchange_raw devices platformArn w Hraw)
    as (w' & E & Hp & Ht & Hf & Ha & Htk).
  unfold sendToSNS. unfold bind at 1. rewrite E.
  pose proof (exchanges_in_flight_own platformArn (length (promises w)) devices)
    as Hown.
  destruct (length devices) as [|n] eqn:Hn.
  - (* no device: [when] resolves at once and [then] defers its callback *)
    cbn [seq map]. unfold Parse_Promise_when, get. unfold bind at 1. unfold bind at 1.
    cbn [length Nat.eqb]. unfold bind at 1. unfold modify at 1. cbn [ret].
    unfold bind at 1. unfold then_publish_all, bind at 1, get_aggregate.
    world_simpl. rewrite Ha, lookup_fresh.
    cbn [when_promise set_when_promise].
    unfold bind at 1. unfold defer, modify. cbn [ret].
    eexists. split; [reflexivity|]. world_simpl.
    split; [exact Ht|]. split; [exact Hf|]. split; [lia|].
    left. intros i Hi. lia.
  - destruct (when_then_pending (length (promises w)) n payload w')
      as (w1 & E1 & Hreg & Hold & Hlen & Hagg & Hf1 & Ht1 & Htk1).
    { intros i Hi. rewrite Hp. rewrite lookup_app_r by lia.
      replace (length (promises w) + i - length (promises w))%nat with i by lia.
      apply lookup_replicate. split; [reflexivity | lia]. }
    rewrite Ha in E1, Hreg, Hagg.
    assert (Hbind : forall (m : M nat) (k : nat -> M promise_ref) w0,
              (let* j := m in let* promises := k j in ret promises) w0
              = (let* j := m in k j) w0).
    { intros m k w0. unfold bind, ret. destruct (m w0) as [j w2|]; [|reflexivity].
      destruct (k j w2); reflexivity. }
    rewrite Hbind, E1.
    exists w1. split; [reflexivity|].
    split; [rewrite Ht1; exact Ht|].
    assert (Hin : inflight w1
                  = inflight w
                    ++ exchanges_in_flight platformArn (length (promises w)) devices)
      by (rewrite Hf1, Hf; reflexivity).
    split; [exact Hin|].
    split; [intros _; rewrite Htk1; exact Htk|].
    assert (Hlen1 : length (promises w1) = (length (promises w) + S n)%nat).
    { rewrite Hlen, Hp, length_app, length_replicate. reflexivity. }
    right. split; [|split; [left; exists (replicate (S n) Pending)|split]].
    + split.
      * lia.
      * intros q c Hq Hout.
        assert (Hlt : (q < length (promises w))%nat).
        { pose proof (lookup_lt_Some _ _ _ Hq). unfold exchange_promise in Hout. lia. }
        rewrite Hold in Hq by exact Hlt.
        rewrite Hp, lookup_app_l in Hq by exact Hlt.
        rewrite Forall_lookup in Hwf_c. specialize (Hwf_c q c Hq).
        eapply Forall_impl; [exact Hwf_c|]. intros target Htarget. cbn in Htarget. lia.
      * rewrite Hin. apply Forall_app. split.
        -- eapply Forall_impl; [exact Hwf_f|]. intros e He Hin'.
           unfold exchange_promise in Hin'. cbn in He. lia.
        -- eapply Forall_impl; [exact Hown|]. intros e He _. exact He.
      * rewrite Htk1, Htk. eapply Forall_impl; [exact Hwf_t|].
        intros t Ht0. cbn in Ht0. lia.
    + split.
      * apply length_replicate.
      * intros i s Hi. apply lookup_replicate in Hi as [-> Hi]. apply Hreg, Hi.
      * eexists. split; [rewrite Hagg; apply lookup_fresh|].
        split; [reflexivity|]. split; [reflexivity|]. split; [reflexivity|].
        split; [reflexivity|].
        split; [rewrite count_pending_replicate; reflexivity
               | rewrite has_rejected_replicate; reflexivity].
      * rewrite count_pending_replicate. lia.
    + reflexivity.
    + intros Hreq. split; [exact Hreq | reflexivity].
Qed.

End Exchange.

(** *** The group of a bundle *)

Section Bundle.
Context `{PushLib}.

Lemma deviceSends_raw (iosConfig : platform_config) (devices : list installation) :
  Forall raw devices -> Forall raw (deviceSends iosConfig devices).
Proof.
  intros Hraw. unfold deviceSends. rewrite Forall_forall in *.
  intros x Hx. apply Hraw. apply list_elem_of_In. apply list_elem_of_In in Hx.
  apply List.filter_In in Hx. tauto.
Qed.

(** With one bundle configuration, [sendToAPNS] asks for an endpoint for the
    devices of [deviceSends], and for no other. *)
Lemma sendToAPNS_exchanges_bundle (a : adapter) (d : push_data)
    (devices : list installation) (iosConfig : platform_config)
    (cfg : list (string * push_type_config)) (w : world) :
  snsConfig a = Some cfg ->
  obj_get "ios" cfg = Some (OneConfig iosConfig) ->
  Forall raw devices -> well_formed w ->
  exists r w1,
    sendToAPNS a d devices w = Ok r w1
    /\ trace w1 = trace w ++ map (exchange_request (ARN iosConfig))
                                 (deviceSends iosConfig devices).
Proof.
  intros Hcfg Hios Hraw Hwf.
  unfold sendToAPNS, config_of. rewrite Hcfg. unfold bind at 1. cbn [ret].
  rewrite Hios. cbn [sendToAPNS_loop].
  destruct (deviceSends iosConfig devices) as [|x sends] eqn:Hsends.
  - cbn. exists [], w. rewrite app_nil_r. split; reflexivity.
  - cbn [length Nat.ltb Nat.leb]. rewrite <- Hsends.
    destruct (sendToSNS_raw (generateiOSPayload d (production iosConfig || false))
                (deviceSends iosConfig devices) (ARN iosConfig) w
                (deviceSends_raw _ _ Hraw) Hwf)
      as (w1 & E & Ht & _).
    unfold bind at 1. unfold bind at 1. rewrite E.
    eexists. exists w1. split; [reflexivity | exact Ht].
Qed.

End Bundle.

Lemma failed_group_stopped `{PushLib} (P n j : nat) (payload : json)
    (w1 w2 : world) (l : list sns_request) :
  group_invariant P n j payload w1 l w2 ->
  (exists i e, (i < n)%nat /\ promise_state w2 (Made (P + i)) = Some (Rejected e)) ->
  l = []
  /\ (alone P n w1 -> trace w2 = trace w1)
  /\ ((exists i, (i < n)%nat /\ promise_state w2 (Made (P + i)) = Some Pending) ->
      promise_state w2 (ThenOf j) = Some Pending)
  /\ ((forall i, (i < n)%nat -> promise_state w2 (Made (P + i)) <> Some Pending) ->
      exists errs, promise_state w2 (ThenOf j) = Some (Rejected (VArray errs))).
Proof.
  intros [Hok|(_ & Hphase & Hl & Halone)] (i & e & Hi & Hrej).
  { exfalso. destruct (Hok i Hi) as [v Hv].
    cbn [promise_state] in Hrej. rewrite Hv in Hrej. discriminate. }
  split; [exact Hl|]. split; [intros Hreq; exact (proj2 (Halone Hreq))|].
  destruct Hphase as [[states Hex]|Hfail].
  - destruct Hex as [Hlen Hprom (a & Hj & _ & _ & Hthen & _) Hpos].
    cbn [promise_state]. rewrite Hj. cbn.
    split; [intros _; congruence|].
    intros Hnone. exfalso.
    destruct (count_pending_positive _ Hpos) as [i' Hi'].
    apply (Hnone i').
    + rewrite <- Hlen. exact (lookup_lt_Some _ _ _ Hi').
    + rewrite (Hprom i' _ Hi'). reflexivity.
  - destruct Hfail as [Hset [errs Herrs]]. cbn [promise_state].
    split; [|intros _; exists errs; exact Herrs].
    intros (i' & Hi' & Hpend). exfalso.
    destruct (Hset i' Hi') as (c & Hc & Hs).
    rewrite Hc in Hpend. cbn in Hpend. injection Hpend as Hpend.
    rewrite Hpend in Hs. discriminate.
Qed.

(** C4 (amended): for every group of devices whose tokens are not provider
    handles, sent from any well-formed world, [sendToSNS] makes one
    createPlatformEndpoint request per device, in order, and nothing else;
    from then on, a createPlatformEndpoint request that completes without
    an EndpointArn rejects the exchange promise of its device; and in every
    later world in which an exchange promise of the group is rejected, the
    turns of the group have made no request (no setEndpointAttributes, no
    publish), no request at all was made when the group was alone, and the
    promise of the group is never resolved: it is pending as long as an
    exchange promise of the group is pending, and rejected, with the array
    of errors, once none is. *)
Theorem exchange_failure_stops_group `{PushLib} (payload : json)
    (devices : list installation) (platformArn : option string) (w : world) :
  Forall raw devices -> well_formed w ->
  let P := length (promises w) in
  let j := length (aggregates w) in
  exists w1,
    sendToSNS payload devices platformArn w = Ok (ThenOf j) w1
    /\ trace w1 = trace w ++ map (exchange_request platformArn) devices
    /\ inflight w1 = inflight w ++ exchanges_in_flight platformArn P devices
    /\ forall w2, steps w1 w2 ->
         (forall k req p dev err data w3,
            inflight w2 !! k = Some (req, createPlatformEndpoint_cb p dev) ->
            (data = None
             \/ exists d, data = Some d /\ truthy (EndpointArn d) = false) ->
            deliver k err data w2 = Ok tt w3 ->
            promise_state w3 (Made p) = Some (Rejected (VErr err)))
         /\ ((exists i e, (i < length devices)%nat
                          /\ promise_state w2 (Made (P + i)) = Some (Rejected e)) ->
             (forall l, requests_of P (length devices) j w1 w2 l -> l = [])
             /\ (inflight w = [] -> ticks w = [] -> trace w2 = trace w1)
             /\ ((exists i, (i < length devices)%nat
                             /\ promise_state w2 (Made (P + i)) = Some Pending) ->
                 promise_state w2 (ThenOf j) = Some Pending)
             /\ ((forall i, (i < length devices)%nat ->
                     promise_state w2 (Made (P + i)) <> Some Pending) ->
                 exists errs,
                   promise_state w2 (ThenOf j) = Some (Rejected (VArray errs)))).
Proof.
  intros Hraw Hwf P j. subst P j.
  destruct (sendToSNS_raw payload devices platformArn w Hraw Hwf)
    as (w1 & E & Ht & Hf & Htk & Hinv).
  exists w1. split; [exact E|]. split; [exact Ht|]. split; [exact Hf|].
  intros w2 Hsteps. split.
  - intros k req p dev err data w3. apply failed_exchange_rejects.
  - intros Hrej.
    destruct (steps_requests_of (length (promises w)) (length devices)
                (length (aggregates w)) _ _ Hsteps) as [l0 Hl0].
    destruct (failed_group_stopped _ _ _ _ _ _ _
                (group_invariant_requests _ _ _ _ _ _ _ Hinv Hl0) Hrej)
      as (_ & Halone & Hthen & Hall).
    split; [|split; [|split; [exact Hthen | exact Hall]]].
    + intros l Hl.
      exact (proj1 (failed_group_stopped _ _ _ _ _ _ _
                      (group_invariant_requests _ _ _ _ _ _ _ Hinv Hl) Hrej)).
    + intros Hidle Hnone. apply Halone. split.
      * unfold exchange_requests. rewrite Hf, Hidle. apply exchanges_in_flight_own.
      * destruct Hrej as (i & _ & Hi & _). rewrite (Htk ltac:(lia)). exact Hnone.
Qed.

Lemma exchange_failure_stops_group_witness :
  exists w1 w2 w3,
    @sendToSNS Reference.lib (JObj []) [android_device; android_tablet]
      (Some "arn:aws:sns:us-east-1:1:app/GCM/a") busy_world = Ok (ThenOf 1) w1
    /\ trace w1 = [createPlatformEndpoint (Some "arn:aws:sns:us-east-1:1:app/APNS/a") "a1b2c3";
                   createPlatformEndpoint (Some "arn:aws:sns:us-east-1:1:app/APNS/a") "d4e5f6";
                   createPlatformEndpoint (Some "arn:aws:sns:us-east-1:1:app/GCM/a") "g7h8i9";
                   createPlatformEndpoint (Some "arn:aws:sns:us-east-1:1:app/GCM/a") "j0k1l2"]
    /\ @deliver Reference.lib 3 (Some refused) None w1 = Ok tt w2
    /\ promise_state w2 (ThenOf 1) = Some Pending
    /\ @deliver Reference.lib 2 None (Some accepted) w2 = Ok tt w3
    /\ (forall l, @requests_of Reference.lib 2 2 1 w1 w3 l -> l = [])
    /\ trace w3 = trace w1
    /\ exists errs, promise_state w3 (ThenOf 1) = Some (Rejected (VArray errs)).
Proof.
  destruct (@exchange_failure_stops_group Reference.lib (JObj [])
              [android_device; android_tablet]
              (Some "arn:aws:sns:us-east-1:1:app/GCM/a") busy_world)
    as (w1 & E & Ht & _ & Hlater).
  - repeat constructor; eexists; split; reflexivity.
  - split; vm_compute; repeat constructor.
  - exists w1.
    destruct (@deliver Reference.lib 3 (Some refused) None w1) as [[] w2|e w2] eqn:Hd.
    2: { exfalso. vm_compute in E. injection E as <-. vm_compute in Hd. discriminate. }
    destruct (@deliver Reference.lib 2 None (Some accepted) w2) as [[] w3|e w3] eqn:Hd'.
    2: { exfalso. vm_compute in E. injection E as <-. vm_compute in Hd.
         injection Hd as <-. vm_compute in Hd'. discriminate. }
    assert (Hsteps2 : @steps Reference.lib w1 w2).
    { eapply steps_step; [apply steps_refl | exact (step_deliver _ _ _ _ _ Hd)]. }
    assert (Hsteps3 : @steps Reference.lib w1 w3).
    { eapply steps_step; [exact Hsteps2 | exact (step_deliver _ _ _ _ _ Hd')]. }
    assert (Hstates :
              promise_state w2 (Made 2) = Some Pending
              /\ promise_state w2 (Made 3) = Some (Rejected (VErr (Some refused)))
              /\ promise_state w3 (Made 2)
                 = Some (Resolved (VExchange android_device (EndpointArn accepted)))
              /\ promise_state w3 (Made 3) = Some (Rejected (VErr (Some refused)))
              /\ trace w3 = trace w1).
    { vm_compute in E. injection E as <-. vm_compute in Hd. injection Hd as <-.
      vm_compute in Hd'. injection Hd' as <-. repeat split. }
    destruct Hstates as (Hpend & Hrej & Hok & Hrej' & Hsame).
    exists w2, w3. split; [exact E|]. split; [exact Ht|].
    split; [reflexivity|].
    split.
    { destruct (Hlater w2 Hsteps2) as [_ Hstop].
      destruct Hstop as (_ & _ & Hwait & _).
      { exists 1%nat. eexists. split; [cbn; lia | exact Hrej]. }
      apply Hwait. exists 0%nat. split; [cbn; lia | exact Hpend]. }
    split; [exact Hd'|].
    destruct (Hlater w3 Hsteps3) as [_ Hstop].
    destruct Hstop as (Hnone & _ & _ & Hall).
    { exists 1%nat. eexists. split; [cbn; lia | exact Hrej']. }
    split; [exact Hnone|]. split; [exact Hsame|]. apply Hall.
    intros i Hi. cbn in Hi.
    change (length (promises busy_world)) with 2%nat.
    destruct i as [|[|i]]; [| |lia]; cbn [Nat.add]; [rewrite Hok | rewrite Hrej'];
      discriminate.
Defined.

(** C4, as stated, fails: the failure of one createPlatformEndpoint call
    does not reject the promise of the group.  Of two devices, the call for
    the first is refused: its exchange promise is rejected, and the promise
    of the group is pending, with the call for the second in flight and no
    callback deferred; it is rejected only when that call completes. *)
Lemma exchange_failure_leaves_group_pending :
  exists w1 w2 w3,
    @sendToSNS Reference.lib (JObj []) [ios_with_bundle; ios_without_bundle]
      (Some "arn:aws:sns:us-east-1:1:app/APNS/a") empty_world = Ok (ThenOf 0) w1
    /\ @deliver Reference.lib 0 (Some refused) None w1 = Ok tt w2
    /\ promise_state w2 (Made 0) = Some (Rejected (VErr (Some refused)))
    /\ promise_state w2 (ThenOf 0) = Some Pending
    /\ map snd (inflight w2) = [createPlatformEndpoint_cb 1 ios_without_bundle]
    /\ ticks w2 = []
    /\ @deliver Reference.lib 0 None (Some accepted) w2 = Ok tt w3
    /\ promise_state w3 (ThenOf 0)
       = Some (Rejected (VArray [VErr (Some refused); VUndefined]))
    /\ trace w3 = trace w1.
Proof.
  eexists. eexists. eexists.
  split; [vm_compute; reflexivity|].
  split; [vm_compute; reflexivity|].
  split; [reflexivity|]. split; [reflexivity|]. split; [reflexivity|].
  split; [reflexivity|].
  split; [vm_compute; reflexivity|].
  split; reflexivity.
Qed.

(** ** The promise that send returns *)

Section Send.
Context `{PushLib}.

(** The last object of a [when] nobody chained a [then] on settles, and no
    object was rejected. *)
Lemma resolveOne_last (j : nat) (a : aggregate) (w : world) :
  aggregates w !! j = Some a ->
  total a = 1 -> hadError a = false ->
  when_promise a = Pending -> then_callback a = None ->
  resolveOne j w =
    Ok tt (with_aggregates
             (<[j := set_when_promise (Resolved (returnValue a)) (set_total 0 a)]>
                (aggregates w)) w).
Proof.
  intros Hj Htot Herr Hwhen Hcb.
  rewrite (resolveOne_eq j a w Hj). cbv zeta.
  cbn [total set_total hadError]. rewrite Htot, Herr.
  change (1 - 1 <=? 0) with true. cbv iota.
  unfold settle_when, bind, get_aggregate. world_simpl.
  rewrite list_lookup_insert_eq by exact (lookup_lt_Some _ _ _ Hj).
  cbn [when_promise set_total then_callback]. rewrite Hwhen, Hcb.
  unfold put_aggregate, modify, ret. world_simpl.
  rewrite list_insert_insert_eq. reflexivity.
Qed.

Lemma when_undefined (w : world) :
  Parse_Promise_when VUndefined w =
    Ok (length (aggregates w))
       (with_aggregates (aggregates w ++ [resolved_with_undefined]) w).
Proof.
  unfold Parse_Promise_when, get. unfold bind at 1. cbn [length Nat.eqb].
  unfold bind at 1. unfold modify at 1.
  cbn [forEach_from]. unfold bind at 1. unfold bind at 1.
  unfold chain, bind at 1, get_aggregate. world_simpl. rewrite lookup_fresh.
  unfold bind at 1. unfold put_aggregate at 1, modify. world_simpl.
  rewrite insert_fresh.
  erewrite resolveOne_last;
    [ | world_simpl; apply lookup_fresh | reflexivity | reflexivity
      | reflexivity | reflexivity ].
  world_simpl. rewrite insert_fresh. reflexivity.
Qed.

Lemma bind_ok {A B} (m : M A) (k : A -> M B) (w w' : world) (b : B) :
  bind m k w = Ok b w' -> exists a w1, m w = Ok a w1 /\ k a w1 = Ok b w'.
Proof.
  unfold bind. destruct (m w) as [a w1|e w1]; [|discriminate]. eauto.
Qed.

(** Whatever was handed to [send], if it returns, the promise it returns
    is already resolved, with undefined. *)
Lemma send_resolves_at_once (a : adapter) (d : push_data)
    (installations : installations_arg) (w w' : world) (r : promise_ref) :
  send a d installations w = Ok r w' ->
  promise_state w' r = Some (Resolved VUndefined).
Proof.
  unfold send. intros E.
  apply bind_ok in E as (l & w1 & _ & E).
  apply bind_ok in E as (objects & w2 & _ & E).
  apply bind_ok in E as (u & w3 & _ & E).
  cbv zeta in E. apply bind_ok in E as (j & w4 & Ew & E).
  rewrite when_undefined in Ew. injection Ew as <- <-.
  injection E as <- <-. cbn [promise_state]. world_simpl.
  rewrite lookup_fresh. reflexivity.
Qed.

End Send.

(** C1 (the code departs from it): in the scenario of the claim, two iOS
    devices and one Android device under one iOS bundle configuration, send
    returns a promise that is already resolved, with undefined, while the
    three createPlatformEndpoint requests are in flight and no outcome
    exists; once all nine requests of the run have completed, the three
    outcomes exist, all transmitted, and the promise of send still holds
    undefined. *)
Theorem send_settles_before_any_publish :
  exists r w1 w2,
    @send Reference.lib scenario_adapter greeting scenario_installations scenario_world
      = Ok r w1
    /\ promise_state w1 r = Some (Resolved VUndefined)
    /\ trace w1 =
         [createPlatformEndpoint (Some "arn:aws:sns:us-east-1:1:app/APNS/a") "a1b2c3";
          createPlatformEndpoint (Some "arn:aws:sns:us-east-1:1:app/APNS/a") "d4e5f6";
          createPlatformEndpoint (Some "arn:aws:sns:us-east-1:1:app/GCM/a") "g7h8i9"]
    /\ length (inflight w1) = 3%nat
    /\ outcomes w1 = []
    /\ @answer_first Reference.lib 9 accepted w1 = Ok tt w2
    /\ inflight w2 = []
    /\ map transmitted (outcomes w2) = [Some true; Some true; Some true]
    /\ promise_state w2 r = Some (Resolved VUndefined).
Proof.
  do 3 eexists.
  split; [vm_compute; reflexivity|].
  split; [reflexivity|]. split; [reflexivity|]. split; [reflexivity|].
  split; [reflexivity|].
  split; [vm_compute; reflexivity|].
  split; [reflexivity|]. split; reflexivity.
Qed.

(** * Further properties *)

(** ** Construction, in full *)

Lemma supported_indexed (k : string) :
  supported k -> not_indexed k ["ios"; "android"] = false.
Proof. intros [-> | ->]; reflexivity. Qed.

Lemma supported_dec (k : string) : {supported k} + {~ supported k}.
Proof.
  unfold supported.
  destruct (decide (k = "ios")); [left; tauto|].
  destruct (decide (k = "android")); [left; tauto | right; tauto].
Defined.

Lemma obj_get_member {A} (k : string) (o : list (string * A)) :
  k ∈ map fst o -> exists v, obj_get k o = Some v.
Proof.
  induction o as [|[k' v'] o IH]; cbn; intros Hin; [inversion Hin|].
  destruct (String.eqb_spec k k') as [->|Hne]; [eauto|].
  apply elem_of_cons in Hin as [?|Hin]; [contradiction | exact (IH Hin)].
Qed.

(** The loop of the constructor over supported platforms: every platform is
    made available, in order, with its sender. *)
Lemma register_push_types_supported (all rest available : list string)
    (senders : list (string * sender)) :
  Forall supported rest ->
  exists senders',
    register_push_types ["ios"; "android"] all rest available senders
      = inl (available ++ rest, senders')
    /\ forall k, obj_get k senders' =
                 if bool_decide (k ∈ rest) then Some (sender_of k) else obj_get k senders.
Proof.
  revert available senders.
  induction rest as [|x rest IH]; intros available senders Hall.
  - exists senders. cbn. rewrite app_nil_r. split; [reflexivity|]. intros k. reflexivity.
  - apply Forall_cons in Hall as [Hx Hall].
    cbn [register_push_types]. rewrite (supported_indexed x Hx).
    destruct (IH (available ++ [x])
                (if String.eqb x "ios" then obj_set x sendToAPNS_bound senders
                 else if String.eqb x "android" then obj_set x sendToGCM_bound senders
                      else senders) Hall) as (senders' & E & Hget).
    exists senders'. split; [rewrite E, <- app_assoc; reflexivity|].
    intros k. rewrite Hget.
    destruct (bool_decide (k ∈ rest)) eqn:Hin.
    + apply bool_decide_eq_true_1 in Hin.
      rewrite bool_decide_eq_true_2 by (right; exact Hin). reflexivity.
    + apply bool_decide_eq_false_1 in Hin.
      destruct (decide (k = x)) as [->|Hne].
      * rewrite bool_decide_eq_true_2 by left.
        destruct Hx as [-> | ->]; cbn; rewrite obj_get_set; reflexivity.
      * rewrite bool_decide_eq_false_2
          by (intros Hk; apply elem_of_cons in Hk as [?|?]; contradiction).
        destruct Hx as [-> | ->]; cbn; apply obj_get_set_other; exact Hne.
Qed.

Lemma SNSPushAdapter_supported (pushConfig : push_config) :
  truthy (accessKey pushConfig) = true ->
  truthy (secretKey pushConfig) = true ->
  Forall supported (platform_keys pushConfig) ->
  exists a,
    SNSPushAdapter pushConfig = Constructed a
    /\ availablePushTypes a = platform_keys pushConfig
    /\ snsConfig a = pushTypes pushConfig
    /\ forall k, k ∈ platform_keys pushConfig ->
                 obj_get k (senderMap a) = Some (sender_of k).
Proof.
  intros Ha Hs Hall. unfold SNSPushAdapter, platform_keys in *.
  rewrite Ha, Hs. cbn [negb orb].
  destruct (pushTypes pushConfig) as [pts|].
  - destruct (register_push_types_supported (map fst pts) (map fst pts) [] [] Hall)
      as (senders' & E & Hget).
    rewrite E. eexists. split; [reflexivity|]. cbn.
    split; [reflexivity|]. split; [reflexivity|].
    intros k Hk. rewrite Hget, bool_decide_eq_true_2 by exact Hk. reflexivity.
  - eexists. split; [reflexivity|]. cbn. split; [reflexivity|]. split; [reflexivity|].
    intros k Hk. inversion Hk.
Qed.

(** What construction does, by cases on the configuration. *)
Lemma SNSPushAdapter_cases (pushConfig : push_config) :
  match SNSPushAdapter pushConfig with
  | Constructed a =>
      truthy (accessKey pushConfig) = true
      /\ truthy (secretKey pushConfig) = true
      /\ Forall supported (platform_keys pushConfig)
  | Failed e =>
      code e = PUSH_MISCONFIGURED
      /\ ((truthy (accessKey pushConfig) = false \/ truthy (secretKey pushConfig) = false)
          /\ message e = "Need to provide AWS keys"
          \/ (truthy (accessKey pushConfig) = true
              /\ truthy (secretKey pushConfig) = true
              /\ ~ Forall supported (platform_keys pushConfig)
              /\ message e = "Push to " +:+ array_toString (platform_keys pushConfig)
                              +:+ " is not supported"))
  end.
Proof.
  destruct (truthy (accessKey pushConfig)) eqn:Ha.
  2: { unfold SNSPushAdapter. rewrite Ha. cbn. split; [reflexivity|]. left. auto. }
  destruct (truthy (secretKey pushConfig)) eqn:Hs.
  2: { unfold SNSPushAdapter. rewrite Ha, Hs. cbn. split; [reflexivity|]. left. auto. }
  destruct (List.Forall_Exists_dec supported supported_dec (platform_keys pushConfig))
    as [Hall|Hex].
  - destruct (SNSPushAdapter_supported pushConfig Ha Hs Hall) as (a & -> & _).
    auto.
  - assert (Hbad : ~ Forall supported (platform_keys pushConfig)).
    { intros Hall. apply Exists_exists in Hex as (t & Hin & Ht).
      rewrite Forall_forall in Hall. exact (Ht (Hall t Hin)). }
    apply Exists_exists in Hex as (t & Hin & Ht).
    unfold platform_keys in *.
    destruct (pushTypes pushConfig) as [pts|] eqn:Hp; [|inversion Hin].
    rewrite (SNSPushAdapter_unsupported pushConfig pts t Ha Hs Hp).
    + split; [reflexivity|]. right. split; [reflexivity|]. split; [reflexivity|].
      split; [exact Hbad | reflexivity].
    + apply list_elem_of_In, Hin.
    + intros ->. apply Ht. left. reflexivity.
    + intros ->. apply Ht. right. reflexivity.
Qed.

(** X1: for every configuration that provides both AWS keys and asks only
    for ios and android, construction succeeds; getValidPushTypes returns
    the configured platforms in the order of the configuration; senderMap
    holds sendToAPNS under "ios" and sendToGCM under "android" when they are
    configured, and nothing else; the region handed to AWS is the
    configured one, or "us-east-1" when it is absent or empty. *)
Theorem construction_registers_platforms (pushConfig : push_config) :
  truthy (accessKey pushConfig) = true ->
  truthy (secretKey pushConfig) = true ->
  Forall supported (platform_keys pushConfig) ->
  exists a,
    SNSPushAdapter pushConfig = Constructed a
    /\ getValidPushTypes a = platform_keys pushConfig
    /\ snsConfig a = pushTypes pushConfig
    /\ (forall k, obj_get k (senderMap a) =
                  if bool_decide (k ∈ platform_keys pushConfig)
                  then Some (sender_of k) else None)
    /\ aws_region (aws a) = (if truthy (region pushConfig)
                             then default DEFAULT_REGION (region pushConfig)
                             else "us-east-1")
    /\ accessKeyId (aws a) = accessKey pushConfig
    /\ secretAccessKey (aws a) = secretKey pushConfig.
Proof.
  intros Ha Hs Hall. unfold SNSPushAdapter, platform_keys in *.
  rewrite Ha, Hs. cbn [negb orb].
  destruct (pushTypes pushConfig) as [pts|].
  - destruct (register_push_types_supported (map fst pts) (map fst pts) [] [] Hall)
      as (senders' & E & Hget).
    rewrite E. eexists. split; [reflexivity|]. cbn.
    split; [reflexivity|]. split; [reflexivity|].
    split; [exact Hget|]. repeat split.
  - eexists. split; [reflexivity|]. cbn. repeat split.
Qed.

Lemma construction_registers_platforms_witness :
  exists a, SNSPushAdapter scenario_config = Constructed a
            /\ getValidPushTypes a = ["ios"; "android"]
            /\ obj_get "android" (senderMap a) = Some sendToGCM_bound
            /\ aws_region (aws a) = "us-east-1".
Proof.
  destruct (construction_registers_platforms scenario_config)
    as (a & E & Hv & _ & Hget & Hr & _).
  - reflexivity.
  - reflexivity.
  - apply Forall_cons_2; [left; reflexivity|].
    apply Forall_cons_2; [right; reflexivity | apply Forall_nil_2].
  - exists a. split; [exact E|]. split; [exact Hv|].
    split; [rewrite Hget; reflexivity | exact Hr].
Defined.

(** X2: construction succeeds exactly when both AWS keys are given and
    every configured platform is ios or android; it fails with
    PUSH_MISCONFIGURED only, and with one of two messages: "Need to provide
    AWS keys" when a key is missing or empty, whatever the platforms are,
    and otherwise the message that lists the configured platforms. *)
Theorem construction_fails_for_two_reasons (pushConfig : push_config) :
  ((exists a, SNSPushAdapter pushConfig = Constructed a)
   <-> truthy (accessKey pushConfig) = true
       /\ truthy (secretKey pushConfig) = true
       /\ Forall supported (platform_keys pushConfig))
  /\ (forall e, SNSPushAdapter pushConfig = Failed e ->
        code e = PUSH_MISCONFIGURED
        /\ (if truthy (accessKey pushConfig) && truthy (secretKey pushConfig)
            then message e = "Push to " +:+ array_toString (platform_keys pushConfig)
                             +:+ " is not supported"
            else message e = "Need to provide AWS keys")).
Proof.
  pose proof (SNSPushAdapter_cases pushConfig) as Hcases. split; [split|].
  - intros [a Ea]. rewrite Ea in Hcases. exact Hcases.
  - intros (Ha & Hs & Hall).
    destruct (SNSPushAdapter_supported pushConfig Ha Hs Hall) as (a & Ea & _).
    exists a. exact Ea.
  - intros e Ee. rewrite Ee in Hcases.
    destruct Hcases as [Hcode [[Hkeys Hm]|(Ha & Hs & _ & Hm)]].
    + split; [exact Hcode|].
      destruct Hkeys as [-> | ->]; [|rewrite andb_false_r]; exact Hm.
    + split; [exact Hcode|]. rewrite Ha, Hs. exact Hm.
Qed.


(** ** The outcome of a publish to a topic *)

(** X4: for every send to a device whose deviceToken starts with "arn",
    the one request is the publish to the topic; when it fails, the promise
    of the device is rejected with transmitted false and the stack of the
    error, if it has one; when it succeeds, the promise is resolved with
    transmitted true and the data of publish, null included; either way the
    response names the deviceType and the deviceToken, and no further
    request is made. *)
Theorem topic_send_outcome `{PushLib} (arn : option string) (payload : json)
    (device : installation) (tok : string) (w : world) :
  deviceToken device = Some tok -> startsWith tok "arn" = true ->
  let p := length (promises w) in
  let n := length (inflight w) in
  let about := {| rd_deviceType := deviceType device; rd_deviceToken := tok |} in
  exists w1,
    sendSNSPayload arn payload device w = Ok p w1
    /\ (forall e data, exists w2,
          deliver n (Some e) data w1 = Ok tt w2
          /\ promise_state w2 (Made p)
             = Some (Rejected (VResponse
                  {| device := about; transmitted := Some false;
                     response_ := if truthy (stack e)
                                  then Stack (default EmptyString (stack e))
                                  else NotSet |}))
          /\ trace w2 = trace w1
          /\ inflight w2 = inflight w)
    /\ (forall data, exists w2,
          deliver n None data w1 = Ok tt w2
          /\ promise_state w2 (Made p)
             = Some (Resolved (VResponse
                  {| device := about; transmitted := Some true;
                     response_ := Data data |}))
          /\ trace w2 = trace w1
          /\ inflight w2 = inflight w).
Proof.
  intros Htok Harn p n about. subst p n about.
  eexists. split; [apply (sendSNSPayload_topic _ _ _ tok); assumption|].
  split.
  - intros e data. rewrite deliver_last. cbn [run_callback].
    unfold publish_callback, reject.
    rewrite settle_unobserved by (cbn; apply lookup_fresh).
    eexists. split; [reflexivity|].
    cbn. rewrite insert_fresh, lookup_fresh. cbn.
    split; [destruct (truthy (stack e)); reflexivity|]. split; reflexivity.
  - intros data. rewrite deliver_last. cbn [run_callback].
    unfold publish_callback, resolve.
    rewrite settle_unobserved by (cbn; apply lookup_fresh).
    eexists. split; [reflexivity|].
    cbn. rewrite insert_fresh, lookup_fresh. cbn.
    split; [reflexivity|]. split; reflexivity.
Qed.

Lemma topic_send_outcome_witness :
  exists w1 w2,
    @sendSNSPayload Reference.lib None (JObj []) topic_device empty_world = Ok 0%nat w1
    /\ @deliver Reference.lib 0 (Some refused) None w1 = Ok tt w2
    /\ promise_state w2 (Made 0)
       = Some (Rejected (VResponse
            {| device := {| rd_deviceType := Some "ios";
                            rd_deviceToken := "arn:aws:sns:us-east-1:1:news" |};
               transmitted := Some false; response_ := NotSet |})).
Proof.
  destruct (@topic_send_outcome Reference.lib None (JObj []) topic_device
              "arn:aws:sns:us-east-1:1:news" empty_world eq_refl eq_refl)
    as (w1 & E1 & Hfail & _).
  destruct (Hfail refused None) as (w2 & E2 & Hs & _).
  exists w1, w2. split; [exact E1|]. split; [exact E2 | exact Hs].
Defined.

(** ** What the event loop keeps *)

(** X5: a promise that is resolved or rejected keeps its state and its
    value through every later completion of a request. *)
Theorem settled_promise_is_final `{PushLib} (p : nat) (s : pstate) (w w' : world) :
  s <> Pending -> promise_state w (Made p) = Some s -> steps w w' ->
  promise_state w' (Made p) = Some s.
Proof.
  intros Hs Hp Hsteps. induction Hsteps as [w|w1 w2 w3 _ IH Hstep]; [exact Hp|].
  refine (proj2 (settled_at_step p s _ _ _ Hstep)).
  split; [destruct s; [congruence | reflexivity | reflexivity]|]. apply IH, Hp.
Qed.

Lemma settled_promise_is_final_witness :
  exists w1 w2,
    @deliver Reference.lib 2 (Some refused) None
      (world_of (@sendToSNS Reference.lib (JObj []) [android_device]
                   (Some "arn:aws:sns:us-east-1:1:app/GCM/a") busy_world)) = Ok tt w1
    /\ @deliver Reference.lib 0 None (Some accepted) w1 = Ok tt w2
    /\ promise_state w2 (Made 2) = Some (Rejected (VErr (Some refused))).
Proof.
  destruct (@deliver Reference.lib 2 (Some refused) None
              (world_of (@sendToSNS Reference.lib (JObj []) [android_device]
                           (Some "arn:aws:sns:us-east-1:1:app/GCM/a") busy_world)))
    as [[] w1|e w1] eqn:H1; [|vm_compute in H1; discriminate].
  destruct (@deliver Reference.lib 0 None (Some accepted) w1) as [[] w2|e w2] eqn:H2.
  2: { vm_compute in H1. injection H1 as <-. vm_compute in H2. discriminate. }
  exists w1, w2. split; [reflexivity|]. split; [exact H2|].
  apply (@settled_promise_is_final Reference.lib 2 _ w1 w2).
  - discriminate.
  - vm_compute in H1. injection H1 as <-. reflexivity.
  - eapply steps_step; [apply steps_refl | exact (step_deliver _ _ _ _ _ H2)].
Defined.

(** X6: no completion of a request writes to an installation object or
    draws a random string: the installations are, after any number of
    turns of the event loop, what they were. *)
Theorem steps_keep_store `{PushLib} (w w' : world) :
  steps w w' -> store w' = store w /\ randoms w' = randoms w.
Proof.
  apply (frame_steps (fun w0 => store w0 = store w /\ randoms w0 = randoms w)
           (fun _ => True) (fun _ => True)).
  - intros w0 Hw0. split; [exact Hw0 | exact Logic.I].
  - intros w0 q c s Hw0 _ _ _. exact Hw0.
  - intros. apply Forall_true. intros. exact Logic.I.
  - intros w0 j a Hw0 _. exact Hw0.
  - intros w0 req cb Hw0 _. exact Hw0.
  - intros w0 k req cb Hw0 _. split; [exact Hw0 | exact Logic.I].
  - intros w0 t Hw0 _. exact Hw0.
  - intros w0 t rest Hw0 _. split; [exact Hw0 | exact Logic.I].
  - split; reflexivity.
Qed.

Lemma steps_keep_store_witness :
  exists w',
    @deliver Reference.lib 0 None (Some accepted)
      (with_store [ios_with_bundle] busy_world) = Ok tt w'
    /\ store w' = [ios_with_bundle].
Proof.
  destruct (@deliver Reference.lib 0 None (Some accepted)
              (with_store [ios_with_bundle] busy_world)) as [[] w'|e w'] eqn:H1;
    [|vm_compute in H1; discriminate].
  exists w'. split; [reflexivity|].
  apply (@steps_keep_store Reference.lib (with_store [ios_with_bundle] busy_world) w').
  eapply steps_step; [apply steps_refl | exact (step_deliver _ _ _ _ _ H1)].
Defined.


(** ** The senders *)

Section Senders.
Context `{PushLib}.

Lemma sendToSNS_raw_requests (payload : json) (devices : list installation)
    (platformArn : option string) (w : world) :
  Forall raw devices ->
  exists w1,
    sendToSNS payload devices platformArn w = Ok (ThenOf (length (aggregates w))) w1
    /\ trace w1 = trace w ++ map (exchange_request platformArn) devices
    /\ length (aggregates w1) = S (length (aggregates w)).
Proof.
  intros Hraw.
  destruct (mapM_exchange_raw devices platformArn w Hraw)
    as (w' & E & Hp & Ht & Hf & Ha & _).
  unfold sendToSNS. unfold bind at 1. rewrite E.
  destruct (length devices) as [|n] eqn:Hn.
  - cbn [seq map]. unfold Parse_Promise_when, get. unfold bind at 1. unfold bind at 1.
    cbn [length Nat.eqb]. unfold bind at 1. unfold modify at 1. cbn [ret].
    unfold bind at 1. unfold then_publish_all, bind at 1, get_aggregate.
    world_simpl. rewrite Ha, lookup_fresh.
    cbn [when_promise set_when_promise].
    unfold bind at 1. unfold defer, modify. cbn [ret].
    eexists. split; [reflexivity|]. world_simpl.
    split; [exact Ht|]. rewrite length_app. cbn. lia.
  - destruct (when_then_pending (length (promises w)) n payload w')
      as (w1 & E1 & _ & _ & _ & Hagg & _ & Ht1 & _).
    { intros i Hi. rewrite Hp. rewrite lookup_app_r by lia.
      replace (length (promises w) + i - length (promises w))%nat with i by lia.
      apply lookup_replicate. split; [reflexivity | lia]. }
    rewrite Ha in E1, Hagg.
    assert (Hbind : forall (m : M nat) (k : nat -> M promise_ref) w0,
              (let* j := m in let* promises := k j in ret promises) w0
              = (let* j := m in k j) w0).
    { intros m k w0. unfold bind, ret. destruct (m w0) as [j w2|]; [|reflexivity].
      destruct (k j w2); reflexivity. }
    rewrite Hbind, E1.
    exists w1. split; [reflexivity|].
    split; [rewrite Ht1; exact Ht|]. rewrite Hagg, length_app. cbn. lia.
Qed.

Lemma sendToAPNS_loop_raw (d : push_data) (devices : list installation)
    (iosConfigs : list platform_config) :
  Forall raw devices ->
  forall (promises : list promise_ref) (w : world),
  exists w1,
    sendToAPNS_loop d devices (map Some iosConfigs) promises w
      = Ok (promises
            ++ map ThenOf (seq (length (aggregates w))
                             (length (List.filter (serves devices) iosConfigs)))) w1
    /\ trace w1 = trace w ++ bundle_requests iosConfigs devices.
Proof.
  intros Hraw.
  induction iosConfigs as [|c rest IH]; intros promises w.
  - exists w. cbn. rewrite !app_nil_r. split; reflexivity.
  - cbn [map sendToAPNS_loop List.filter]. unfold serves at 1.
    destruct (0 <? length (deviceSends c devices))%nat eqn:Hnon.
    + destruct (sendToSNS_raw_requests
                  (generateiOSPayload d (production c || false))
                  (deviceSends c devices) (ARN c) w (deviceSends_raw _ _ Hraw))
        as (w1 & E & Ht & Ha).
      unfold bind at 1. unfold bind at 1. rewrite E. cbn [ret].
      destruct (IH (promises ++ [ThenOf (length (aggregates w))]) w1)
        as (w2 & E2 & Ht2).
      exists w2. rewrite E2. split.
      * rewrite Ha, <- app_assoc. reflexivity.
      * rewrite Ht2, Ht, <- app_assoc. reflexivity.
    + unfold bind at 1. cbn [ret].
      destruct (IH promises w) as (w2 & E2 & Ht2).
      exists w2. rewrite E2. split; [reflexivity|].
      rewrite Ht2. unfold bundle_requests. cbn [flat_map].
      apply Nat.ltb_ge in Hnon.
      destruct (deviceSends c devices); [reflexivity | cbn in Hnon; lia].
Qed.

End Senders.

Lemma sendToAPNS_raw `{PushLib} (a : adapter) (d : push_data)
    (devices : list installation) (cfg : list (string * push_type_config))
    (c : push_type_config) (w : world) :
  snsConfig a = Some cfg -> obj_get "ios" cfg = Some c ->
  Forall raw devices ->
  exists r w1,
    sendToAPNS a d devices w = Ok r w1
    /\ trace w1 = trace w ++ bundle_requests (entries c) devices.
Proof.
  intros Hcfg Hios Hraw.
  unfold sendToAPNS, config_of. rewrite Hcfg. unfold bind at 1. cbn [ret].
  rewrite Hios.
  destruct (sendToAPNS_loop_raw d devices (entries c) Hraw [] w) as (w1 & E & Ht).
  eexists. exists w1. split; [|exact Ht].
  destruct c as [x|l]; exact E.
Qed.

(** X7: for every list of iOS devices with plain tokens, sendToAPNS asks
    for an endpoint bundle by bundle, in the order of the configuration,
    for the devices the bundle keeps (a device without appIdentifier once
    per bundle), and returns one promise per bundle that keeps at least one
    device. *)
Theorem sendToAPNS_exchanges_per_bundle `{PushLib} (a : adapter) (d : push_data)
    (devices : list installation) (cfg : list (string * push_type_config))
    (c : push_type_config) (w : world) :
  snsConfig a = Some cfg -> obj_get "ios" cfg = Some c ->
  Forall raw devices ->
  exists w1,
    sendToAPNS a d devices w
      = Ok (map ThenOf (seq (length (aggregates w))
                          (length (List.filter (serves devices) (entries c))))) w1
    /\ trace w1 = trace w ++ bundle_requests (entries c) devices.
Proof.
  intros Hcfg Hios Hraw.
  unfold sendToAPNS, config_of. rewrite Hcfg. unfold bind at 1. cbn [ret].
  rewrite Hios.
  destruct (sendToAPNS_loop_raw d devices (entries c) Hraw [] w) as (w1 & E & Ht).
  exists w1. split; [|exact Ht].
  destruct c as [x|l]; exact E.
Qed.

Lemma sendToAPNS_exchanges_per_bundle_witness :
  exists r w1,
    @sendToAPNS Reference.lib two_bundle_adapter greeting
      [ios_with_bundle; ios_without_bundle] empty_world = Ok r w1
    /\ r = [ThenOf 0; ThenOf 1]
    /\ trace w1 =
         [createPlatformEndpoint (Some "arn:aws:sns:us-east-1:1:app/APNS/a") "a1b2c3";
          createPlatformEndpoint (Some "arn:aws:sns:us-east-1:1:app/APNS/a") "d4e5f6";
          createPlatformEndpoint (Some "arn:aws:sns:us-east-1:1:app/APNS/b") "d4e5f6"].
Proof.
  destruct (@sendToAPNS_exchanges_per_bundle Reference.lib two_bundle_adapter greeting
              [ios_with_bundle; ios_without_bundle]
              [("ios", ConfigArray [com_a; com_b])] (ConfigArray [com_a; com_b])
              empty_world eq_refl eq_refl)
    as (w1 & E & Ht).
  - repeat constructor; eexists; split; reflexivity.
  - eexists. exists w1. split; [exact E|]. split; [reflexivity | exact Ht].
Defined.

Lemma deviceSends_none (iosConfig : platform_config) (devices : list installation) :
  Forall (fun dev => bundle_match iosConfig dev = false) devices ->
  deviceSends iosConfig devices = [].
Proof.
  intros Hno. unfold deviceSends.
  induction devices as [|dev devices IH]; [reflexivity|].
  apply Forall_cons in Hno as [Hdev Hno]. cbn [List.filter]. rewrite Hdev.
  apply IH, Hno.
Qed.

(** X8: iOS devices whose appIdentifier is the bundle of no configured
    entry are dropped without a trace: sendToAPNS makes no request, returns
    an empty array and changes nothing. *)
Theorem sendToAPNS_drops_foreign_bundles `{PushLib} (a : adapter) (d : push_data)
    (devices : list installation) (cfg : list (string * push_type_config))
    (c : push_type_config) (w : world) :
  snsConfig a = Some cfg -> obj_get "ios" cfg = Some c ->
  Forall (fun iosConfig =>
            Forall (fun dev => exists id, appIdentifier dev = Some id
                                          /\ id <> EmptyString
                                          /\ bundleId iosConfig <> Some id) devices)
         (entries c) ->
  sendToAPNS a d devices w = Ok [] w.
Proof.
  intros Hcfg Hios Hforeign.
  unfold sendToAPNS, config_of. rewrite Hcfg. unfold bind at 1. cbn [ret].
  rewrite Hios.
  assert (Hloop : forall promises,
            sendToAPNS_loop d devices (map Some (entries c)) promises w
            = Ok promises w).
  { induction (entries c) as [|x rest IH]; intros promises; [reflexivity|].
    apply Forall_cons in Hforeign as [Hx Hrest].
    cbn [map sendToAPNS_loop]. rewrite deviceSends_none.
    - cbn. unfold bind. cbn. apply IH, Hrest.
    - eapply Forall_impl; [exact Hx|]. intros dev (id & Hid & Hne & Hother).
      unfold bundle_match. rewrite Hid. cbn [truthy].
      rewrite (proj2 (String.eqb_neq id EmptyString) Hne). cbn [negb orb].
      rewrite bool_decide_eq_false_2 by congruence.
      rewrite bool_decide_eq_false_2 by congruence. reflexivity. }
  destruct c as [x|l]; apply Hloop.
Qed.

Lemma sendToAPNS_drops_foreign_bundles_witness :
  @sendToAPNS Reference.lib two_bundle_adapter greeting
    [ios_other_bundle] empty_world
  = Ok [] empty_world.
Proof.
  apply (@sendToAPNS_drops_foreign_bundles Reference.lib two_bundle_adapter greeting _
           [("ios", ConfigArray [com_a; com_b])] (ConfigArray [com_a; com_b]));
    [reflexivity | reflexivity |].
  repeat (apply Forall_cons_2; [|try apply Forall_nil_2]);
    exists "com.c"; (split; [reflexivity|]); split; discriminate.
Defined.

Lemma sendToGCM_raw `{PushLib} (a : adapter) (d : push_data)
    (devices : list installation) (cfg : list (string * push_type_config))
    (c : push_type_config) (w : world) :
  snsConfig a = Some cfg -> obj_get "android" cfg = Some c ->
  Forall raw devices ->
  exists r w1,
    sendToGCM a d devices w = Ok r w1
    /\ trace w1 = trace w ++ map (exchange_request (android_ARN c)) devices.
Proof.
  intros Hcfg Hand Hraw.
  unfold sendToGCM, config_of. rewrite Hcfg.
  unfold bind at 1.
  assert (Hgen : exists payload,
            generateAndroidPayload d None None w
            = Ok payload (with_randoms (S (randoms w)) w)).
  { eexists. reflexivity. }
  destruct Hgen as [payload ->]. unfold bind at 1. cbn [ret]. rewrite Hand.
  destruct (sendToSNS_raw_requests payload devices (android_ARN c)
              (with_randoms (S (randoms w)) w) Hraw) as (w1 & E & Ht & _).
  eexists. exists w1. split; [destruct c; exact E | exact Ht].
Qed.

(** X9: for every list of devices with plain tokens, sendToGCM draws one
    random string for the payload and asks for an endpoint for every
    device, in order, whatever its appIdentifier, under the ARN of the
    android entry; when the android entry is an array, the ARN it sends is
    undefined. *)
Theorem sendToGCM_exchanges_every_device `{PushLib} (a : adapter) (d : push_data)
    (devices : list installation) (cfg : list (string * push_type_config))
    (c : push_type_config) (w : world) :
  snsConfig a = Some cfg -> obj_get "android" cfg = Some c ->
  Forall raw devices ->
  exists w1,
    sendToGCM a d devices w = Ok (ThenOf (length (aggregates w))) w1
    /\ trace w1 = trace w ++ map (exchange_request (android_ARN c)) devices
    /\ randoms w1 = S (randoms w).
Proof.
  intros Hcfg Hand Hraw.
  unfold sendToGCM, config_of. rewrite Hcfg.
  unfold bind at 1.
  assert (Hgen : exists payload,
            generateAndroidPayload d None None w
            = Ok payload (with_randoms (S (randoms w)) w)).
  { eexists. reflexivity. }
  destruct Hgen as [payload ->]. unfold bind at 1. cbn [ret]. rewrite Hand.
  destruct (sendToSNS_raw_requests payload devices (android_ARN c)
              (with_randoms (S (randoms w)) w) Hraw) as (w1 & E & Ht & _).
  exists w1. split; [destruct c; exact E|]. split; [exact Ht|].
  assert (Hr : maintains (fun w0 => randoms w0 = S (randoms w))
                 (sendToSNS payload devices (android_ARN c))).
  { apply (frame_sendToSNS _ (fun _ => True) (fun _ => True)); frame_trivial. }
  specialize (Hr (with_randoms (S (randoms w)) w) eq_refl).
  rewrite E in Hr. exact Hr.
Qed.

Lemma sendToGCM_exchanges_every_device_witness :
  exists w1,
    @sendToGCM Reference.lib scenario_adapter greeting
      [android_device; ios_with_bundle] empty_world = Ok (ThenOf 0) w1
    /\ trace w1 =
         [createPlatformEndpoint (Some "arn:aws:sns:us-east-1:1:app/GCM/a") "g7h8i9";
          createPlatformEndpoint (Some "arn:aws:sns:us-east-1:1:app/GCM/a") "a1b2c3"].
Proof.
  destruct (@sendToGCM_exchanges_every_device Reference.lib scenario_adapter greeting
              [android_device; ios_with_bundle]
              [("ios", OneConfig com_a); ("android", OneConfig gcm_a)]
              (OneConfig gcm_a) empty_world eq_refl eq_refl)
    as (w1 & E & Ht & _).
  - repeat constructor; eexists; split; reflexivity.
  - exists w1. split; [exact E | exact Ht].
Defined.

(** ** A device without deviceToken *)

Section Tokenless.
Context `{PushLib}.

Lemma mapM_exchange_tokenless (before : list installation) (dev : installation)
    (after : list installation) (platformArn : option string) (w : world) :
  Forall raw before -> deviceToken dev = None ->
  exists w',
    mapM (fun d => exchangeTokenPromise d platformArn) (before ++ dev :: after) w
      = Throw no_token w'
    /\ trace w' = trace w ++ map (exchange_request platformArn) before
    /\ inflight w'
       = inflight w ++ exchanges_in_flight platformArn (length (promises w)) before
    /\ aggregates w' = aggregates w.
Proof.
  revert w. induction before as [|d before IH]; intros w Hraw Hnone.
  - cbn [app mapM]. unfold bind at 1.
    unfold exchangeTokenPromise, bind, new_promise, token. rewrite Hnone.
    eexists. split; [reflexivity|]. cbn. rewrite !app_nil_r. repeat split.
  - apply Forall_cons in Hraw as [(tok & Htok & Harn) Hraw].
    cbn [app mapM]. unfold bind at 1.
    rewrite (exchangeTokenPromise_raw d tok platformArn w Htok Harn).
    destruct (IH (requested (createPlatformEndpoint platformArn tok)
                    (createPlatformEndpoint_cb (length (promises w)) d) w) Hraw Hnone)
      as (w' & E & Ht & Hf & Ha).
    unfold bind at 1. rewrite E.
    exists w'. split; [reflexivity|].
    unfold requested in Ht, Hf, Ha. world_simpl.
    assert (Hreq : exchange_request platformArn d
                   = createPlatformEndpoint platformArn tok)
      by (unfold exchange_request; rewrite Htok; reflexivity).
    split; [rewrite Ht, <- app_assoc; cbn [map]; rewrite Hreq; reflexivity|].
    split; [|exact Ha].
    rewrite Hf, <- app_assoc. f_equal. unfold exchanges_in_flight.
    rewrite imap_cons. cbn [app]. rewrite Hreq, Nat.add_0_r. f_equal.
    rewrite length_app. cbn [length].
    apply imap_ext. intros i x _. cbn. do 2 f_equal. lia.
Qed.

End Tokenless.

(** X10: when a device of the group has no deviceToken, sendToSNS throws a
    TypeError and returns no promise; the createPlatformEndpoint requests
    of the devices before it have been made and stay in flight, and
    nothing was asked for the devices after it. *)
Theorem sendToSNS_throws_on_missing_token `{PushLib} (payload : json)
    (before : list installation) (dev : installation) (after : list installation)
    (platformArn : option string) (w : world) :
  Forall raw before -> deviceToken dev = None ->
  exists w',
    sendToSNS payload (before ++ dev :: after) platformArn w = Throw no_token w'
    /\ trace w' = trace w ++ map (exchange_request platformArn) before
    /\ inflight w'
       = inflight w ++ exchanges_in_flight platformArn (length (promises w)) before
    /\ aggregates w' = aggregates w.
Proof.
  intros Hraw Hnone.
  destruct (mapM_exchange_tokenless before dev after platformArn w Hraw Hnone)
    as (w' & E & Hrest).
  exists w'. split; [|exact Hrest].
  unfold sendToSNS. unfold bind at 1. rewrite E. reflexivity.
Qed.

Lemma sendToSNS_throws_on_missing_token_witness :
  exists w',
    @sendToSNS Reference.lib (JObj [])
      [ios_with_bundle;
       ios_without_token;
       ios_without_bundle]
      (Some "arn:aws:sns:us-east-1:1:app/APNS/a") empty_world
    = Throw no_token w'
    /\ trace w' =
         [createPlatformEndpoint (Some "arn:aws:sns:us-east-1:1:app/APNS/a") "a1b2c3"].
Proof.
  destruct (@sendToSNS_throws_on_missing_token Reference.lib (JObj [])
              [ios_with_bundle]
              ios_without_token
              [ios_without_bundle]
              (Some "arn:aws:sns:us-east-1:1:app/APNS/a") empty_world)
    as (w' & E & Ht & _).
  - repeat constructor; eexists; split; reflexivity.
  - reflexivity.
  - exists w'. split; [exact E | exact Ht].
Defined.

(** ** The publish phase of a group *)

Section Progress.
Context `{PushLib}.

Lemma exchange_outcome_value dev err data v :
  exchange_outcome dev err data = Resolved v -> exists arn, v = VExchange dev arn.
Proof.
  unfold exchange_outcome.
  destruct data as [d|]; [destruct (truthy (EndpointArn d))|]; intros [= <-]; eauto.
Qed.

(** The callback of [then] over the answers of raw devices: one
    setEndpointAttributes request per answer, in order, each with a new
    promise. *)
Lemma publish_all_endpoints (payload : json) (devices : list installation)
    (vs : list value) :
  Forall2 (fun dev v => raw dev /\ exists arn, v = VExchange dev arn) devices vs ->
  forall w, exists w',
    publish_all payload (VArray vs) w = Ok tt w'
    /\ trace w' = trace w ++ map enable_request (map arn_of vs)
    /\ promises w' = promises w ++ replicate (length vs) pending_cell
    /\ (exists news, inflight w' = inflight w ++ news
                     /\ Forall (fun e => (length (promises w) <= cb_promise e.2)%nat) news)
    /\ aggregates w' = aggregates w
    /\ ticks w' = ticks w.
Proof.
  intros Hall.
  assert (Hmap : forall w, exists ps w',
            mapM (fun exchangeResponse =>
                    match exchangeResponse with
                    | VExchange device arn => sendSNSPayload arn payload device
                    | _ => throw (TypeError "Cannot read property 'arn'")
                    end) vs w = Ok ps w'
            /\ trace w' = trace w ++ map enable_request (map arn_of vs)
            /\ promises w' = promises w ++ replicate (length vs) pending_cell
            /\ (exists news, inflight w' = inflight w ++ news
                  /\ Forall (fun e => (length (promises w) <= cb_promise e.2)%nat) news)
            /\ aggregates w' = aggregates w
            /\ ticks w' = ticks w).
  { induction Hall as [|dev v devices vs [(tok & Htok & Harn) [arn ->]] _ IH]; intros w.
    - exists [], w. cbn. rewrite !app_nil_r. split; [reflexivity|].
      split; [reflexivity|]. split; [reflexivity|].
      split; [exists []; rewrite app_nil_r; split; [reflexivity | constructor]|].
      split; reflexivity.
    - cbn [mapM map arn_of]. unfold bind at 1.
      rewrite (sendSNSPayload_endpoint arn payload dev tok w Htok Harn).
      set (w1 := requested _ _ w).
      destruct (IH w1) as (ps & w' & E & Ht & Hp & (news & Hf & Hnews) & Ha & Htk).
      unfold bind at 1. rewrite E. cbn [ret].
      eexists. exists w'. split; [reflexivity|].
      subst w1. unfold requested in *. world_simpl.
      split; [rewrite Ht, <- app_assoc; reflexivity|].
      split; [rewrite Hp, <- app_assoc; reflexivity|].
      split; [|split; [exact Ha | exact Htk]].
      eexists. split; [rewrite Hf, <- app_assoc; reflexivity|].
      constructor; [cbn; lia|].
      eapply Forall_impl; [exact Hnews|]. intros e He. cbn in He.
      rewrite length_app in He. cbn in He. lia. }
  intros w. destruct (Hmap w) as (ps & w' & E & Hrest).
  exists w'. split; [|exact Hrest].
  unfold publish_all, bind. rewrite E. reflexivity.
Qed.

(** [when] resolves with [then] registered: the callback runs, then the
    promise of [then] resolves with what it returned, undefined. *)
Lemma settle_when_resolved (j : nat) (a : aggregate) (v : value) (payload : json)
    (w : world) :
  aggregates w !! j = Some a ->
  when_promise a = Pending -> then_callback a = Some payload ->
  settle_when j (Resolved v) w =
    run_then j payload (Resolved v)
      (with_aggregates (<[j := set_when_promise (Resolved v) a]> (aggregates w)) w).
Proof.
  intros Hj Hw Hc.
  unfold settle_when. unfold bind at 1. unfold get_aggregate at 1.
  rewrite Hj, Hw. unfold bind at 1. unfold put_aggregate at 1, modify.
  rewrite Hc. reflexivity.
Qed.

Lemma run_then_published (j : nat) (payload : json) (v : value) (w w' : world) :
  publish_all payload v w = Ok tt w' ->
  run_then j payload (Resolved v) w = settle_then j (Resolved VUndefined) w'.
Proof.
  intros E. unfold run_then. unfold bind at 1. unfold try_catch. unfold bind at 1.
  rewrite E. reflexivity.
Qed.

Lemma has_rejected_true (states : list pstate) :
  existsb is_rejected states = true -> exists i e, states !! i = Some (Rejected e).
Proof.
  induction states as [|x states IH]; cbn; [discriminate|].
  destruct x as [|v|e]; cbn; intros Hex.
  - destruct (IH Hex) as (i & e & Hi). exists (S i), e. exact Hi.
  - destruct (IH Hex) as (i & e & Hi). exists (S i), e. exact Hi.
  - exists 0%nat, e. reflexivity.
Qed.

Lemma collecting_settle P n j payload devices states w i dev err data w' :
  Forall raw devices -> length devices = n ->
  collecting P n j payload devices states w ->
  devices !! i = Some dev ->
  settle (P + i) (exchange_outcome dev err data) w = Ok tt w' ->
  (((exists states', collecting P n j payload devices states' w') \/ lost P n j w')
   /\ trace w' = trace w /\ inflight w' = inflight w
   /\ ticks w' = ticks w
   /\ length (promises w') = length (promises w)
   /\ forall q, q <> (P + i)%nat -> promises w' !! q = promises w !! q)
  \/ (exists arns,
        published P n j devices arns w'
        /\ trace w' = trace w ++ map enable_request arns
        /\ (exists news, inflight w' = inflight w ++ news
              /\ Forall (fun e => (length (promises w) <= cb_promise e.2)%nat) news)
        /\ ticks w' = ticks w
        /\ (length (promises w) <= length (promises w'))%nat
        /\ forall q c, q <> (P + i)%nat -> promises w' !! q = Some c ->
             promises w !! q = Some c \/ callbacks c = []).
Proof.
  intros Hraw Hdevs [Hex Hres Hval] Hdev E.
  set (s := exchange_outcome dev err data) in *.
  assert (Hs : is_pending s = false) by apply exchange_outcome_settled.
  assert (Hi : (i < n)%nat) by (rewrite <- Hdevs; exact (lookup_lt_Some _ _ _ Hdev)).
  destruct Hex as [Hlen Hprom (a & Hj & Harr & Hwhen & Hthen & Hcb & Htot & Herr) Hpos].
  destruct (Hres a Hj) as [Hreslen Hresval].
  destruct (lookup_lt_is_Some_2 states i) as [si Hsi]; [lia|].
  pose proof (Hprom i si Hsi) as Hpi.
  destruct (is_pending si) eqn:Hpend.
  2: { rewrite (settle_settled _ _ _ _ Hpi Hpend) in E. discriminate. }
  assert (si = Pending) by (destruct si; try discriminate; reflexivity). subst si.
  rewrite (settle_pending _ _ _ _ Hpi eq_refl) in E.
  cbn [callbacks] in E. apply forEach_one_ok in E.
  rewrite (notify_settled s j i a) in E by (world_simpl; assumption).
  pose proof (lookup_lt_Some _ _ _ Hj) as Hjlt.
  unfold try_catch in E.
  rewrite (resolveOne_eq j (record_outcome i s a)) in E
    by (world_simpl; apply list_lookup_insert_eq; exact Hjlt).
  cbv zeta in E. world_simpl. rewrite list_insert_insert_eq in E.
  destruct (record_outcome_fields i s a) as (Ra & Rt & Rw & Rth & Rcb & Rerr).
  set (a' := set_total (total (record_outcome i s a) - 1) (record_outcome i s a)) in E.
  assert (Htot' : total a' = Z.of_nat (count_pending (<[i := s]> states))).
  { cbn. rewrite Rt, Htot. rewrite (count_pending_insert states i s Hsi Hs). lia. }
  assert (Herr' : hadError a' = existsb is_rejected (<[i := s]> states)).
  { cbn. rewrite Rerr, Herr. symmetry. apply has_rejected_insert, Hsi. }
  assert (Hprom' : forall i' s', <[i := s]> states !! i' = Some s' ->
            <[(P + i)%nat := {| state := s; callbacks := [(j, i)] |}]> (promises w)
              !! (P + i')%nat = Some {| state := s'; callbacks := [(j, i')] |}).
  { intros i' s' Hi'. destruct (decide (i' = i)) as [->|Hne].
    - rewrite list_lookup_insert_eq in Hi' by lia. injection Hi' as <-.
      apply list_lookup_insert_eq. exact (lookup_lt_Some _ _ _ Hpi).
    - rewrite list_lookup_insert_ne in Hi' by congruence.
      rewrite list_lookup_insert_ne by lia. exact (Hprom i' s' Hi'). }
  assert (Hres' : length (results a') = n
                  /\ forall i' v, <[i := s]> states !! i' = Some (Resolved v) ->
                                  results a' !! i' = Some v).
  { assert (Hr : results a' = match s with
                              | Resolved v => <[i := v]> (results a)
                              | _ => results a
                              end) by (destruct s; reflexivity).
    rewrite Hr. split.
    - destruct s; rewrite ?length_insert; exact Hreslen.
    - intros i' v Hi'. destruct (decide (i' = i)) as [->|Hne].
      + rewrite list_lookup_insert_eq in Hi' by lia. injection Hi' as ->.
        apply list_lookup_insert_eq. lia.
      + rewrite list_lookup_insert_ne in Hi' by congruence.
        destruct s; rewrite ?list_lookup_insert_ne by congruence;
          exact (Hresval i' v Hi'). }
  assert (Hval' : forall i' v, <[i := s]> states !! i' = Some (Resolved v) ->
                    exists dev' arn, devices !! i' = Some dev' /\ v = VExchange dev' arn).
  { intros i' v Hi'. destruct (decide (i' = i)) as [->|Hne].
    - rewrite list_lookup_insert_eq in Hi' by lia. injection Hi' as Hv.
      destruct (exchange_outcome_value _ _ _ _ Hv) as [arn ->]. eauto.
    - rewrite list_lookup_insert_ne in Hi' by congruence. exact (Hval i' v Hi'). }
  assert (Hrest : forall (A : list aggregate) (w0 : world),
            w0 = with_aggregates A
                   (with_promises
                      (<[(P + i)%nat := {| state := s; callbacks := [(j, i)] |}]>
                         (promises w)) w) ->
            trace w0 = trace w
            /\ inflight w0 = inflight w
            /\ ticks w0 = ticks w
            /\ length (promises w0) = length (promises w)
            /\ forall q, q <> (P + i)%nat -> promises w0 !! q = promises w !! q).
  { intros A w0 ->. world_simpl. split; [reflexivity|]. split; [reflexivity|].
    split; [reflexivity|]. split; [apply length_insert|].
    intros q Hq. apply list_lookup_insert_ne. congruence. }
  destruct (total a' <=? 0) eqn:Hzero.
  - apply Z.leb_le in Hzero.
    assert (Hnone : count_pending (<[i := s]> states) = 0%nat) by lia.
    rewrite Herr' in E.
    destruct (existsb is_rejected (<[i := s]> states)) eqn:Hbad.
    + (* some exchange was rejected *)
      rewrite (settle_when_rejected j a' _ payload) in E;
        [ | world_simpl; apply list_lookup_insert_eq; exact Hjlt
          | cbn; congruence | cbn; congruence | cbn; congruence ].
      injection E as <-. left. split; [|eapply Hrest; reflexivity].
      right. split; [split|].
      * intros i' Hi'.
        destruct (lookup_lt_is_Some_2 (<[i := s]> states) i') as [s' Hs'];
          [rewrite length_insert; lia|].
        eexists. split; [apply (Hprom' i' s' Hs')|].
        cbn. exact (count_pending_zero _ _ _ Hnone Hs').
      * eexists. world_simpl.
        rewrite list_lookup_insert_eq by (rewrite length_insert; exact Hjlt).
        reflexivity.
      * destruct (has_rejected_true _ Hbad) as (i0 & e & Hi0).
        exists i0, e. split.
        -- apply lookup_lt_Some in Hi0 as Hlt. rewrite length_insert in Hlt. lia.
        -- world_simpl. rewrite (Hprom' i0 _ Hi0). reflexivity.
    + (* every exchange was resolved: the callback of then runs *)
      right.
      assert (Hall : forall i', (i' < n)%nat ->
                exists v, <[i := s]> states !! i' = Some (Resolved v)).
      { intros i' Hi'.
        destruct (lookup_lt_is_Some_2 (<[i := s]> states) i') as [s' Hs'];
          [rewrite length_insert; lia|].
        destruct (settled_resolved s') as [v ->]; [ | | eauto].
        - exact (count_pending_zero _ _ _ Hnone Hs').
        - exact (has_rejected_false _ _ _ Hbad Hs'). }
      destruct Hres' as [Hlen' Hres'].
      assert (Hvs : Forall2 (fun dev v => raw dev /\ exists arn, v = VExchange dev arn)
                      devices (results a')).
      { apply Forall2_same_length_lookup. split; [lia|].
        intros i' dev' v Hd Hv.
        assert (Hi' : (i' < n)%nat) by (rewrite <- Hdevs; exact (lookup_lt_Some _ _ _ Hd)).
        destruct (Hall i' Hi') as [v' Hv'].
        rewrite (Hres' i' v' Hv') in Hv. injection Hv as <-.
        destruct (Hval' i' v' Hv') as (dev'' & arn & Hd' & ->).
        rewrite Hd in Hd'. injection Hd' as <-.
        split; [|eauto]. rewrite Forall_lookup in Hraw. exact (Hraw i' dev' Hd). }
      rewrite (settle_when_resolved j a' _ payload) in E;
        [ | world_simpl; apply list_lookup_insert_eq; exact Hjlt
          | cbn; congruence | cbn; congruence ].
      unfold returnValue in E.
      replace (arrayArgument a') with true in E by (cbn; congruence).
      world_simpl. rewrite list_insert_insert_eq in E.
      set (wb := with_aggregates _ _) in E.
      destruct (publish_all_endpoints payload devices (results a') Hvs wb)
        as (wc & Epub & Ht & Hp & (news & Hf & Hnews) & Ha & Htk).
      rewrite (run_then_published j payload _ wb wc Epub) in E.
      unfold settle_then, bind, get_aggregate in E. rewrite Ha in E.
      subst wb. world_simpl.
      rewrite list_lookup_insert_eq in E by exact Hjlt.
      cbn [then_promise set_when_promise] in E.
      replace (then_promise a') with Pending in E by (cbn; congruence).
      unfold put_aggregate, modify in E. injection E as <-.
      exists (map arn_of (results a')). world_simpl. split; [split|].
      * rewrite length_map. exact Hlen'.
      * intros i' dev' arn Hd Harn.
        assert (Hi' : (i' < n)%nat) by (rewrite <- Hdevs; exact (lookup_lt_Some _ _ _ Hd)).
        destruct (Hall i' Hi') as [v' Hv'].
        rewrite list_lookup_fmap, (Hres' i' v' Hv') in Harn. injection Harn as <-.
        destruct (Hval' i' v' Hv') as (dev'' & arn & Hd' & ->).
        rewrite Hd in Hd'. injection Hd' as <-.
        world_simpl. rewrite Hp. rewrite lookup_app_l.
        -- rewrite (Hprom' i' _ Hv'). reflexivity.
        -- rewrite length_insert. pose proof (lookup_lt_Some _ _ _ (Hprom i Pending Hsi)).
           pose proof (Hprom' i' _ Hv') as Hx. apply lookup_lt_Some in Hx.
           rewrite length_insert in Hx. exact Hx.
      * world_simpl. rewrite Ha. world_simpl.
        rewrite list_lookup_insert_eq by (rewrite length_insert; exact Hjlt).
        reflexivity.
      * world_simpl. split; [exact Ht|]. split.
        { exists news. split; [exact Hf|].
          eapply Forall_impl; [exact Hnews|]. intros e He. cbn in He.
          rewrite length_insert in He. exact He. }
        split; [exact Htk|].
        split; [rewrite Hp, length_app, length_insert; lia|].
        intros q c Hq Hc. rewrite Hp in Hc.
        apply lookup_app_Some in Hc as [Hc|[_ Hc]].
        -- left. rewrite list_lookup_insert_ne in Hc by congruence. exact Hc.
        -- right. apply lookup_replicate in Hc as [-> _]. reflexivity.
  - apply Z.leb_gt in Hzero. injection E as <-.
    left. split; [|eapply Hrest; reflexivity].
    left. exists (<[i := s]> states). split; [split| |].
    + rewrite length_insert. exact Hlen.
    + exact Hprom'.
    + exists a'. world_simpl.
      split; [apply list_lookup_insert_eq; exact Hjlt|].
      split; [cbn; congruence|]. split; [cbn; congruence|].
      split; [cbn; congruence|]. split; [cbn; congruence|].
      split; [exact Htot' | exact Herr'].
    + lia.
    + intros a0 Ha0. world_simpl.
      rewrite list_lookup_insert_eq in Ha0 by exact Hjlt. injection Ha0 as <-.
      exact Hres'.
    + exact Hval'.
Qed.

Lemma collecting_same P n j payload devices states w w' :
  collecting P n j payload devices states w -> same_group P n j w w' ->
  collecting P n j payload devices states w'.
Proof.
  intros [Hex Hres Hval] Hsame. split.
  - exact (exchanging_same _ _ _ _ _ _ _ Hex Hsame).
  - intros a Ha. apply Hres. rewrite <- (proj2 Hsame). exact Ha.
  - exact Hval.
Qed.

Lemma lost_same P n j w w' : lost P n j w -> same_group P n j w w' -> lost P n j w'.
Proof.
  intros [Hfail (i & e & Hi & Hrej)] Hsame. split.
  - exact (failed_same _ _ _ _ _ Hfail Hsame).
  - exists i, e. split; [exact Hi|]. rewrite (proj1 Hsame i Hi). exact Hrej.
Qed.

Lemma published_same P n j devices arns w w' :
  length devices = n ->
  published P n j devices arns w -> same_group P n j w w' ->
  published P n j devices arns w'.
Proof.
  intros Hdevs [Hlen Hprom Hthen] [Hp Ha]. split; [exact Hlen| |].
  - intros i dev arn Hd Harn. rewrite Hp; [exact (Hprom i dev arn Hd Harn)|].
    rewrite <- Hdevs. exact (lookup_lt_Some _ _ _ Hd).
  - rewrite Ha. exact Hthen.
Qed.

(** A turn that completes a request of another group leaves the group and
    its requests as they are. *)
Lemma other_callback_owned P n j devices w cb err data w' :
  apart P n j w -> owned P n devices w ->
  ~ exchange_promise P n (cb_promise cb) ->
  run_callback cb err data w = Ok tt w' ->
  apart P n j w' /\ same_group P n j w w' /\ owned P n devices w'.
Proof.
  intros Hap Hown Hout E.
  assert (Hinv : (apart P n j w' /\ same_group P n j w w') /\ owned P n devices w').
  { refine (maintains_ok
              (fun w' => (apart P n j w' /\ same_group P n j w w') /\ owned P n devices w')
              _ _ _ _
              (frame_run_callback _ (fun q => ~ exchange_promise P n q)
                 (fun j' => j' <> j) _ _ _ _ _ _ cb err data Hout) _ E).
    - intros w1 [Hw1 [Hd Hf]]. destruct (apart_new_promise _ _ _ _ _ Hw1) as [Hw1' Ht].
      split; [|exact Ht]. split; [exact Hw1'|]. split; [exact Hd | exact Hf].
    - intros w1 q c s [Hw1 [Hd Hf]] Hq Hc Hs.
      split; [exact (apart_settle _ _ _ _ _ _ _ s Hw1 Hq Hc Hs)|].
      split; [exact Hd | exact Hf].
    - intros w1 q c [Hw1 _]. exact (apart_callbacks _ _ _ _ _ _ _ Hw1).
    - intros w1 j' a [Hw1 [Hd Hf]] Hj'.
      split; [exact (apart_put_aggregate _ _ _ _ _ _ a Hw1 Hj')|].
      split; [exact Hd | exact Hf].
    - intros w1 req cb' [Hw1 [Hd Hf]] Hcb'.
      split; [exact (apart_sns_call _ _ _ _ _ req _ Hw1 Hcb')|].
      split; [exact Hd|]. world_simpl.
      apply Forall_app. split; [exact Hf|].
      constructor; [|constructor]. intros Hin. contradiction.
    - intros w1 t [Hw1 [Hd Hf]] Ht.
      split; [exact (apart_defer _ _ _ _ _ t Hw1 Ht)|].
      split; [exact Hd | exact Hf].
    - split; [split; [exact Hap | split; reflexivity] | exact Hown]. }
  tauto.
Qed.

(** A turn that runs a deferred callback of another aggregate leaves the
    group and its requests as they are. *)
Lemma other_tick_owned P n j devices w t w' :
  apart P n j w -> owned P n devices w ->
  tick_target t <> j ->
  run_tick t w = Ok tt w' ->
  apart P n j w' /\ same_group P n j w w' /\ owned P n devices w'.
Proof.
  intros Hap Hown Hout E.
  assert (Hinv : (apart P n j w' /\ same_group P n j w w') /\ owned P n devices w').
  { refine (maintains_ok
              (fun w' => (apart P n j w' /\ same_group P n j w w') /\ owned P n devices w')
              _ _ _ _
              (frame_run_tick _ (fun q => ~ exchange_promise P n q)
                 (fun j' => j' <> j) _ _ _ _ t Hout) _ E).
    - intros w1 [Hw1 [Hd Hf]]. destruct (apart_new_promise _ _ _ _ _ Hw1) as [Hw1' Ht].
      split; [|exact Ht]. split; [exact Hw1'|]. split; [exact Hd | exact Hf].
    - intros w1 j' a [Hw1 [Hd Hf]] Hj'.
      split; [exact (apart_put_aggregate _ _ _ _ _ _ a Hw1 Hj')|].
      split; [exact Hd | exact Hf].
    - intros w1 req cb' [Hw1 [Hd Hf]] Hcb'.
      split; [exact (apart_sns_call _ _ _ _ _ req _ Hw1 Hcb')|].
      split; [exact Hd|]. world_simpl.
      apply Forall_app. split; [exact Hf|].
      constructor; [|constructor]. intros Hin. contradiction.
    - intros w1 t' [Hw1 [Hd Hf]] Ht.
      split; [exact (apart_defer _ _ _ _ _ t' Hw1 Ht)|].
      split; [exact Hd | exact Hf].
    - split; [split; [exact Hap | split; reflexivity] | exact Hown]. }
  tauto.
Qed.

Lemma owned_answered P n devices w k :
  owned P n devices w -> owned P n devices (with_inflight (delete k (inflight w)) w).
Proof.
  intros [Hd Hf]. split; [exact Hd|]. world_simpl. apply Forall_delete, Hf.
Qed.

Lemma group_progress_own P n j payload devices l w2 w3 k err data req cb :
  Forall raw devices ->
  group_progress P n j payload devices l w2 ->
  inflight w2 !! k = Some (req, cb) ->
  exchange_promise P n (cb_promise cb) ->
  deliver k err data w2 = Ok tt w3 ->
  group_progress P n j payload devices
    (l ++ drop (length (trace w2)) (trace w3)) w3.
Proof.
  intros Hraw (Hap & Hown & Hphase) Hk Hin E.
  pose proof (ow_devices _ _ _ _ Hown) as Hdevs.
  pose proof (ow_inflight _ _ _ _ Hown) as Hf. rewrite Forall_lookup in Hf.
  destruct (Hf k _ Hk Hin) as (i & dev & Hdev & Hcb). cbn [snd] in Hcb. subst cb.
  assert (Hi : (i < n)%nat) by (rewrite <- Hdevs; exact (lookup_lt_Some _ _ _ Hdev)).
  unfold deliver in E. rewrite Hk in E. cbn [run_callback] in E.
  rewrite createPlatformEndpoint_callback_settles in E.
  set (w0 := with_inflight (delete k (inflight w2)) w2) in E.
  assert (Hsame : same_group P n j w2 w0) by (split; reflexivity).
  pose proof (apart_answered P n j w2 k Hap) as Hap0.
  pose proof (owned_answered P n devices w2 k Hown) as Hown0.
  fold w0 in Hap0, Hown0.
  destruct Hphase as [[[states Hco] ->]|[[Hlost ->]|(arns & Hpub & ->)]].
  - destruct (collecting_settle P n j payload devices states w0 i dev err data w3
                Hraw Hdevs (collecting_same _ _ _ _ _ _ _ _ Hco Hsame) Hdev E)
      as [(Hphase & Ht & Hfl & Htks & Hlen & Hrest)
         |(arns & Hpub & Ht & (news & Hfl & Hnews) & Htks & Hlen & Hrest)].
    + assert (Hap3 : apart P n j w3).
      { destruct Hap0 as [Hb Hc Hf0 Htk0]. split.
        - rewrite Hlen. exact Hb.
        - intros q c Hq Hout. rewrite Hrest in Hq; [exact (Hc q c Hq Hout)|].
          intros ->. apply Hout. unfold exchange_promise. lia.
        - rewrite Hfl. exact Hf0.
        - rewrite Htks. exact Htk0. }
      assert (Hown3 : owned P n devices w3).
      { split; [exact Hdevs|]. rewrite Hfl. exact (ow_inflight _ _ _ _ Hown0). }
      split; [exact Hap3|]. split; [exact Hown3|].
      assert (Hl : [] ++ drop (length (trace w2)) (trace w3) = []).
      { rewrite Ht. subst w0. world_simpl. rewrite drop_all. reflexivity. }
      rewrite Hl. destruct Hphase as [Hco'|Hlost'].
      * left. split; [exact Hco' | reflexivity].
      * right. left. split; [exact Hlost' | reflexivity].
    + pose proof (ap_bound _ _ _ _ Hap0) as Hb.
      split; [|split].
      * destruct Hap0 as [_ Hc Hf0 Htk0]. split.
        -- lia.
        -- intros q c Hq Hout.
           destruct (Hrest q c) as [Hold|Hnew].
           ++ intros ->. apply Hout. unfold exchange_promise. lia.
           ++ exact Hq.
           ++ exact (Hc q c Hold Hout).
           ++ rewrite Hnew. constructor.
        -- rewrite Hfl. apply Forall_app. split; [exact Hf0|].
           eapply Forall_impl; [exact Hnews|]. intros e He Hin'.
           unfold exchange_promise in Hin'. cbn beta in He. lia.
        -- rewrite Htks. exact Htk0.
      * split; [exact Hdevs|]. rewrite Hfl. apply Forall_app.
        split; [exact (ow_inflight _ _ _ _ Hown0)|].
        eapply Forall_impl; [exact Hnews|]. intros e He Hin'.
        unfold exchange_promise in Hin'. cbn beta in He. lia.
      * right. right. exists arns. split; [exact Hpub|].
        rewrite Ht. subst w0. world_simpl. rewrite drop_app_length. reflexivity.
  - exfalso.
    destruct (fl_promises _ _ _ _ (failed_same _ _ _ _ _ (lo_failed _ _ _ _ Hlost) Hsame)
                i Hi) as (c & Hc & Hset).
    rewrite (settle_settled _ _ c) in E; [discriminate | exact Hc | exact Hset].
  - exfalso.
    pose proof (published_same _ _ _ _ _ _ _ Hdevs Hpub Hsame) as [Hlen Hprom _].
    destruct (lookup_lt_is_Some_2 arns i) as [arn Harn]; [lia|].
    specialize (Hprom i dev arn Hdev Harn).
    destruct (promises w0 !! (P + i)%nat) as [c|] eqn:Hc; [|discriminate].
    cbn in Hprom. injection Hprom as Hstate.
    rewrite (settle_settled _ _ c) in E;
      [discriminate | exact Hc | rewrite Hstate; reflexivity].
Qed.

Lemma group_progress_other P n j payload devices l w2 w3 k err data req cb :
  group_progress P n j payload devices l w2 ->
  inflight w2 !! k = Some (req, cb) ->
  ~ exchange_promise P n (cb_promise cb) ->
  deliver k err data w2 = Ok tt w3 ->
  group_progress P n j payload devices l w3.
Proof.
  intros (Hap & Hown & Hphase) Hk Hout E.
  pose proof (ow_devices _ _ _ _ Hown) as Hdevs.
  unfold deliver in E. rewrite Hk in E.
  destruct (other_callback_owned P n j devices _ cb err data w3
              (apart_answered P n j w2 k Hap) (owned_answered P n devices w2 k Hown)
              Hout E) as (Hap3 & Hsame & Hown3).
  split; [exact Hap3|]. split; [exact Hown3|].
  destruct Hphase as [[[states Hco] Hl]|[[Hlost Hl]|(arns & Hpub & Hl)]].
  - left. split; [|exact Hl]. exists states.
    exact (collecting_same _ _ _ _ _ _ _ _ Hco Hsame).
  - right. left. split; [|exact Hl]. exact (lost_same _ _ _ _ _ Hlost Hsame).
  - right. right. exists arns. split; [|exact Hl].
    exact (published_same _ _ _ _ _ _ _ Hdevs Hpub Hsame).
Qed.

(** No deferred callback is one of the group's own, and a deferred callback
    of another aggregate leaves the group as it is. *)
Lemma group_progress_tick P n j payload devices l l' w2 w3 t rest :
  group_progress P n j payload devices l w2 ->
  ticks w2 = t :: rest ->
  (tick_target t <> j -> l' = l) ->
  next_tick w2 = Ok tt w3 ->
  group_progress P n j payload devices l' w3.
Proof.
  intros (Hap & Hown & Hphase) Ht Hl' E.
  pose proof (ow_devices _ _ _ _ Hown) as Hdevs.
  destruct (apart_ticked P n j w2 t rest Hap Ht) as [Hap' Hne].
  unfold next_tick in E. rewrite Ht in E.
  assert (Hown' : owned P n devices (with_ticks rest w2)).
  { destruct Hown as [Hd Hf]. split; assumption. }
  destruct (other_tick_owned P n j devices _ t w3 Hap' Hown' Hne E)
    as (Hap3 & Hsame & Hown3).
  rewrite (Hl' Hne).
  split; [exact Hap3|]. split; [exact Hown3|].
  destruct Hphase as [[[states Hco] Hl]|[[Hlost Hl]|(arns & Hpub & Hl)]].
  - left. split; [|exact Hl]. exists states.
    exact (collecting_same _ _ _ _ _ _ _ _ Hco Hsame).
  - right. left. split; [|exact Hl]. exact (lost_same _ _ _ _ _ Hlost Hsame).
  - right. right. exists arns. split; [|exact Hl].
    exact (published_same _ _ _ _ _ _ _ Hdevs Hpub Hsame).
Qed.

Lemma group_progress_requests P n j payload devices w1 w2 l :
  Forall raw devices ->
  group_progress P n j payload devices [] w1 -> requests_of P n j w1 w2 l ->
  group_progress P n j payload devices l w2.
Proof.
  intros Hraw Hinv Hr.
  induction Hr as [w|w1 w2 w3 l k err data req cb _ IH Hk Hin E
                    |w1 w2 w3 l k err data req cb _ IH Hk Hout E
                    |w1 w2 w3 l t rest _ IH Ht Hin E
                    |w1 w2 w3 l t rest _ IH Ht Hout E].
  - exact Hinv.
  - exact (group_progress_own _ _ _ _ _ _ _ _ _ _ _ _ _ Hraw (IH Hinv) Hk Hin E).
  - exact (group_progress_other _ _ _ _ _ _ _ _ _ _ _ _ _ (IH Hinv) Hk Hout E).
  - refine (group_progress_tick _ _ _ _ _ _ _ _ _ _ _ (IH Hinv) Ht _ E).
    intros Hne. contradiction.
  - refine (group_progress_tick _ _ _ _ _ _ _ _ _ _ _ (IH Hinv) Ht _ E).
    intros _. reflexivity.
Qed.

Lemma successful_exchange_resolves (k : nat) (req : sns_request) (p : nat)
    (dev : installation) (err : option sns_error) (d : sns_data) (w w' : world) :
  inflight w !! k = Some (req, createPlatformEndpoint_cb p dev) ->
  truthy (EndpointArn d) = true ->
  deliver k err (Some d) w = Ok tt w' ->
  promise_state w' (Made p) = Some (Resolved (VExchange dev (EndpointArn d))).
Proof.
  intros Hk Hdata E. unfold deliver in E. rewrite Hk in E.
  cbn [run_callback] in E. rewrite createPlatformEndpoint_callback_settles in E.
  assert (Hout : exchange_outcome dev err (Some d)
                 = Resolved (VExchange dev (EndpointArn d))).
  { unfold exchange_outcome. rewrite Hdata. reflexivity. }
  rewrite Hout in E.
  set (w0 := with_inflight (delete k (inflight w)) w) in E.
  destruct (promises w0 !! p) as [c|] eqn:Hp.
  2: { unfold settle, bind, get_promise in E. rewrite Hp in E. discriminate. }
  destruct (is_pending (state c)) eqn:Hc.
  2: { rewrite (settle_settled _ _ _ _ Hp Hc) in E. discriminate. }
  assert (Hc' : state c = Pending) by (destruct (state c); try discriminate; reflexivity).
  rewrite (settle_pending _ _ _ _ Hp Hc') in E.
  refine (proj2 (maintains_ok (settled_at p (Resolved (VExchange dev (EndpointArn d))))
                   _ _ _ _ (maintains_forEach _ _ _ (settled_at_notify _ _ _)) _ E)).
  split; [reflexivity|]. world_simpl.
  rewrite list_lookup_insert_eq by exact (lookup_lt_Some _ _ _ Hp). reflexivity.
Qed.

Lemma sendToSNS_raw_progress (payload : json) (devices : list installation)
    (platformArn : option string) (w : world) :
  Forall raw devices -> devices <> [] -> well_formed w ->
  exists w1,
    sendToSNS payload devices platformArn w = Ok (ThenOf (length (aggregates w))) w1
    /\ group_progress (length (promises w)) (length devices) (length (aggregates w))
         payload devices [] w1.
Proof.
  intros Hraw Hsome [Hwf_f Hwf_c Hwf_t].
  destruct (mapM_exchange_raw devices platformArn w Hraw)
    as (w' & E & Hp & Ht & Hf & Ha & Htk).
  unfold sendToSNS. unfold bind at 1. rewrite E.
  assert (Hown : Forall (fun e => exists i dev, devices !! i = Some dev
                    /\ e.2 = createPlatformEndpoint_cb (length (promises w) + i) dev)
                   (exchanges_in_flight platformArn (length (promises w)) devices)).
  { apply Forall_lookup. intros k e Hk. unfold exchanges_in_flight in Hk.
    rewrite list_lookup_imap in Hk.
    destruct (devices !! k) as [d|] eqn:Hd; [|discriminate].
    injection Hk as <-. exists k, d. split; [exact Hd | reflexivity]. }
  assert (Hold_f : forall n, Forall (fun e =>
                     exchange_promise (length (promises w)) n (cb_promise e.2) ->
                     exists i dev, devices !! i = Some dev
                       /\ e.2 = createPlatformEndpoint_cb (length (promises w) + i) dev)
                    (inflight w
                     ++ exchanges_in_flight platformArn (length (promises w)) devices)).
  { intros n. apply Forall_app. split.
    - eapply Forall_impl; [exact Hwf_f|]. intros e He Hin'.
      unfold exchange_promise in Hin'. cbn beta in He. lia.
    - eapply Forall_impl; [exact Hown|]. intros e He _. exact He. }
  assert (Hold_i : forall n, Forall (fun e =>
                     exchange_promise (length (promises w)) n (cb_promise e.2) ->
                     exists i dev, (i < length devices)%nat
                       /\ e.2 = createPlatformEndpoint_cb (length (promises w) + i) dev)
                    (inflight w
                     ++ exchanges_in_flight platformArn (length (promises w)) devices)).
  { intros n. eapply Forall_impl; [exact (Hold_f n)|].
    intros e He Hin'. destruct (He Hin') as (i & dev & Hd & Hcb).
    exists i, dev. split; [exact (lookup_lt_Some _ _ _ Hd) | exact Hcb]. }
  assert (Hold_c : forall q c, (q < length (promises w))%nat ->
            promises w !! q = Some c ->
            Forall (fun target => target.1 <> length (aggregates w)) (callbacks c)).
  { intros q c _ Hq. rewrite Forall_lookup in Hwf_c. specialize (Hwf_c q c Hq).
    eapply Forall_impl; [exact Hwf_c|]. intros target Htarget. cbn beta in Htarget. lia. }
  destruct (length devices) as [|n] eqn:Hn.
  - destruct devices; [congruence | discriminate].
  - destruct (when_then_pending (length (promises w)) n payload w')
      as (w1 & E1 & Hreg & Hold & Hlen & Hagg & Hf1 & Ht1 & Htk1).
    { intros i Hi. rewrite Hp. rewrite lookup_app_r by lia.
      replace (length (promises w) + i - length (promises w))%nat with i by lia.
      apply lookup_replicate. split; [reflexivity | lia]. }
    rewrite Ha in E1, Hreg, Hagg.
    assert (Hbind : forall (m : M nat) (k : nat -> M promise_ref) w0,
              (let* j := m in let* promises := k j in ret promises) w0
              = (let* j := m in k j) w0).
    { intros m k w0. unfold bind, ret. destruct (m w0) as [j w2|]; [|reflexivity].
      destruct (k j w2); reflexivity. }
    rewrite Hbind, E1.
    exists w1. split; [reflexivity|].
    assert (Hin : inflight w1
                  = inflight w
                    ++ exchanges_in_flight platformArn (length (promises w)) devices)
      by (rewrite Hf1, Hf; reflexivity).
    assert (Hlen1 : length (promises w1) = (length (promises w) + S n)%nat).
    { rewrite Hlen, Hp, length_app, length_replicate. reflexivity. }
    split; [|split].
    + split.
      * lia.
      * intros q c Hq Hout.
        assert (Hlt : (q < length (promises w))%nat).
        { pose proof (lookup_lt_Some _ _ _ Hq). unfold exchange_promise in Hout. lia. }
        rewrite Hold in Hq by exact Hlt.
        rewrite Hp, lookup_app_l in Hq by exact Hlt.
        exact (Hold_c q c Hlt Hq).
      * rewrite Hin. exact (Hold_i (S n)).
      * rewrite Htk1, Htk. eapply Forall_impl; [exact Hwf_t|].
        intros t Ht0. cbn beta in Ht0. lia.
    + split; [exact Hn|]. rewrite Hin. exact (Hold_f (S n)).
    + left. split; [|reflexivity]. exists (replicate (S n) Pending). split.
      * split.
        -- apply length_replicate.
        -- intros i s Hi. apply lookup_replicate in Hi as [-> Hi]. apply Hreg, Hi.
        -- eexists. split; [rewrite Hagg; apply lookup_fresh|].
           split; [reflexivity|]. split; [reflexivity|]. split; [reflexivity|].
           split; [reflexivity|].
           split; [rewrite count_pending_replicate; reflexivity
                  | rewrite has_rejected_replicate; reflexivity].
        -- rewrite count_pending_replicate. lia.
      * intros a0 Ha0. rewrite Hagg, lookup_fresh in Ha0. injection Ha0 as <-.
        split; [cbn [results set_then_callback fresh_aggregate]; apply length_replicate|].
        intros i v Hi. apply lookup_replicate in Hi as [Hi _]. discriminate.
      * intros i v Hi. apply lookup_replicate in Hi as [Hi _]. discriminate.
Qed.

End Progress.

(** X12: for every group of at least one device, all with plain tokens,
    sent from any well-formed world: a createPlatformEndpoint request that
    completes with an EndpointArn resolves the exchange promise of its
    device to that endpoint, whatever the error; as long as an exchange
    promise of the group is pending, the group has made no further request
    and its promise is pending; and in every later world in which all the
    exchange promises are resolved, the group has made exactly one
    setEndpointAttributes request per device, in the order of the devices
    and not of the completions, each for the endpoint its device was
    resolved to, and the promise of the group is resolved, with
    undefined. *)
Theorem exchange_success_enables_in_device_order `{PushLib} (payload : json)
    (devices : list installation) (platformArn : option string) (w : world) :
  Forall raw devices -> devices <> [] -> well_formed w ->
  let P := length (promises w) in
  let j := length (aggregates w) in
  let n := length devices in
  exists w1,
    sendToSNS payload devices platformArn w = Ok (ThenOf j) w1
    /\ forall w2 l, requests_of P n j w1 w2 l ->
         (forall k req p dev err d w3,
            inflight w2 !! k = Some (req, createPlatformEndpoint_cb p dev) ->
            truthy (EndpointArn d) = true ->
            deliver k err (Some d) w2 = Ok tt w3 ->
            promise_state w3 (Made p) = Some (Resolved (VExchange dev (EndpointArn d))))
         /\ ((exists i, (i < n)%nat /\ promise_state w2 (Made (P + i)) = Some Pending) ->
             l = [] /\ promise_state w2 (ThenOf j) = Some Pending)
         /\ ((forall i, (i < n)%nat ->
                exists v, promise_state w2 (Made (P + i)) = Some (Resolved v)) ->
             exists arns,
               length arns = n
               /\ (forall i dev arn,
                     devices !! i = Some dev -> arns !! i = Some arn ->
                     promise_state w2 (Made (P + i))
                     = Some (Resolved (VExchange dev arn)))
               /\ l = map enable_request arns
               /\ promise_state w2 (ThenOf j) = Some (Resolved VUndefined)).
Proof.
  intros Hraw Hsome Hwf P j n. subst P j n.
  destruct (sendToSNS_raw_progress payload devices platformArn w Hraw Hsome Hwf)
    as (w1 & E & Hinv).
  exists w1. split; [exact E|].
  intros w2 l Hr. split; [|split].
  - intros k req p dev err d w3. apply successful_exchange_resolves.
  - intros (i & Hi & Hpend).
    destruct (group_progress_requests _ _ _ _ _ _ _ _ Hraw Hinv Hr)
      as (_ & Hown & [[[states Hco] Hl]|[[Hlost Hl]|(arns & Hpub & Hl)]]).
    + split; [exact Hl|].
      destruct Hco as [[_ _ (a & Hj & _ & _ & Hthen & _) _] _ _].
      cbn [promise_state]. rewrite Hj. cbn. congruence.
    + exfalso. destruct Hlost as [[Hset _] _].
      destruct (Hset i Hi) as (c & Hc & Hs).
      cbn [promise_state] in Hpend. rewrite Hc in Hpend. cbn in Hpend.
      injection Hpend as Hpend. rewrite Hpend in Hs. discriminate.
    + exfalso. destruct Hpub as [Hlen Hprom _].
      destruct (lookup_lt_is_Some_2 devices i) as [dev Hdev]; [exact Hi|].
      destruct (lookup_lt_is_Some_2 arns i) as [arn Harn]; [lia|].
      cbn [promise_state] in Hpend. rewrite (Hprom i dev arn Hdev Harn) in Hpend.
      discriminate.
  - intros Hall.
    destruct (group_progress_requests _ _ _ _ _ _ _ _ Hraw Hinv Hr)
      as (_ & Hown & [[[states Hco] Hl]|[[Hlost Hl]|(arns & Hpub & Hl)]]).
    + exfalso. destruct Hco as [[Hlen Hprom _ Hpos] _ _].
      destruct (count_pending_positive _ Hpos) as [i Hi].
      destruct (Hall i) as [v Hv]; [rewrite <- Hlen; exact (lookup_lt_Some _ _ _ Hi)|].
      cbn [promise_state] in Hv. rewrite (Hprom i _ Hi) in Hv. discriminate.
    + exfalso. destruct Hlost as [_ (i & e & Hi & Hrej)].
      destruct (Hall i Hi) as [v Hv].
      cbn [promise_state] in Hv. rewrite Hrej in Hv. discriminate.
    + exists arns. destruct Hpub as [Hlen Hprom Hthen].
      split; [exact Hlen|]. split; [exact Hprom|]. split; [exact Hl | exact Hthen].
Qed.

Lemma exchange_success_enables_in_device_order_witness :
  exists w1 w2 l,
    @sendToSNS Reference.lib (JObj []) [ios_with_bundle; ios_without_bundle]
      (Some "arn:aws:sns:us-east-1:1:app/APNS/a") empty_world = Ok (ThenOf 0) w1
    /\ @requests_of Reference.lib 0 2 0 w1 w2 l
    /\ l = [setEndpointAttributes "true" endpoint_1;
            setEndpointAttributes "true" endpoint_2]
    /\ promise_state w2 (ThenOf 0) = Some (Resolved VUndefined).
Proof.
  destruct (@exchange_success_enables_in_device_order Reference.lib (JObj [])
              [ios_with_bundle; ios_without_bundle]
              (Some "arn:aws:sns:us-east-1:1:app/APNS/a") empty_world)
    as (w1 & E & Hlater).
  - repeat constructor; eexists; split; reflexivity.
  - discriminate.
  - split; constructor.
  - exists w1.
    pose (d1 := {| EndpointArn := endpoint_1; MessageId := None |}).
    pose (d2 := {| EndpointArn := endpoint_2; MessageId := None |}).
    destruct (@deliver Reference.lib 1 None (Some d2) w1) as [[] wa|e wa] eqn:Ha.
    2: { exfalso. vm_compute in E. injection E as <-. vm_compute in Ha. discriminate. }
    destruct (@deliver Reference.lib 0 None (Some d1) wa) as [[] wb|e wb] eqn:Hb.
    2: { exfalso. vm_compute in E. injection E as <-. vm_compute in Ha.
         injection Ha as <-. vm_compute in Hb. discriminate. }
    assert (Hr : @requests_of Reference.lib 0 2 0 w1 wb
                   (([] ++ drop (length (trace w1)) (trace wa))
                    ++ drop (length (trace wa)) (trace wb))).
    { eapply requests_own; [eapply requests_own; [apply requests_none| | |exact Ha]
                           | | | exact Hb].
      - vm_compute in E. injection E as <-. reflexivity.
      - unfold exchange_promise. cbn. lia.
      - vm_compute in E. injection E as <-. vm_compute in Ha. injection Ha as <-.
        reflexivity.
      - unfold exchange_promise. cbn. lia. }
    exists wb. eexists. split; [exact E|]. split; [exact Hr|].
    destruct (Hlater _ _ Hr) as (_ & _ & Hdone).
    destruct Hdone as (arns & _ & _ & _ & Hthen).
    { intros i Hi. vm_compute in E. injection E as <-. vm_compute in Ha.
      injection Ha as <-. vm_compute in Hb. injection Hb as <-.
      destruct i as [|[|i]]; [eexists; reflexivity | eexists; reflexivity | cbn in Hi; lia]. }
    split; [|exact Hthen].
    vm_compute in E. injection E as <-. vm_compute in Ha.
    injection Ha as <-. vm_compute in Hb. injection Hb as <-. reflexivity.
Defined.


(** ** A group of devices with handles *)

Section HandleGroup.
Context `{PushLib}.

Lemma mapM_exchange_handle (devices : list installation) (platformArn : option string)
    (w : world) :
  Forall handle devices ->
  mapM (fun d => exchangeTokenPromise d platformArn) devices w
  = Ok (seq (length (promises w)) (length devices))
       (with_promises
          (promises w
           ++ map (fun d => {| state := Resolved (known_exchange d); callbacks := [] |})
                  devices) w).
Proof.
  revert w. induction devices as [|d devices IH]; intros w Hall.
  - cbn. rewrite app_nil_r. destruct w; reflexivity.
  - apply Forall_cons in Hall as [(tok & Htok & Harn) Hall].
    cbn [mapM]. unfold bind at 1.
    rewrite (exchangeTokenPromise_handle d tok platformArn w Htok Harn).
    unfold bind at 1. rewrite (IH _ Hall). cbn [ret]. world_simpl.
    rewrite length_app. cbn [length map seq].
    replace (length (promises w) + 1)%nat with (S (length (promises w))) by lia.
    rewrite <- app_assoc. reflexivity.
Qed.

Lemma results_step (vs : list value) (k m : nat) (v : value) :
  vs !! k = Some v ->
  <[k := v]> (take k vs ++ replicate (S m) VUndefined)
  = take (S k) vs ++ replicate m VUndefined.
Proof.
  intros Hk. pose proof (lookup_lt_Some _ _ _ Hk) as Hlt.
  rewrite insert_app_r_alt by (rewrite length_take; lia).
  rewrite length_take, Nat.min_l by lia. rewrite Nat.sub_diag. cbn.
  rewrite (take_S_r _ _ _ Hk), <- app_assoc. reflexivity.
Qed.

Lemma chain_ticks_cons (j k : nat) (v : value) (vs : list value) :
  chain_ticks j k (v :: vs) = chain_tick (Resolved v) (j, k) :: chain_ticks j (S k) vs.
Proof.
  unfold chain_ticks. rewrite imap_cons, Nat.add_0_r. f_equal.
  apply imap_ext. intros i x _. cbn. do 2 f_equal. lia.
Qed.

(** [when] over promises that are already resolved: each [chain] defers
    its callback. *)
Lemma chain_defer_all (j P : nat) : forall (vs : list value) (k : nat) (w : world),
  (forall i v, vs !! i = Some v ->
     exists cs, promises w !! (P + k + i)%nat
                = Some {| state := Resolved v; callbacks := cs |}) ->
  forEach_from (chain j) k (map VPromise (seq (P + k) (length vs))) w
  = Ok tt (with_ticks (ticks w ++ chain_ticks j k vs) w).
Proof.
  induction vs as [|v vs IH]; intros k w Hps.
  - cbn. rewrite app_nil_r. destruct w; reflexivity.
  - destruct (Hps 0%nat v eq_refl) as [cs Hp]. rewrite Nat.add_0_r in Hp.
    cbn [length seq map forEach_from]. unfold bind at 1.
    unfold chain at 1. unfold bind at 1, get_promise. rewrite Hp. cbn [state].
    unfold defer, modify.
    replace (S (P + k)) with (P + S k)%nat by lia.
    rewrite IH.
    + rewrite chain_ticks_cons. world_simpl. rewrite <- app_assoc. reflexivity.
    + intros i v' Hi. world_simpl.
      replace (P + S k + i)%nat with (P + k + S i)%nat by lia.
      exact (Hps (S i) v' Hi).
Qed.

Lemma publish_all_handles (payload : json) (devices : list installation) (w : world) :
  Forall handle devices ->
  exists w',
    publish_all payload (VArray (map known_exchange devices)) w = Ok tt w'
    /\ trace w' = trace w ++ map (topic_publish payload) devices
    /\ length (inflight w') = (length (inflight w) + length devices)%nat
    /\ aggregates w' = aggregates w
    /\ ticks w' = ticks w.
Proof.
  intros Hall.
  assert (Hmap : forall w, exists ps w',
            mapM (fun exchangeResponse =>
                    match exchangeResponse with
                    | VExchange device arn => sendSNSPayload arn payload device
                    | _ => throw (TypeError "Cannot read property 'arn'")
                    end) (map known_exchange devices) w = Ok ps w'
            /\ trace w' = trace w ++ map (topic_publish payload) devices
            /\ length (inflight w') = (length (inflight w) + length devices)%nat
            /\ aggregates w' = aggregates w
            /\ ticks w' = ticks w).
  { clear w. induction devices as [|d devices IH]; intros w.
    - exists [], w. cbn. rewrite app_nil_r, Nat.add_0_r. repeat split.
    - apply Forall_cons in Hall as [(tok & Htok & Harn) Hall].
      cbn [map mapM known_exchange]. unfold bind at 1.
      rewrite (sendSNSPayload_topic _ payload d tok w Htok Harn).
      set (w1 := requested _ _ w).
      destruct (IH Hall w1) as (ps & w' & E & Ht & Hf & Ha & Htk).
      unfold bind at 1. rewrite E. cbn [ret].
      eexists. exists w'. subst w1. unfold requested in *. world_simpl.
      rewrite length_app in Hf. cbn [length] in *.
      split; [reflexivity|].
      split; [rewrite Ht, <- app_assoc; unfold topic_publish at 2; rewrite Htok;
              reflexivity|].
      split; [lia|]. split; [exact Ha | exact Htk]. }
  destruct (Hmap w) as (ps & w' & E & Hrest).
  exists w'. split; [|exact Hrest].
  unfold publish_all, bind. rewrite E. reflexivity.
Qed.

(** What [sendToSNS] leaves behind for a group of devices with handles: no
    request, a pending promise, and deferred callbacks. *)
Lemma sendToSNS_handles (payload : json) (devices : list installation)
    (platformArn : option string) (w : world) :
  Forall handle devices ->
  exists w1 a,
    sendToSNS payload devices platformArn w = Ok (ThenOf (length (aggregates w))) w1
    /\ trace w1 = trace w
    /\ inflight w1 = inflight w
    /\ ticks w1 = ticks w ++ group_ticks (length (aggregates w)) payload devices
    /\ aggregates w1 = aggregates w ++ [a]
    /\ then_promise a = Pending
    /\ (devices <> [] ->
        a = set_then_callback payload (fresh_aggregate (length devices))).
Proof.
  intros Hall.
  unfold sendToSNS. unfold bind at 1. rewrite (mapM_exchange_handle _ _ _ Hall).
  set (cell := fun d => {| state := Resolved (known_exchange d); callbacks := [] |}).
  set (w' := with_promises (promises w ++ map cell devices) w).
  set (j := length (aggregates w)).
  assert (Hbind : forall (m : M nat) (k : nat -> M promise_ref) w0,
            (let* j := m in let* promises := k j in ret promises) w0
            = (let* j := m in k j) w0).
  { intros m k w0. unfold bind, ret. destruct (m w0) as [j0 w2|]; [|reflexivity].
    destruct (k j0 w2); reflexivity. }
  rewrite Hbind.
  unfold Parse_Promise_when, get. unfold bind at 1. unfold bind at 1.
  rewrite length_map, length_seq.
  destruct (decide (devices = [])) as [Hnil|Hne].
  - subst devices. cbn [length Nat.eqb]. unfold bind at 1. unfold modify at 1. cbn [ret].
    unfold then_publish_all. unfold bind at 1. unfold get_aggregate at 1.
    world_simpl. subst j w'. world_simpl. rewrite lookup_fresh.
    cbn [when_promise set_when_promise]. unfold bind at 1. unfold defer, modify.
    cbn [ret]. eexists. eexists. split; [reflexivity|]. world_simpl.
    split; [reflexivity|]. split; [reflexivity|]. split; [reflexivity|].
    split; [reflexivity|]. split; [reflexivity|]. congruence.
  - assert (Hn : exists n, length devices = S n)
      by (destruct devices; [congruence | eexists; reflexivity]).
    destruct Hn as [n Hn]. rewrite Hn. cbn [Nat.eqb].
    unfold bind at 1. unfold modify at 1.
    set (w0 := with_aggregates _ w').
    pose proof (chain_defer_all j (length (promises w)) (map known_exchange devices)
                  0 w0) as Hchain.
    rewrite length_map, Hn, Nat.add_0_r in Hchain.
    unfold bind at 1. change (length (aggregates w')) with j.
    rewrite Hchain.
    + cbn [ret]. unfold then_publish_all. unfold bind at 1. unfold get_aggregate at 1.
      subst w0 w' j. world_simpl. rewrite lookup_fresh.
      cbn [when_promise]. unfold bind at 1. unfold put_aggregate, modify. cbn [ret].
      eexists. eexists. split; [reflexivity|]. world_simpl.
      split; [reflexivity|]. split; [reflexivity|].
      split; [destruct devices; [congruence | reflexivity]|].
      split; [apply insert_fresh|]. split; [reflexivity|].
      intros _. reflexivity.
    + intros i v Hv. exists []. subst w0 w'. world_simpl.
      rewrite list_lookup_fmap in Hv.
      destruct (devices !! i) as [di|] eqn:Hdi; [|discriminate].
      injection Hv as <-.
      rewrite lookup_app_r by lia.
      replace (length (promises w) + i - length (promises w))%nat with i by lia.
      rewrite list_lookup_fmap, Hdi. reflexivity.
Qed.

(** The deferred callbacks of [when] run: each records its result, and the
    last one resolves the promise of [when], which runs the callback of
    [then]: one publish per device, in order; then the promise of [then]
    resolves. *)
Lemma run_chain_ticks (j : nat) (payload : json) (devices : list installation) :
  Forall handle devices ->
  forall (m k : nat) (w : world) (a : aggregate) (others : list tick),
  (k + S m)%nat = length devices ->
  ticks w = chain_ticks j k (drop k (map known_exchange devices)) ++ others ->
  aggregates w !! j = Some a ->
  arrayArgument a = true -> total a = Z.of_nat (S m) -> hadError a = false ->
  when_promise a = Pending -> then_callback a = Some payload ->
  then_promise a = Pending ->
  results a = take k (map known_exchange devices) ++ replicate (S m) VUndefined ->
  exists a' w',
    run_ticks (S m) w = Ok tt w'
    /\ ticks w' = others
    /\ aggregates w' = <[j := a']> (aggregates w)
    /\ then_promise a' = Resolved VUndefined
    /\ trace w' = trace w ++ map (topic_publish payload) devices
    /\ length (inflight w') = (length (inflight w) + length devices)%nat.
Proof.
  intros Hall. set (vs := map known_exchange devices).
  assert (Hvs : length vs = length devices) by (subst vs; apply length_map).
  induction m as [|m IH];
    intros k w a others Hlen Hticks Hj Harr Htot Herr Hwhen Hcb Hthen Hres.
  - destruct (lookup_lt_is_Some_2 vs k) as [v Hv]; [lia|].
    rewrite (drop_S _ _ _ Hv), chain_ticks_cons in Hticks.
    rewrite drop_ge in Hticks by lia. cbn [chain_ticks imap app] in Hticks.
    cbn [run_ticks]. unfold bind at 1. unfold next_tick. rewrite Hticks.
    cbn [run_tick].
    set (w0 := with_ticks others w).
    rewrite (notify_settled (Resolved v) j k a w0 Hj eq_refl). cbn [record_outcome].
    pose proof (lookup_lt_Some _ _ _ Hj) as Hjlt.
    unfold try_catch.
    rewrite (resolveOne_eq j (set_result k v a))
      by (world_simpl; apply list_lookup_insert_eq; exact Hjlt).
    cbv zeta. cbn [total set_total set_result hadError]. rewrite Htot, Herr.
    change (Z.of_nat 1 - 1 <=? 0) with true. cbv iota.
    world_simpl. rewrite list_insert_insert_eq.
    set (a1 := set_total (Z.of_nat 1 - 1) (set_result k v a)).
    rewrite (settle_when_resolved j a1 _ payload);
      [ | world_simpl; apply list_lookup_insert_eq; exact Hjlt
        | exact Hwhen | exact Hcb ].
    world_simpl. rewrite list_insert_insert_eq.
    assert (Hret : returnValue a1 = VArray vs).
    { unfold returnValue. subst a1. cbn. rewrite Harr. f_equal.
      rewrite Hres. fold vs. rewrite (results_step vs k 0 v Hv). cbn.
      rewrite app_nil_r. apply take_ge. lia. }
    rewrite Hret.
    set (a2 := set_when_promise (Resolved (VArray vs)) a1).
    match goal with |- context [run_then j payload _ ?W] => set (w2 := W) end.
    destruct (publish_all_handles payload devices w2 Hall)
      as (w3 & Epub & Ht & Hf & Ha & Htk).
    fold vs in Epub. rewrite (run_then_published j payload _ w2 w3 Epub).
    unfold settle_then, bind, get_aggregate. rewrite Ha.
    subst w2. world_simpl. rewrite list_lookup_insert_eq by exact Hjlt.
    replace (then_promise a2) with Pending by (subst a2 a1; cbn; congruence).
    unfold put_aggregate, modify. cbn [ret].
    eexists. eexists. split; [reflexivity|]. world_simpl.
    split; [rewrite Htk; reflexivity|].
    split; [rewrite Ha; world_simpl; rewrite list_insert_insert_eq; reflexivity|].
    split; [reflexivity|]. split; [exact Ht | exact Hf].
  - destruct (lookup_lt_is_Some_2 vs k) as [v Hv]; [lia|].
    rewrite (drop_S _ _ _ Hv), chain_ticks_cons in Hticks.
    cbn [app] in Hticks.
    change (run_ticks (S (S m))) with (let* _ := next_tick in run_ticks (S m)).
    unfold bind at 1. unfold next_tick. rewrite Hticks. cbn [run_tick].
    set (w0 := with_ticks _ w).
    rewrite (notify_settled (Resolved v) j k a w0 Hj eq_refl). cbn [record_outcome].
    pose proof (lookup_lt_Some _ _ _ Hj) as Hjlt.
    unfold try_catch.
    rewrite (resolveOne_eq j (set_result k v a))
      by (world_simpl; apply list_lookup_insert_eq; exact Hjlt).
    cbv zeta. cbn [total set_total set_result]. rewrite Htot.
    replace (Z.of_nat (S (S m)) - 1 <=? 0) with false by (symmetry; apply Z.leb_gt; lia).
    world_simpl. rewrite list_insert_insert_eq.
    set (a1 := set_total (Z.of_nat (S (S m)) - 1) (set_result k v a)).
    set (w1 := with_aggregates (<[j := a1]> (aggregates w0)) w0).
    destruct (IH (S k) w1 a1 others) as (a' & w' & E & Htk & Ha & Hth & Ht & Hf).
    + lia.
    + reflexivity.
    + subst w1. world_simpl. apply list_lookup_insert_eq. exact Hjlt.
    + exact Harr.
    + subst a1. cbn. lia.
    + exact Herr.
    + exact Hwhen.
    + exact Hcb.
    + exact Hthen.
    + subst a1. cbn. rewrite Hres. apply results_step, Hv.
    + exists a', w'. split; [exact E|]. split; [exact Htk|].
      subst w1 w0. world_simpl. rewrite list_insert_insert_eq in Ha.
      split; [exact Ha|]. split; [exact Hth|]. split; [exact Ht | exact Hf].
Qed.

End HandleGroup.

(** X11: for every group of devices whose deviceTokens all start with
    "arn" (the empty group included), sent when no callback is deferred:
    sendToSNS makes no request, and the promise it returns is pending when
    it returns; it defers one callback per device (one for the empty
    group); once these have run, the group has published to the topic of
    each device, in order, under the deviceToken, it has made no
    createPlatformEndpoint and no setEndpointAttributes request, and its
    promise is resolved, with undefined. *)
Theorem handle_group_publishes_next_tick `{PushLib} (payload : json)
    (devices : list installation) (platformArn : option string) (w : world) :
  Forall handle devices -> ticks w = [] ->
  let j := length (aggregates w) in
  exists w1,
    sendToSNS payload devices platformArn w = Ok (ThenOf j) w1
    /\ trace w1 = trace w
    /\ inflight w1 = inflight w
    /\ promise_state w1 (ThenOf j) = Some Pending
    /\ length (ticks w1) = Nat.max 1 (length devices)
    /\ exists w2,
         run_ticks (length (ticks w1)) w1 = Ok tt w2
         /\ ticks w2 = []
         /\ trace w2
            = trace w ++ map (fun dev =>
                                publish {| Message := JSON_stringify payload;
                                           MessageStructure := "json";
                                           TargetArn := None;
                                           TopicArn := deviceToken dev |}) devices
         /\ length (inflight w2) = (length (inflight w) + length devices)%nat
         /\ promise_state w2 (ThenOf j) = Some (Resolved VUndefined).
Proof.
  intros Hall Hnone j.
  destruct (sendToSNS_handles payload devices platformArn w Hall)
    as (w1 & a & E & Ht & Hf & Htk & Ha & Hth & Hfresh).
  fold j in E, Htk. rewrite Hnone in Htk. cbn [app] in Htk.
  assert (Hj : aggregates w1 !! j = Some a) by (rewrite Ha; apply lookup_fresh).
  assert (Hpub : map (topic_publish payload) devices
                 = map (fun dev => publish {| Message := JSON_stringify payload;
                                              MessageStructure := "json";
                                              TargetArn := None;
                                              TopicArn := deviceToken dev |}) devices).
  { apply map_ext_Forall.
    eapply Forall_impl; [exact Hall|]. intros dev (tok & Htok & _).
    unfold topic_publish, topic_object. rewrite Htok. reflexivity. }
  exists w1. split; [exact E|]. split; [exact Ht|]. split; [exact Hf|].
  split; [cbn [promise_state]; rewrite Hj; cbn; congruence|].
  destruct (decide (devices = [])) as [->|Hne].
  - cbn [group_ticks] in Htk. rewrite Htk. split; [reflexivity|].
    cbn [length run_ticks]. unfold bind at 1. unfold next_tick. rewrite Htk.
    cbn [run_tick]. unfold run_then. unfold bind at 1. unfold try_catch.
    unfold bind at 1. unfold publish_all. cbn [mapM]. unfold bind at 1. cbn [ret].
    unfold settle_then, bind, get_aggregate. world_simpl. rewrite Hj, Hth.
    unfold put_aggregate, modify. cbn [ret].
    eexists. split; [reflexivity|]. world_simpl.
    split; [reflexivity|]. split; [rewrite Ht, app_nil_r; reflexivity|].
    split; [rewrite Hf; cbn; lia|].
    cbn [promise_state]. world_simpl.
    rewrite list_lookup_insert_eq by exact (lookup_lt_Some _ _ _ Hj). reflexivity.
  - assert (Hticks : ticks w1 = chain_ticks j 0 (map known_exchange devices)).
    { rewrite Htk. destruct devices; [congruence | reflexivity]. }
    assert (Hn : exists n, length devices = S n)
      by (destruct devices; [congruence | eexists; reflexivity]).
    destruct Hn as [n Hn].
    assert (Hlen : length (ticks w1) = S n).
    { rewrite Hticks. unfold chain_ticks. rewrite length_imap, length_map. exact Hn. }
    rewrite Hlen. split; [rewrite Hn; reflexivity|].
    specialize (Hfresh Hne). subst a.
    destruct (run_chain_ticks j payload devices Hall n 0 w1
                (set_then_callback payload (fresh_aggregate (length devices))) [])
      as (a' & w2 & E2 & Htk2 & Ha2 & Hth2 & Ht2 & Hf2).
    + symmetry. exact Hn.
    + rewrite Hticks, app_nil_r. reflexivity.
    + exact Hj.
    + reflexivity.
    + cbn. rewrite Hn. reflexivity.
    + reflexivity.
    + reflexivity.
    + reflexivity.
    + reflexivity.
    + cbn. rewrite Hn. reflexivity.
    + exists w2. split; [exact E2|]. split; [exact Htk2|].
      split; [rewrite Ht2, Ht, Hpub; reflexivity|].
      split; [rewrite Hf2, Hf; reflexivity|].
      cbn [promise_state]. rewrite Ha2.
      rewrite list_lookup_insert_eq by exact (lookup_lt_Some _ _ _ Hj).
      cbn. congruence.
Qed.

Lemma handle_group_publishes_next_tick_witness :
  exists w1 w2,
    @sendToSNS Reference.lib (JObj []) [topic_device; topic_device] endpoint_1 empty_world
      = Ok (ThenOf 0) w1
    /\ trace w1 = []
    /\ promise_state w1 (ThenOf 0) = Some Pending
    /\ @run_ticks Reference.lib 2 w1 = Ok tt w2
    /\ trace w2 =
         [publish {| Message := "{}"; MessageStructure := "json"; TargetArn := None;
                     TopicArn := Some "arn:aws:sns:us-east-1:1:news" |};
          publish {| Message := "{}"; MessageStructure := "json"; TargetArn := None;
                     TopicArn := Some "arn:aws:sns:us-east-1:1:news" |}]
    /\ promise_state w2 (ThenOf 0) = Some (Resolved VUndefined).
Proof.
  destruct (@handle_group_publishes_next_tick Reference.lib (JObj [])
              [topic_device; topic_device] endpoint_1 empty_world)
    as (w1 & E & Ht & _ & Hp & Hlen & w2 & E2 & _ & Ht2 & _ & Hs).
  - repeat constructor; eexists; split; reflexivity.
  - reflexivity.
  - exists w1, w2. split; [exact E|]. split; [exact Ht|]. split; [exact Hp|].
    rewrite Hlen in E2. split; [exact E2|]. split; [exact Ht2 | exact Hs].
Defined.

(** ** Bundles of devices with handles *)

Section HandleBundles.
Context `{PushLib}.

Lemma deviceSends_handle (iosConfig : platform_config) (devices : list installation) :
  Forall handle devices -> Forall handle (deviceSends iosConfig devices).
Proof.
  intros Hall. unfold deviceSends. rewrite Forall_forall in *.
  intros x Hx. apply Hall. apply list_elem_of_In. apply list_elem_of_In in Hx.
  apply List.filter_In in Hx. tauto.
Qed.

Lemma run_ticks_app (n m : nat) (w : world) :
  run_ticks (n + m) w = (let* _ := run_ticks n in run_ticks m) w.
Proof.
  revert w. induction n as [|n IH]; intros w; [reflexivity|].
  cbn [Nat.add run_ticks]. unfold bind.
  destruct (next_tick w) as [[] w'|e w']; [|reflexivity].
  rewrite IH. reflexivity.
Qed.

Lemma sendToAPNS_loop_handles (d : push_data) (devices : list installation)
    (iosConfigs : list platform_config) :
  Forall handle devices ->
  forall (promises : list promise_ref) (w : world),
  exists w1,
    sendToAPNS_loop d devices (map Some iosConfigs) promises w
      = Ok (promises
            ++ map ThenOf (seq (length (aggregates w))
                             (length (List.filter (serves devices) iosConfigs)))) w1
    /\ trace w1 = trace w
    /\ inflight w1 = inflight w
    /\ ticks w1 = ticks w ++ bundle_ticks (length (aggregates w)) iosConfigs devices
    /\ aggregates w1 = aggregates w ++ bundle_aggregates d iosConfigs devices.
Proof.
  intros Hall.
  induction iosConfigs as [|c rest IH]; intros promises w.
  - exists w. cbn. rewrite !app_nil_r. repeat split.
  - cbn [map sendToAPNS_loop List.filter bundle_ticks]. unfold bundle_aggregates in *.
    cbn [List.filter]. rewrite orb_false_r.
    change (0 <? length (deviceSends c devices))%nat with (serves devices c).
    destruct (serves devices c) eqn:Hnon.
    + unfold serves in Hnon.
      destruct (sendToSNS_handles (generateiOSPayload d (production c))
                  (deviceSends c devices) (ARN c) w (deviceSends_handle _ _ Hall))
        as (w1 & a & E & Ht & Hf & Htk & Ha & _ & Hfresh).
      assert (Hne : deviceSends c devices <> []).
      { apply Nat.ltb_lt in Hnon. intros Hnil. rewrite Hnil in Hnon. cbn in Hnon. lia. }
      specialize (Hfresh Hne). subst a.
      unfold bind at 1. unfold bind at 1. rewrite E. cbn [ret].
      destruct (IH (promises ++ [ThenOf (length (aggregates w))]) w1)
        as (w2 & E2 & Ht2 & Hf2 & Htk2 & Ha2).
      exists w2. rewrite E2.
      assert (Hlen : length (aggregates w1) = S (length (aggregates w)))
        by (rewrite Ha, length_app; cbn; lia).
      rewrite Hlen in *.
      split; [cbn [length seq map]; rewrite <- app_assoc; reflexivity|].
      split; [rewrite Ht2; exact Ht|]. split; [rewrite Hf2; exact Hf|].
      split.
      * rewrite Htk2, Htk, <- app_assoc. do 2 f_equal.
        destruct (deviceSends c devices); [congruence | reflexivity].
      * rewrite Ha2, Ha, <- app_assoc. reflexivity.
    + unfold bind at 1. cbn [ret].
      destruct (IH promises w) as (w2 & E2 & Hrest).
      exists w2. rewrite E2. split; [reflexivity | exact Hrest].
Qed.

(** The callbacks that [sendToAPNS] deferred run: bundle by bundle, the
    devices that the bundle keeps are published to, and the promise of the
    bundle resolves. *)
Lemma run_bundle_ticks (d : push_data) (devices : list installation) :
  Forall handle devices ->
  forall (iosConfigs : list platform_config) (j : nat) (w : world) (others : list tick),
  ticks w = bundle_ticks j iosConfigs devices ++ others ->
  (forall i a, bundle_aggregates d iosConfigs devices !! i = Some a ->
     aggregates w !! (j + i)%nat = Some a) ->
  exists w',
    run_ticks (length (bundle_ticks j iosConfigs devices)) w = Ok tt w'
    /\ ticks w' = others
    /\ trace w' = trace w ++ bundle_publishes d iosConfigs devices
    /\ (forall q, (q < j)%nat -> aggregates w' !! q = aggregates w !! q)
    /\ (forall i, (i < length (List.filter (serves devices) iosConfigs))%nat ->
          then_promise <$> aggregates w' !! (j + i)%nat = Some (Resolved VUndefined)).
Proof.
  intros Hall.
  induction iosConfigs as [|c rest IH]; intros j w others Hticks Haggs.
  - exists w. cbn. rewrite app_nil_r. split; [reflexivity|]. split; [exact Hticks|].
    split; [reflexivity|]. split; [reflexivity|]. intros i Hi. lia.
  - cbn [bundle_ticks List.filter] in *. unfold bundle_publishes. cbn [flat_map].
    fold (bundle_publishes d rest devices).
    unfold bundle_aggregates in Haggs. cbn [List.filter] in Haggs.
    destruct (serves devices c) eqn:Hserves.
    + cbn [map] in Haggs. fold (bundle_aggregates d rest devices) in Haggs.
      assert (Hn : exists n, length (deviceSends c devices) = S n).
      { unfold serves in Hserves. apply Nat.ltb_lt in Hserves.
        destruct (length (deviceSends c devices)); [lia | eexists; reflexivity]. }
      destruct Hn as [n Hn].
      rewrite length_app. rewrite run_ticks_app.
      assert (Hlen : length (chain_ticks j 0 (map known_exchange (deviceSends c devices)))
                     = S n).
      { unfold chain_ticks. rewrite length_imap, length_map. exact Hn. }
      rewrite Hlen.
      destruct (run_chain_ticks j (generateiOSPayload d (production c))
                  (deviceSends c devices) (deviceSends_handle _ _ Hall) n 0 w
                  (set_then_callback (generateiOSPayload d (production c))
                     (fresh_aggregate (length (deviceSends c devices))))
                  (bundle_ticks (S j) rest devices ++ others))
        as (a' & w1 & E1 & Htk1 & Ha1 & Hth1 & Ht1 & _).
      * symmetry. exact Hn.
      * rewrite Hticks, <- app_assoc. reflexivity.
      * rewrite <- (Nat.add_0_r j). apply Haggs. reflexivity.
      * reflexivity.
      * cbn. rewrite Hn. reflexivity.
      * reflexivity.
      * reflexivity.
      * reflexivity.
      * reflexivity.
      * cbn. rewrite Hn. reflexivity.
      * assert (Hj : (j < length (aggregates w))%nat).
        { eapply lookup_lt_Some. rewrite <- (Nat.add_0_r j). apply Haggs. reflexivity. }
        destruct (IH (S j) w1 others Htk1) as (w2 & E2 & Htk2 & Ht2 & Hold & Hdone).
        { intros i a Hi. rewrite Ha1. rewrite list_lookup_insert_ne by lia.
          replace (S j + i)%nat with (j + S i)%nat by lia. apply Haggs. exact Hi. }
        exists w2. unfold bind. rewrite E1. split; [exact E2|].
        split; [exact Htk2|].
        split; [rewrite Ht2, Ht1, <- app_assoc; reflexivity|].
        split.
        -- intros q Hq. rewrite Hold by lia. rewrite Ha1.
           apply list_lookup_insert_ne. lia.
        -- intros i Hi. cbn [length] in Hi. destruct i as [|i].
           ++ rewrite Nat.add_0_r, Hold by lia. rewrite Ha1.
              rewrite list_lookup_insert_eq by exact Hj. cbn. congruence.
           ++ replace (j + S i)%nat with (S j + i)%nat by lia. apply Hdone. lia.
    + assert (Hnil : deviceSends c devices = []).
      { unfold serves in Hserves. apply Nat.ltb_ge in Hserves.
        destruct (deviceSends c devices); [reflexivity | cbn in Hserves; lia]. }
      rewrite Hnil. cbn [map app].
      exact (IH j w others Hticks Haggs).
Qed.

End HandleBundles.

(** X13: for every list of iOS devices whose deviceTokens start with "arn",
    sent when no callback is deferred: sendToAPNS makes no request and
    returns one pending promise per bundle that keeps a device; once the
    callbacks it deferred have run, it has published, bundle by bundle in
    the order of the configuration, to the topic of each device the bundle
    keeps, with the payload of that bundle (the APNS payload for a
    production entry, the APNS_SANDBOX payload for any other), it has made
    no other request, and every promise it returned is resolved, with
    undefined. *)
Theorem sendToAPNS_publishes_per_bundle `{PushLib} (a : adapter) (d : push_data)
    (devices : list installation) (cfg : list (string * push_type_config))
    (c : push_type_config) (w : world) :
  snsConfig a = Some cfg -> obj_get "ios" cfg = Some c ->
  Forall handle devices -> ticks w = [] ->
  exists r w1,
    sendToAPNS a d devices w = Ok r w1
    /\ r = map ThenOf (seq (length (aggregates w))
                         (length (List.filter (serves devices) (entries c))))
    /\ trace w1 = trace w
    /\ Forall (fun p => promise_state w1 p = Some Pending) r
    /\ exists w2,
         run_ticks (length (ticks w1)) w1 = Ok tt w2
         /\ ticks w2 = []
         /\ trace w2 = trace w ++ bundle_publishes d (entries c) devices
         /\ Forall (fun p => promise_state w2 p = Some (Resolved VUndefined)) r.
Proof.
  intros Hcfg Hios Hall Hnone.
  unfold sendToAPNS, config_of. rewrite Hcfg. unfold bind at 1. cbn [ret].
  rewrite Hios.
  destruct (sendToAPNS_loop_handles d devices (entries c) Hall [] w)
    as (w1 & E & Ht & _ & Htk & Ha).
  rewrite Hnone in Htk. cbn [app] in Htk, E.
  assert (Haggs : forall i x, bundle_aggregates d (entries c) devices !! i = Some x ->
                    aggregates w1 !! (length (aggregates w) + i)%nat = Some x).
  { intros i x Hi. rewrite Ha, lookup_app_r by lia.
    replace (length (aggregates w) + i - length (aggregates w))%nat with i by lia.
    exact Hi. }
  eexists. exists w1. split; [destruct c as [x|l]; exact E|].
  split; [reflexivity|]. split; [exact Ht|].
  split.
  - apply Forall_forall. intros p Hp. apply list_elem_of_fmap in Hp as (q & -> & Hq).
    apply elem_of_seq in Hq. cbn [promise_state].
    destruct (lookup_lt_is_Some_2 (bundle_aggregates d (entries c) devices)
                (q - length (aggregates w))) as [x Hx].
    { unfold bundle_aggregates. rewrite length_map. lia. }
    pose proof (Haggs _ x Hx) as Hq'.
    replace (length (aggregates w) + (q - length (aggregates w)))%nat with q in Hq' by lia.
    rewrite Hq'. unfold bundle_aggregates in Hx. rewrite list_lookup_fmap in Hx.
    destruct (List.filter (serves devices) (entries c) !! (q - length (aggregates w))%nat);
      [|discriminate].
    injection Hx as <-. reflexivity.
  - destruct (run_bundle_ticks d devices Hall (entries c) (length (aggregates w)) w1 [])
      as (w2 & E2 & Htk2 & Ht2 & _ & Hdone).
    + rewrite Htk, app_nil_r. reflexivity.
    + exact Haggs.
    + exists w2. rewrite Htk. split; [exact E2|]. split; [exact Htk2|].
      split; [rewrite Ht2, Ht; reflexivity|].
      apply Forall_forall. intros p Hp. apply list_elem_of_fmap in Hp as (q & -> & Hq).
      apply elem_of_seq in Hq. cbn [promise_state].
      replace q with (length (aggregates w) + (q - length (aggregates w)))%nat by lia.
      apply Hdone. lia.
Qed.

Lemma sendToAPNS_publishes_per_bundle_witness :
  exists w1 w2,
    @sendToAPNS Reference.lib two_bundle_adapter greeting [topic_device] empty_world
      = Ok [ThenOf 0; ThenOf 1] w1
    /\ trace w1 = []
    /\ @run_ticks Reference.lib 2 w1 = Ok tt w2
    /\ trace w2
       = [publish (@topic_object Reference.lib
                     (@generateiOSPayload Reference.lib greeting true)
                     "arn:aws:sns:us-east-1:1:news");
          publish (@topic_object Reference.lib
                     (@generateiOSPayload Reference.lib greeting false)
                     "arn:aws:sns:us-east-1:1:news")]
    /\ promise_state w2 (ThenOf 0) = Some (Resolved VUndefined)
    /\ promise_state w2 (ThenOf 1) = Some (Resolved VUndefined).
Proof.
  destruct (@sendToAPNS_publishes_per_bundle Reference.lib two_bundle_adapter greeting
              [topic_device] [("ios", ConfigArray [com_a; com_b])]
              (ConfigArray [com_a; com_b]) empty_world eq_refl eq_refl)
    as (r & w1 & E & -> & Ht & _ & w2 & E2 & _ & Ht2 & Hdone).
  - repeat constructor; eexists; split; reflexivity.
  - reflexivity.
  - exists w1, w2. split; [exact E|]. split; [exact Ht|].
    assert (Hlen : length (ticks w1) = 2%nat).
    { vm_compute in E. injection E as <-. reflexivity. }
    rewrite Hlen in E2. split; [exact E2|]. split; [rewrite Ht2; reflexivity|].
    cbn in Hdone. apply Forall_cons in Hdone as [H0 Hdone].
    apply Forall_cons in Hdone as [H1 _]. split; [exact H0 | exact H1].
Defined.

(** ** One call of send *)

Section SendAll.
Context `{PushLib}.

Lemma of_type_raw (pushType : string) (objects : list installation) :
  Forall raw objects -> Forall raw (of_type pushType objects).
Proof.
  intros Hraw. unfold of_type. rewrite Forall_forall in *.
  intros x Hx. apply Hraw. apply list_elem_of_In. apply list_elem_of_In in Hx.
  apply List.filter_In in Hx. tauto.
Qed.

Lemma dispatch_raw (a : adapter) (d : push_data)
    (cfg : list (string * push_type_config)) (objects : list installation)
    (pushType : string) (w : world) :
  snsConfig a = Some cfg -> supported pushType ->
  obj_get pushType (senderMap a) = Some (sender_of pushType) ->
  (exists c, obj_get pushType cfg = Some c) ->
  Forall raw objects ->
  exists w1,
    dispatch a d (pushType, of_type pushType objects) w = Ok tt w1
    /\ trace w1 = trace w ++ platform_requests cfg objects pushType.
Proof.
  intros Hcfg Hsup Hsender [c Hc] Hraw.
  unfold dispatch. rewrite Hsender. unfold platform_requests. rewrite Hc.
  destruct Hsup as [-> | ->]; cbn [sender_of String.eqb Ascii.eqb Bool.eqb].
  - destruct (sendToAPNS_raw a d (of_type "ios" objects) cfg c w Hcfg Hc
                (of_type_raw _ _ Hraw)) as (r & w1 & E & Ht).
    exists w1. unfold bind. rewrite E. split; [reflexivity | exact Ht].
  - destruct (sendToGCM_raw a d (of_type "android" objects) cfg c w Hcfg Hc
                (of_type_raw _ _ Hraw)) as (r & w1 & E & Ht).
    exists w1. unfold bind. rewrite E. split; [reflexivity | exact Ht].
Qed.

Lemma forEach_dispatch_raw (a : adapter) (d : push_data)
    (cfg : list (string * push_type_config)) (objects : list installation)
    (pushTypes : list string) :
  snsConfig a = Some cfg -> Forall raw objects ->
  Forall (fun k => supported k
                   /\ obj_get k (senderMap a) = Some (sender_of k)
                   /\ exists c, obj_get k cfg = Some c) pushTypes ->
  forall w, exists w1,
    forEach (dispatch a d) (classifyInstallations objects pushTypes) w = Ok tt w1
    /\ trace w1 = trace w ++ flat_map (platform_requests cfg objects) pushTypes.
Proof.
  intros Hcfg Hraw Hall.
  induction Hall as [|k ks (Hsup & Hsender & Hc) _ IH]; intros w.
  - exists w. cbn. rewrite app_nil_r. split; reflexivity.
  - destruct (dispatch_raw a d cfg objects k w Hcfg Hsup Hsender Hc Hraw)
      as (w1 & E & Ht).
    destruct (IH w1) as (w2 & E2 & Ht2).
    exists w2. unfold classifyInstallations in *. cbn [map forEach flat_map].
    unfold bind at 1. unfold of_type in E. rewrite E.
    split; [exact E2|]. rewrite Ht2, Ht, <- app_assoc. reflexivity.
Qed.

End SendAll.

(** X14: for every adapter that construction returned, every notification
    and every list of installations with plain tokens (and no arn
    property), send returns; the requests it has made are, platform by
    platform in the order of the configuration, the createPlatformEndpoint
    requests of the sender of that platform for the installations of that
    platform, and none for an installation of another platform; the promise
    it returns is already resolved, with undefined. *)
Theorem send_exchanges_per_platform `{PushLib} (pushConfig : push_config)
    (a : adapter) (d : push_data) (installations : installations_arg) (w : world) :
  SNSPushAdapter pushConfig = Constructed a ->
  arn installations = None ->
  Forall raw (referred installations w) ->
  exists j w1,
    send a d installations w = Ok (WhenOf j) w1
    /\ promise_state w1 (WhenOf j) = Some (Resolved VUndefined)
    /\ trace w1
       = trace w ++ flat_map (platform_requests (default [] (pushTypes pushConfig))
                                (referred installations w))
                             (getValidPushTypes a).
Proof.
  intros Hcons Harn Hraw.
  pose proof (SNSPushAdapter_cases pushConfig) as Hcases. rewrite Hcons in Hcases.
  destruct Hcases as (Hak & Hsk & Hsup).
  destruct (SNSPushAdapter_supported pushConfig Hak Hsk Hsup)
    as (a' & Ea & Hvalid & Hsns & Hsenders).
  rewrite Hcons in Ea. injection Ea as <-.
  unfold getValidPushTypes in *.
  assert (Hloop : forall w0, exists w1,
            forEach (dispatch a d)
              (classifyInstallations (referred installations w) (availablePushTypes a)) w0
              = Ok tt w1
            /\ trace w1
               = trace w0 ++ flat_map (platform_requests (default [] (pushTypes pushConfig))
                                         (referred installations w))
                                      (availablePushTypes a)).
  { rewrite Hvalid. unfold platform_keys in *.
    destruct (pushTypes pushConfig) as [pts|] eqn:Hpts.
    - apply (forEach_dispatch_raw a d pts); [exact Hsns | exact Hraw |].
      apply Forall_forall. intros k Hk.
      split; [rewrite Forall_forall in Hsup; exact (Hsup k Hk)|].
      split; [exact (Hsenders k Hk)|].
      apply obj_get_member, Hk.
    - intros w0. exists w0. cbn. rewrite app_nil_r. split; reflexivity. }
  destruct (Hloop w) as (w1 & E & Ht).
  unfold send. rewrite Harn. unfold bind at 1. cbn [ret].
  unfold bind at 1. unfold get at 1.
  change (omap (fun loc => store w !! loc) (items installations))
    with (referred installations w).
  unfold bind at 1. rewrite E. cbv zeta.
  unfold bind. rewrite when_undefined. cbn [ret].
  eexists. eexists. split; [reflexivity|].
  cbn [promise_state]. world_simpl. rewrite lookup_fresh.
  split; [reflexivity | exact Ht].
Qed.

Lemma send_exchanges_per_platform_witness :
  exists w1,
    @send Reference.lib scenario_adapter greeting scenario_installations scenario_world
      = Ok (WhenOf 2) w1
    /\ trace w1 =
         [createPlatformEndpoint (Some "arn:aws:sns:us-east-1:1:app/APNS/a") "a1b2c3";
          createPlatformEndpoint (Some "arn:aws:sns:us-east-1:1:app/APNS/a") "d4e5f6";
          createPlatformEndpoint (Some "arn:aws:sns:us-east-1:1:app/GCM/a") "g7h8i9"].
Proof.
  destruct (@send_exchanges_per_platform Reference.lib scenario_config scenario_adapter
              greeting scenario_installations scenario_world)
    as (j & w1 & E & _ & Ht).
  - reflexivity.
  - reflexivity.
  - repeat constructor; eexists; split; reflexivity.
  - exists w1. split; [|exact Ht].
    rewrite E. f_equal. f_equal.
    vm_compute in E. injection E as <- _. reflexivity.
Defined.

(** X15: whatever is handed to send, installations with handles or an arn
    property included, when send returns, the promise it returns is already
    resolved, with undefined: it never waits for a request. *)
Theorem send_never_returns_pending `{PushLib} (a : adapter) (d : push_data)
    (installations : installations_arg) (w w' : world) (r : promise_ref) :
  send a d installations w = Ok r w' ->
  promise_state w' r = Some (Resolved VUndefined).
Proof.
  unfold send. intros E.
  apply bind_ok in E as (l & w1 & _ & E).
  apply bind_ok in E as (objects & w2 & _ & E).
  apply bind_ok in E as (u & w3 & _ & E).
  cbv zeta in E. apply bind_ok in E as (j & w4 & Ew & E).
  rewrite when_undefined in Ew. injection Ew as <- <-.
  injection E as <- <-. cbn [promise_state]. world_simpl.
  rewrite lookup_fresh. reflexivity.
Qed.

Lemma send_never_returns_pending_witness :
  exists r w',
    @send Reference.lib scenario_adapter greeting
      {| items := []; arn := Some [0%nat] |}
      (with_store [topic_device] empty_world) = Ok r w'
    /\ promise_state w' r = Some (Resolved VUndefined)
    /\ trace w' = [].
Proof.
  destruct (@send Reference.lib scenario_adapter greeting
              {| items := []; arn := Some [0%nat] |}
              (with_store [topic_device] empty_world)) as [r w'|e w'] eqn:E;
    [|vm_compute in E; discriminate].
  exists r, w'. split; [reflexivity|].
  split; [exact (@send_never_returns_pending Reference.lib _ _ _ _ _ _ E)|].
  vm_compute in E. injection E as _ <-. reflexivity.
Defined.
